(** * Evershine feeder front end: area calculator, canvas compositor,
      QR payload builder and image list of the product form.

    A shallow embedding of the TypeScript sources.  JavaScript numbers are
    IEEE 754 binary64 values ([spec_float] with precision 53), strings are
    the UTF-8 bytes of well-formed text (so [×] and [÷] take two bytes
    each), React state is an explicit record threaded through the handlers.
    White space is that of the language, multi-byte characters included.
    The case mapping of ASCII is written out; for text with a character
    outside ASCII it is the engine's, a function the definitions take as
    an argument. *)

From Stdlib Require Import ZArith List String Ascii Bool Lia.
From Stdlib Require Import Floats.SpecFloat.
From Stdlib Require Import DecimalString.
Import ListNotations.

Open Scope string_scope.
Open Scope Z_scope.

(** ** JavaScript numbers *)

Module JS.

Definition number := spec_float.

Definition prec : Z := 53.
Definition emax : Z := 1024.

Definition NaN : number := S754_nan.

Definition mul : number -> number -> number := SFmul prec emax.
Definition div : number -> number -> number := SFdiv prec emax.

(** [a < b] and [a > b]; both are false as soon as one side is NaN. *)
Definition ltb (a b : number) : bool := SFltb a b.
Definition gtb (a b : number) : bool := SFltb b a.
Definition leb (a b : number) : bool := SFleb a b.

Definition isNaN (x : number) : bool :=
  match x with S754_nan => true | _ => false end.

(** Finite and strictly greater than zero. *)
Definition isPositiveFinite (x : number) : bool :=
  match x with S754_finite false _ _ => true | _ => false end.

(** The sign bit of a number that is not NaN. *)
Definition signBit (x : number) : option bool :=
  match x with
  | S754_zero s | S754_infinity s | S754_finite s _ _ => Some s
  | S754_nan => None
  end.

(** An integer literal of the source, as the nearest double. *)
Definition ofZ (n : Z) : number := binary_normalize prec emax n 0 false.

(** The double nearest to [m * 10^e] (ties to even), with sign [neg]. *)
Definition ofDecimal (neg : bool) (m : N) (e : Z) : number :=
  match m with
  | N0 => S754_zero neg
  | Npos p =>
      if 0 <=? e then binary_round prec emax neg (p * Z.to_pos (10 ^ e)) 0
      else
        let '(q, e', l) :=
          SFdiv_core_binary prec emax (Zpos p) 0 (10 ^ (- e)) 0 in
        binary_round_aux prec emax neg q e' l
  end.

(** The exact value of a finite double as a fraction [num / den]. *)
Definition fraction (m : positive) (e : Z) : Z * Z :=
  if 0 <=? e then (Zpos m * 2 ^ e, 1) else (Zpos m, 2 ^ (- e)).

(** Same mathematical value (SameValueZero on the non-NaN part). *)
Definition sameValue (x y : number) : bool :=
  match x, y with
  | S754_zero _, S754_zero _ => true
  | S754_infinity a, S754_infinity b => Bool.eqb a b
  | S754_finite a m e, S754_finite b m' e' =>
      Bool.eqb a b &&
      (let '(n1, d1) := fraction m e in
       let '(n2, d2) := fraction m' e' in
       n1 * d2 =? n2 * d1)
  | _, _ => false
  end.

(** *** Strings of digits *)

Definition isDigit (c : ascii) : bool :=
  let n := N_of_ascii c in ((48 <=? n) && (n <=? 57))%N.

(** The white space of the language, the WhiteSpace and LineTerminator
    productions that [parseFloat], [Number], [trim] and [\s] share, as it
    stands in UTF-8.  The characters of one byte: U+0009 to U+000D and
    U+0020. *)
Definition isSpace (c : ascii) : bool :=
  let n := N_of_ascii c in (((9 <=? n) && (n <=? 13)) || (n =? 32))%N.

(** The character of two bytes: U+00A0. *)
Definition isSpace2 (c1 c2 : ascii) : bool :=
  ((N_of_ascii c1 =? 194) && (N_of_ascii c2 =? 160))%N.

(** The characters of three bytes: U+1680, U+2000 to U+200A, U+2028,
    U+2029, U+202F, U+205F, U+3000 and U+FEFF. *)
Definition isSpace3 (c1 c2 c3 : ascii) : bool :=
  let a := N_of_ascii c1 in
  let b := N_of_ascii c2 in
  let c := N_of_ascii c3 in
  (((a =? 225) && (b =? 154) && (c =? 128)) ||
   ((a =? 226) && (b =? 128) &&
    (((128 <=? c) && (c <=? 138)) || (c =? 168) || (c =? 169) || (c =? 175))) ||
   ((a =? 226) && (b =? 129) && (c =? 159)) ||
   ((a =? 227) && (b =? 128) && (c =? 128)) ||
   ((a =? 239) && (b =? 187) && (c =? 191)))%N.

(** Every character is one of ASCII. *)
Fixpoint isASCII (s : string) : bool :=
  match s with
  | String c r => (N_of_ascii c <? 128)%N && isASCII r
  | EmptyString => true
  end.

Fixpoint spanDigits (s : string) : string * string :=
  match s with
  | String c r =>
      if isDigit c then let '(d, r') := spanDigits r in (String c d, r')
      else (EmptyString, s)
  | EmptyString => (EmptyString, EmptyString)
  end.

Fixpoint digitsValueAcc (acc : N) (s : string) : N :=
  match s with
  | String c r => digitsValueAcc (acc * 10 + (N_of_ascii c - 48))%N r
  | EmptyString => acc
  end.

Definition digitsValue (s : string) : N := digitsValueAcc 0%N s.

Definition decimalString (n : Z) : string :=
  NilZero.string_of_uint (N.to_uint (Z.to_N n)).

Fixpoint zeros (n : nat) : string :=
  match n with O => EmptyString | S k => String "0" (zeros k) end.

(** [s.trimStart()]: the text after its leading white space. *)
Fixpoint trimStart (s : string) : string :=
  match s with
  | String c1 r1 =>
      if isSpace c1 then trimStart r1
      else
        match r1 with
        | String c2 r2 =>
            if isSpace2 c1 c2 then trimStart r2
            else
              match r2 with
              | String c3 r3 => if isSpace3 c1 c2 c3 then trimStart r3 else s
              | EmptyString => s
              end
        | EmptyString => s
        end
  | EmptyString => EmptyString
  end.

Definition startsWith (p s : string) : bool := String.prefix p s.

(** *** Number.parseFloat *)

(** The exponent part [e[+-]digits] of a literal; [0] when there is none. *)
Definition exponentPart (s : string) : Z :=
  match s with
  | String c r =>
      if (Ascii.eqb c "e" || Ascii.eqb c "E")%bool then
        let '(neg, r') :=
          match r with
          | String "-" t => (true, t)
          | String "+" t => (false, t)
          | _ => (false, r)
          end in
        let '(d, _) := spanDigits r' in
        match d with
        | EmptyString => 0
        | _ => if neg then - Z.of_N (digitsValue d) else Z.of_N (digitsValue d)
        end
      else 0
  | EmptyString => 0
  end.

(** The longest prefix that is a StrDecimalLiteral, after leading white
    space, rounded to the nearest double; NaN when there is none. *)
Definition parseFloat (input : string) : number :=
  let t := trimStart input in
  let '(neg, body) :=
    match t with
    | String "-" r => (true, r)
    | String "+" r => (false, r)
    | _ => (false, t)
    end in
  if startsWith "Infinity" body then S754_infinity neg
  else
    let '(ip, r1) := spanDigits body in
    let '(fp, r2) :=
      match r1 with
      | String "." r => spanDigits r
      | _ => (EmptyString, r1)
      end in
    match ip, fp with
    | EmptyString, EmptyString => NaN
    | _, _ =>
        ofDecimal neg (digitsValue (ip ++ fp))
                  (exponentPart r2 - Z.of_nat (String.length fp))
    end.

(** *** Math.round *)

(** The integer nearest to [x], ties towards +Infinity; the sign of a zero
    result is the sign of [x]. *)
Definition round (x : number) : number :=
  match x with
  | S754_finite s m e =>
      if 0 <=? e then x
      else
        let d := 2 ^ (- e) in
        let v := if s then Zneg m else Zpos m in
        match (2 * v + d) / (2 * d) with
        | Z0 => S754_zero s
        | n => binary_normalize prec emax n 0 false
        end
  | _ => x
  end.

(** *** Number::toString, radix 10 *)

Definition digitCount (n : Z) : Z :=
  Z.of_nat (String.length (decimalString n)).

(** Least [t], from [t] on, with [den <= num * 10^t]. *)
Fixpoint scaleUp (fuel : nat) (num den t : Z) : Z :=
  match fuel with
  | O => t
  | S f => if den <=? num * 10 ^ t then t else scaleUp f num den (t + 1)
  end.

(** The [n] with [10^(n-1) <= num/den < 10^n]. *)
Definition decimalExponent (num den : Z) : Z :=
  if den <=? num then digitCount (num / den)
  else 1 - scaleUp (Z.to_nat (Z.log2 den) + 1) num den 1.

(** [num/den / 10^p] as a fraction. *)
Definition scaled (num den p : Z) : Z * Z :=
  if 0 <=? p then (num, den * 10 ^ p) else (num * 10 ^ (- p), den).

Definition roundTrips (x : number) (s p : Z) : bool :=
  sameValue (ofDecimal false (Z.to_N s) p) (SFabs x).

(** The [k]-digit integer [s] with [s * 10^(n-k)] read back as [x], the
    nearer of the two neighbours of [x] when both qualify, the even one on
    a tie. *)
Definition pickDigits (x : number) (num den n k : Z) : option Z :=
  let '(a, b) := scaled num den (n - k) in
  let lo := a / b in
  let hi := lo + 1 in
  let r2 := 2 * (a mod b) in
  match roundTrips x lo (n - k), roundTrips x hi (n - k) with
  | true, true =>
      Some (if r2 <? b then lo
            else if b <? r2 then hi
            else if Z.even lo then lo else hi)
  | true, false => Some lo
  | false, true => Some hi
  | false, false => None
  end.

(** Smallest [k] with such an [s]; seventeen digits always suffice. *)
Fixpoint shortest (fuel : nat) (x : number) (num den n k : Z) : Z * Z :=
  match fuel with
  | O => (fst (scaled num den (n - k)) / snd (scaled num den (n - k)), k)
  | S f =>
      match pickDigits x num den n k with
      | Some s => (s, k)
      | None => shortest f x num den n (k + 1)
      end
  end.

Definition formatDigits (ds : string) (k n : Z) : string :=
  if (k <=? n) && (n <=? 21) then ds ++ zeros (Z.to_nat (n - k))
  else if (0 <? n) && (n <=? 21) then
    substring 0 (Z.to_nat n) ds ++ "." ++
    substring (Z.to_nat n) (Z.to_nat (k - n)) ds
  else if (-6 <? n) && (n <=? 0) then "0." ++ zeros (Z.to_nat (- n)) ++ ds
  else
    let e := n - 1 in
    let sign := if e <? 0 then "-" else "+" in
    if k =? 1 then ds ++ "e" ++ sign ++ decimalString (Z.abs e)
    else
      substring 0 1 ds ++ "." ++ substring 1 (Z.to_nat (k - 1)) ds ++
      "e" ++ sign ++ decimalString (Z.abs e).

Definition toString (x : number) : string :=
  match x with
  | S754_nan => "NaN"
  | S754_zero _ => "0"
  | S754_infinity s => if s then "-Infinity" else "Infinity"
  | S754_finite sg m e =>
      let '(num, den) := fraction m e in
      let n := decimalExponent num den in
      let '(s, k) := shortest 17 x num den n 1 in
      let '(s, n) := if s =? 10 ^ k then (10 ^ (k - 1), n + 1) else (s, n) in
      (if sg then "-" else "") ++ formatDigits (decimalString s) k n
  end.

(** *** Number.prototype.toFixed *)

Definition fixedDigits (n : Z) (f : nat) : string :=
  let m := decimalString n in
  match f with
  | O => m
  | _ =>
      let k := String.length m in
      let m := if (k <=? f)%nat then zeros (f + 1 - k) ++ m else m in
      let k := String.length m in
      substring 0 (k - f) m ++ "." ++ substring (k - f) f m
  end.

(** [n / 10^f] nearest to [x], the larger [n] on a tie. *)
Definition toFixed (x : number) (f : nat) : string :=
  match x with
  | S754_nan => "NaN"
  | S754_infinity s => if s then "-Infinity" else "Infinity"
  | S754_zero _ => fixedDigits 0 f
  | S754_finite s m e =>
      let '(num, den) := fraction m e in
      if 10 ^ 21 * den <=? num then toString x
      else
        let n := (2 * num * 10 ^ Z.of_nat f + den) / (2 * den) in
        (if s then "-" else "") ++ fixedDigits n f
  end.

End JS.

(** ** The product form: quantity from dimensions (ProductForm) *)

Module ProductForm.

Import JS.

(** The fields of the form the calculation reads and writes.  The size and
    piece fields are optional strings of the schema ([None] is [undefined]). *)
Record FormValues := {
  sizeLength : option string;
  sizeHeight : option string;
  sizeUnit : string;
  numberOfPieces : option string;
  quantityAvailable : string
}.

Record FormState := {
  values : FormValues;
  autoCalculateQuantity : bool;
  sizeParseError : option string;
  calculationPreview : option string
}.

Definition setQuantityAvailable (q : string) (st : FormState) : FormState :=
  {| values :=
       {| sizeLength := sizeLength (values st);
          sizeHeight := sizeHeight (values st);
          sizeUnit := sizeUnit (values st);
          numberOfPieces := numberOfPieces (values st);
          quantityAvailable := q |};
     autoCalculateQuantity := autoCalculateQuantity st;
     sizeParseError := sizeParseError st;
     calculationPreview := calculationPreview st |}.

Definition setSizeParseError (e : option string) (st : FormState) : FormState :=
  {| values := values st;
     autoCalculateQuantity := autoCalculateQuantity st;
     sizeParseError := e;
     calculationPreview := calculationPreview st |}.

Definition setCalculationPreview (p : option string) (st : FormState)
  : FormState :=
  {| values := values st;
     autoCalculateQuantity := autoCalculateQuantity st;
     sizeParseError := sizeParseError st;
     calculationPreview := p |}.

(** [!v] for a value of type [string | undefined]. *)
Definition falsy (v : option string) : bool :=
  match v with
  | Some (String _ _) => false
  | _ => true
  end.

Definition text (v : option string) : string :=
  match v with Some s => s | None => EmptyString end.

(** The body of the effect from [let calculatedQuantity] to the rounding:
    the quantity before rounding goes into the formula through [toFixed],
    the quantity written to the form is rounded with [Math.round]. *)
Definition calculateQuantity (length height pieces : number) (unit : string)
  : number * string :=
  let '(calculatedQuantity, formula) :=
    if String.eqb unit "in" then
      let q := div (mul (mul length height) pieces) (ofZ 144) in
      (q, "(" ++ toString length ++ " × " ++ toString height ++ " × " ++
          toString pieces ++ ") ÷ 144 = " ++ toFixed q 2 ++ " sqft")
    else
      let q := div (mul (mul length height) pieces) (ofZ 929) in
      (q, "(" ++ toString length ++ " × " ++ toString height ++ " × " ++
          toString pieces ++ ") ÷ 929 = " ++ toFixed q 2 ++ " sqft") in
  (div (round (mul calculatedQuantity (ofZ 100))) (ofZ 100), formula).

(** The effect that runs on every change of the size, unit and piece
    fields and of the auto-calculate switch. *)
Definition quantityEffect (st : FormState) : FormState :=
  if negb (autoCalculateQuantity st) then setCalculationPreview None st
  else
    let sizeLength := sizeLength (values st) in
    let sizeHeight := sizeHeight (values st) in
    let sizeUnit := sizeUnit (values st) in
    let numberOfPieces := numberOfPieces (values st) in
    if falsy sizeLength || falsy sizeHeight || falsy numberOfPieces then
      setCalculationPreview None (setSizeParseError None st)
    else
      let st := setSizeParseError None st in
      let length := parseFloat (text sizeLength) in
      let height := parseFloat (text sizeHeight) in
      let pieces := parseFloat (text numberOfPieces) in
      if isNaN length || isNaN height || isNaN pieces then
        setCalculationPreview None
          (setSizeParseError
             (Some "Please enter valid numbers for size and pieces") st)
      else
        let '(calculatedQuantity, formula) :=
          calculateQuantity length height pieces sizeUnit in
        setCalculationPreview (Some formula)
          (setQuantityAvailable (toString calculatedQuantity) st).

(** A form with the three inputs typed in and auto-calculation on. *)
Definition typed (l h u p q : string) : FormState :=
  {| values :=
       {| sizeLength := Some l; sizeHeight := Some h; sizeUnit := u;
          numberOfPieces := Some p; quantityAvailable := q |};
     autoCalculateQuantity := true;
     sizeParseError := None;
     calculationPreview := None |}.

(** The three inputs of a form state, as the effect parses them. *)
Definition parsedLength (st : FormState) : number :=
  parseFloat (text (sizeLength (values st))).
Definition parsedHeight (st : FormState) : number :=
  parseFloat (text (sizeHeight (values st))).
Definition parsedPieces (st : FormState) : number :=
  parseFloat (text (numberOfPieces (values st))).

End ProductForm.

(** ** The contract of the area calculator, in the words of the
    specification: [area = (length * height * pieceCount) / divisor] for
    positive finite operands, rounded to two decimal places, with a formula
    string that echoes the operands and the divisor.  The contract is read
    on the values of the numbers: the quotient is the exact one and the
    result is the number of two decimal places nearest to it. *)

Module AreaSpec.

Import JS.

Record ProductDimensions := {
  length : number;
  height : number;
  unit : string;
  pieceCount : number
}.

Record AreaResult := { totalArea : number; formula : string }.

Definition divisor (unit : string) : option Z :=
  if String.eqb unit "in" then Some 144
  else if String.eqb unit "cm" then Some 929
  else None.

(** The value of a positive finite number as a fraction; nothing for any
    other number. *)
Definition positiveValue (x : number) : option (Z * Z) :=
  match x with
  | S754_finite false m e => Some (fraction m e)
  | _ => None
  end.

(** [round(n / d, 2)] counted in hundredths, for [0 < d]: the integer
    nearest to [100 * n / d], a half going up. *)
Definition hundredths (n d : Z) : Z := (200 * n + d) / (2 * d).

(** The number with the two decimal places [k / 100]: the double nearest
    to it, as its decimal text reads. *)
Definition ofHundredths (k : Z) : number := ofDecimal false (Z.to_N k) (-2).

Definition computeArea (d : ProductDimensions) : option AreaResult :=
  match divisor (unit d), positiveValue (length d), positiveValue (height d),
        positiveValue (pieceCount d) with
  | Some k, Some (nl, dl), Some (nh, dh), Some (np, dp) =>
      let area := ofHundredths (hundredths (nl * nh * np) (dl * dh * dp * k)) in
      Some {| totalArea := area;
              formula :=
                "(" ++ toString (length d) ++ " × " ++ toString (height d) ++
                " × " ++ toString (pieceCount d) ++ ") ÷ " ++
                decimalString k ++ " = " ++ toFixed area 2 ++ " sqft" |}
  | _, _, _, _ => None
  end.

(** The ProductDimensions a form state stands for. *)
Definition dimensions (st : ProductForm.FormState) : ProductDimensions :=
  {| length := ProductForm.parsedLength st;
     height := ProductForm.parsedHeight st;
     unit := ProductForm.sizeUnit (ProductForm.values st);
     pieceCount := ProductForm.parsedPieces st |}.

End AreaSpec.

(** ** The product detail page: provenance of the quantity (ProductDetail) *)

Module ProductDetail.

Import JS.

(** [s.replace(/\s+/g, "")] *)
Fixpoint removeSpaces (s : string) : string :=
  match s with
  | String c1 r1 =>
      if isSpace c1 then removeSpaces r1
      else
        match r1 with
        | String c2 r2 =>
            if isSpace2 c1 c2 then removeSpaces r2
            else
              match r2 with
              | String c3 r3 =>
                  if isSpace3 c1 c2 c3 then removeSpaces r3
                  else String c1 (removeSpaces r1)
              | EmptyString => String c1 (removeSpaces r1)
              end
        | EmptyString => String c1 EmptyString
        end
  | EmptyString => EmptyString
  end.

(** [\d+(?:\.\d+)?] at the start of [s]: the text matched and the rest. *)
Definition matchDecimal (s : string) : option (string * string) :=
  let '(ip, r) := spanDigits s in
  match ip with
  | EmptyString => None
  | _ =>
      match r with
      | String "." r' =>
          let '(fp, r'') := spanDigits r' in
          match fp with
          | EmptyString => Some (ip, r)
          | _ => Some (ip ++ "." ++ fp, r'')
          end
      | _ => Some (ip, r)
      end
  end.

Definition isSeparator (c : ascii) : bool :=
  (Ascii.eqb c "x" || Ascii.eqb c "*" || Ascii.eqb c "-")%bool.

(** [/^(\d+(?:\.\d+)?)[x*-](\d+(?:\.\d+)?)$/]: the two groups. *)
Definition matchSize (s : string) : option (string * string) :=
  match matchDecimal s with
  | Some (g1, String c r) =>
      if isSeparator c then
        match matchDecimal r with
        | Some (g2, EmptyString) => Some (g1, g2)
        | _ => None
        end
      else None
  | _ => None
  end.

(** [!n] for a number. *)
Definition falsyNumber (n : number) : bool :=
  match n with
  | S754_zero _ | S754_nan => true
  | _ => false
  end.

Definition calculateQuantityFormula (size sizeUnit : string)
  (numberOfPieces : number) : option string :=
  if (String.eqb size "" || falsyNumber numberOfPieces)%bool then None
  else
    match matchSize (removeSpaces size) with
    | None => None
    | Some (g1, g2) =>
        let length := parseFloat g1 in
        let height := parseFloat g2 in
        if String.eqb sizeUnit "inches" then
          let calculatedQuantity :=
            toFixed (div (mul (mul length height) numberOfPieces) (ofZ 144)) 2 in
          Some ("(" ++ toString length ++ " × " ++ toString height ++ " × " ++
                toString numberOfPieces ++ ") ÷ 144 = " ++
                calculatedQuantity ++ " sqft")
        else
          let calculatedQuantity :=
            toFixed (div (mul (mul length height) numberOfPieces) (ofZ 929)) 2 in
          Some ("(" ++ toString length ++ " × " ++ toString height ++ " × " ++
                toString numberOfPieces ++ ") ÷ 929 = " ++
                calculatedQuantity ++ " sqft")
    end.

End ProductDetail.

(** ** Handlers that may throw *)

Inductive completion (A : Type) : Type :=
  | Normal (a : A)
  | Throw (e : string).

Arguments Normal {A} a.
Arguments Throw {A} e.

(** ** A 2D canvas with axis-aligned transforms *)

Module Canvas.

(** The current transformation matrix restricted to what the compositor
    uses: [x' = sx * x + tx], [y' = sy * y + ty]. *)
Record Transform := { sx : Z; sy : Z; tx : Z; ty : Z }.

Definition identity : Transform := {| sx := 1; sy := 1; tx := 0; ty := 0 |}.

(** One [drawImage(img, dx, dy, dw, dh)] under the transform in force. *)
Record Draw := { under : Transform; dx : Z; dy : Z; dw : Z; dh : Z }.

Record t := {
  width : Z;
  height : Z;
  current : Transform;
  saved : list Transform;
  drawn : list Draw
}.

(** [document.createElement("canvas")]: the default 300 x 150 bitmap. *)
Definition create : t :=
  {| width := 300; height := 150; current := identity; saved := [];
     drawn := [] |}.

(** Assigning a dimension clears the bitmap and resets the context. *)
Definition setWidth (w : Z) (c : t) : t :=
  {| width := w; height := height c; current := identity; saved := [];
     drawn := [] |}.

Definition setHeight (h : Z) (c : t) : t :=
  {| width := width c; height := h; current := identity; saved := [];
     drawn := [] |}.

Definition withCurrent (m : Transform) (c : t) : t :=
  {| width := width c; height := height c; current := m; saved := saved c;
     drawn := drawn c |}.

(** [setTransform(a, b, c, d, e, f)]; the compositor passes no shear. *)
Definition setTransform (a b c d e f : Z) (canvas : t) : t :=
  withCurrent {| sx := a; sy := d; tx := e; ty := f |} canvas.

Definition save (c : t) : t :=
  {| width := width c; height := height c; current := current c;
     saved := current c :: saved c; drawn := drawn c |}.

Definition restore (c : t) : t :=
  match saved c with
  | m :: rest =>
      {| width := width c; height := height c; current := m; saved := rest;
         drawn := drawn c |}
  | [] => c
  end.

Definition translate (x y : Z) (c : t) : t :=
  let m := current c in
  withCurrent {| sx := sx m; sy := sy m;
                 tx := tx m + sx m * x; ty := ty m + sy m * y |} c.

Definition scale (a b : Z) (c : t) : t :=
  let m := current c in
  withCurrent {| sx := sx m * a; sy := sy m * b; tx := tx m; ty := ty m |} c.

Definition pushDraw (d : Draw) (c : t) : t :=
  {| width := width c; height := height c; current := current c;
     saved := saved c; drawn := drawn c ++ [d] |}.

Definition drawImage (x y w h : Z) (c : t) : t :=
  pushDraw {| under := current c; dx := x; dy := y; dw := w; dh := h |} c.

(** Where the source pixel [(u, v)] of an unscaled draw lands on the canvas. *)
Definition pixelTo (d : Draw) (u v : Z) : Z * Z :=
  (sx (under d) * (dx d + u) + tx (under d),
   sy (under d) * (dy d + v) + ty (under d)).

(** [for (let i = 0; i < n; i++) body] *)
Fixpoint forLoop (n : nat) (i : Z) (body : Z -> t -> t) (c : t) : t :=
  match n with
  | O => c
  | S k => forLoop k (i + 1) body (body i c)
  end.

End Canvas.

(** ** The product visualizer: bookmatched texture (ProductVisualizer) *)

Module ProductVisualizer.

Import Canvas.

Record State := {
  bookmatchedTextureRef : option string;
  textureReady : bool;
  backgroundSize : string;
  backgroundPosition : string
}.

Definition initial : State :=
  {| bookmatchedTextureRef := None; textureReady := false;
     backgroundSize := "400px 400px"; backgroundPosition := "center" |}.

Definition setTextureReady (b : bool) (st : State) : State :=
  {| bookmatchedTextureRef := bookmatchedTextureRef st; textureReady := b;
     backgroundSize := backgroundSize st;
     backgroundPosition := backgroundPosition st |}.

Definition setTexture (u : string) (st : State) : State :=
  {| bookmatchedTextureRef := Some u; textureReady := textureReady st;
     backgroundSize := backgroundSize st;
     backgroundPosition := backgroundPosition st |}.

Definition setBackgroundSize (s : string) (st : State) : State :=
  {| bookmatchedTextureRef := bookmatchedTextureRef st;
     textureReady := textureReady st;
     backgroundSize := s; backgroundPosition := backgroundPosition st |}.

Definition setBackgroundPosition (s : string) (st : State) : State :=
  {| bookmatchedTextureRef := bookmatchedTextureRef st;
     textureReady := textureReady st;
     backgroundSize := backgroundSize st; backgroundPosition := s |}.

(** [`${n}px`] for a dimension, which is never negative. *)
Definition px (n : Z) : string := JS.decimalString n ++ "px".

(** The body of the inner loop for a nearly square image: the cell in
    column [x] of row [y]. *)
Definition mirroredCell (originalWidth originalHeight y x : Z)
  (canvas : Canvas.t) : Canvas.t :=
  let flipX := x mod 2 =? 1 in
  let flipY := y mod 2 =? 1 in
  let canvas := save canvas in
  let posX := x * originalWidth in
  let posY := y * originalHeight in
  let canvas :=
    translate (posX + (if flipX then originalWidth else 0))
              (posY + (if flipY then originalHeight else 0)) canvas in
  let canvas :=
    scale (if flipX then -1 else 1) (if flipY then -1 else 1) canvas in
  let canvas := drawImage 0 0 originalWidth originalHeight canvas in
  restore canvas.

(** The body of the inner loop for the other images, with its branch on
    the two flips. *)
Definition branchedCell (originalWidth originalHeight y x : Z)
  (canvas : Canvas.t) : Canvas.t :=
  let flipHorizontal := x mod 2 =? 1 in
  let flipVertical := y mod 2 =? 1 in
  let canvas := save canvas in
  let posX := x * originalWidth in
  let posY := y * originalHeight in
  let canvas :=
    if flipHorizontal && flipVertical then
      drawImage 0 0 originalWidth originalHeight
        (scale (-1) (-1)
           (translate (posX + originalWidth) (posY + originalHeight) canvas))
    else if flipHorizontal then
      drawImage 0 0 originalWidth originalHeight
        (scale (-1) 1 (translate (posX + originalWidth) posY canvas))
    else if flipVertical then
      drawImage 0 0 originalWidth originalHeight
        (scale 1 (-1) (translate posX (posY + originalHeight) canvas))
    else drawImage posX posY originalWidth originalHeight canvas in
  restore canvas.

(** The drawing part of [img.onload] for an image of [originalWidth] by
    [originalHeight] pixels: the canvas and the reported tile size. *)
Definition compose (originalWidth originalHeight : Z) : Canvas.t * string :=
  let canvas := Canvas.create in
  let isExactSquare488 := (originalWidth =? 488) && (originalHeight =? 488) in
  let isExactSquare646 := (originalWidth =? 646) && (originalHeight =? 646) in
  let isNearlySquare := Z.abs (originalWidth - originalHeight) <? 20 in
  if isExactSquare488 || isExactSquare646 then
    let canvas := setWidth (originalWidth * 2) canvas in
    let canvas := setHeight (originalHeight * 2) canvas in
    let canvas := setTransform 1 0 0 1 0 0 canvas in
    let canvas := drawImage 0 0 originalWidth originalHeight canvas in
    let canvas :=
      restore (drawImage 0 0 originalWidth originalHeight
        (scale (-1) 1 (translate (width canvas) 0 (save canvas)))) in
    let canvas :=
      restore (drawImage 0 0 originalWidth originalHeight
        (scale 1 (-1) (translate 0 (height canvas) (save canvas)))) in
    let canvas :=
      restore (drawImage 0 0 originalWidth originalHeight
        (scale (-1) (-1)
           (translate (width canvas) (height canvas) (save canvas)))) in
    (canvas, px (originalWidth * 2) ++ " " ++ px (originalHeight * 2))
  else if isNearlySquare then
    let multiplier := 4%nat in
    let canvas := setWidth (originalWidth * Z.of_nat multiplier) canvas in
    let canvas := setHeight (originalHeight * Z.of_nat multiplier) canvas in
    let canvas :=
      forLoop multiplier 0 (fun y =>
        forLoop multiplier 0 (fun x =>
          mirroredCell originalWidth originalHeight y x)) canvas in
    (canvas, px (originalWidth * 2) ++ " " ++ px (originalHeight * 2))
  else
    let gridSize := 4%nat in
    let canvas := setWidth (originalWidth * Z.of_nat gridSize) canvas in
    let canvas := setHeight (originalHeight * Z.of_nat gridSize) canvas in
    let canvas :=
      forLoop gridSize 0 (fun y =>
        forLoop gridSize 0 (fun x =>
          branchedCell originalWidth originalHeight y x)) canvas in
    (canvas, px (originalWidth * 2) ++ " " ++ px (originalHeight * 2)).

(** [encodeURIComponent] on the bytes of a well-formed string: letters,
    digits and [-_.!~*'()] stay, every other byte becomes [%XX]. *)
Definition isUnreserved (c : ascii) : bool :=
  let n := N_of_ascii c in
  (((65 <=? n) && (n <=? 90)) || ((97 <=? n) && (n <=? 122)) ||
   ((48 <=? n) && (n <=? 57)) ||
   existsb (N.eqb n) [45; 95; 46; 33; 126; 42; 39; 40; 41])%N.

Definition hexDigit (n : N) : ascii :=
  if (n <? 10)%N then ascii_of_N (48 + n) else ascii_of_N (55 + n).

Fixpoint encodeURIComponent (s : string) : string :=
  match s with
  | EmptyString => EmptyString
  | String c r =>
      if isUnreserved c then String c (encodeURIComponent r)
      else
        let n := N_of_ascii c in
        String "%" (String (hexDigit (n / 16)) (String (hexDigit (n mod 16))
          (encodeURIComponent r)))
  end.

(** The [src] given to the image element: remote images go through the
    proxy. *)
Definition requestedSrc (imageUrl : string) : string :=
  if JS.startsWith "http" imageUrl then
    "/api/proxy-image?url=" ++ encodeURIComponent imageUrl
  else imageUrl.

(** The sizes that get the 2 x 2 treatment. *)
Definition isKnownSquare (w h : Z) : bool :=
  (w =? 488) && (h =? 488) || (w =? 646) && (h =? 646).

(** A canvas of [2w] by [2h] with four draws of the source: as it is, and
    mirrored on the vertical axis, on the horizontal axis and on both, in
    the top-left, top-right, bottom-left and bottom-right quadrant. *)
Definition quadrants (w h : Z) (c : Canvas.t) : Prop :=
  width c = 2 * w /\ height c = 2 * h /\
  exists d0 d1 d2 d3,
    drawn c = [d0; d1; d2; d3] /\
    Forall (fun d => dw d = w /\ dh d = h) [d0; d1; d2; d3] /\
    forall u v,
      pixelTo d0 u v = (u, v) /\
      pixelTo d1 u v = (2 * w - u, v) /\
      pixelTo d2 u v = (u, 2 * h - v) /\
      pixelTo d3 u v = (2 * w - u, 2 * h - v).

(** A canvas of [4w] by [4h] with sixteen draws of the source, row by row;
    the cell in column [x] and row [y] is mirrored left to right exactly
    when [x] is odd and top to bottom exactly when [y] is odd. *)
Definition alternatingGrid (w h : Z) (c : Canvas.t) : Prop :=
  width c = 4 * w /\ height c = 4 * h /\
  List.length (drawn c) = 16%nat /\
  forall x y : nat, (x < 4)%nat -> (y < 4)%nat ->
    exists d,
      nth_error (drawn c) (4 * y + x)%nat = Some d /\
      dw d = w /\ dh d = h /\
      forall u v,
        pixelTo d u v =
        (Z.of_nat x * w + (if Nat.odd x then w - u else u),
         Z.of_nat y * h + (if Nat.odd y then h - v else v)).

Section Browser.

(** [canvas.toDataURL("image/png")]: the encoder is the browser's. *)
Variable toDataURL : Canvas.t -> string.

(** [canvas.getContext("2d")] gives a context or null. *)
Variable contextAvailable : bool.

Definition onload (w h : Z) (st : State) : completion State :=
  if negb contextAvailable then Normal st
  else
    let '(canvas, size) := compose w h in
    let st := setBackgroundPosition "center" (setBackgroundSize size st) in
    Normal (setTextureReady true (setTexture (toDataURL canvas) st)).

Definition onerror (imageUrl : string) (st : State) : completion State :=
  Normal (setTextureReady true (setTexture imageUrl st)).

(** What the browser reports for the image element. *)
Inductive LoadEvent := Loaded (w h : Z) | Failed.

(** [if (bookmatchedTextureRef.current)] *)
Definition hasTexture (st : State) : bool :=
  match bookmatchedTextureRef st with
  | Some (String _ _) => true
  | _ => false
  end.

(** [createBookmatchedTexture(imageUrl)] followed by the event of the image
    it started loading, when it started one. *)
Definition createBookmatchedTexture (imageUrl : string) (ev : LoadEvent)
  (st : State) : completion State :=
  if hasTexture st then Normal (setTextureReady true st)
  else
    match ev with
    | Loaded w h => onload w h st
    | Failed => onerror imageUrl st
    end.

End Browser.

End ProductVisualizer.

(** ** QR codes: payload, encoder options and the printed card *)

Module QR.

Import JS.

(** [window.location], as far as the pages read it. *)
Record Location := { protocol : string; host : string; origin : string }.

(** [None] stands for [typeof window === "undefined"]. *)
Definition Window := option Location.

Record Color := { dark : string; light : string }.

(** The options object handed to [QRCode.toDataURL]; a property the call
    does not write is [None]. *)
Record Options := {
  width : Z;
  margin : Z;
  color : Color;
  errorCorrectionLevel : option string
}.

Definition blackOnWhite : Color := {| dark := "#000000"; light := "#ffffff" |}.

(** *** components/QRCodeGenerator.tsx *)
Module Generator.

Definition baseUrl (w : Window) : string :=
  match w with
  | Some loc => protocol loc ++ "//" ++ host loc
  | None => "https://evershine-agent.vercel.app"
  end.

Definition productUrl (w : Window) (productId : string) : string :=
  baseUrl w ++ "/product/" ++ productId.

Definition options : Options :=
  {| width := 200; margin := 1; color := blackOnWhite;
     errorCorrectionLevel := None |}.

End Generator.

(** The click handlers read [window.location.origin] with no guard. *)
Definition originUrl (w : Window) (postId : string) : completion string :=
  match w with
  | Some loc => Normal (origin loc ++ "/product/" ++ postId)
  | None => Throw "ReferenceError: window is not defined"
  end.

(** *** all-qr page: generateAndDownloadQR *)
Module AllQR.
Definition productUrl := originUrl.
Definition options : Options :=
  {| width := 200; margin := 1; color := blackOnWhite;
     errorCorrectionLevel := None |}.
End AllQR.

(** *** ProductForm.generateQRCode *)
Module Form.
Definition url := originUrl.
Definition options : Options :=
  {| width := 200; margin := 2; color := blackOnWhite;
     errorCorrectionLevel := None |}.
End Form.

(** *** product detail page: generateAndDownloadQR and downloadSimpleQRCode *)
Module Detail.
Definition productUrl := originUrl.
Definition options : Options :=
  {| width := 200; margin := 1; color := blackOnWhite;
     errorCorrectionLevel := None |}.
Definition simpleOptions : Options :=
  {| width := 300; margin := 1; color := blackOnWhite;
     errorCorrectionLevel := None |}.
End Detail.

(** Every call of [QRCode.toDataURL] in the program. *)
Definition callSites : list (string * Options) :=
  [ ("QRCodeGenerator.generateQRCode", Generator.options);
    ("AllQR.generateAndDownloadQR", AllQR.options);
    ("ProductForm.generateQRCode", Form.options);
    ("ProductDetail.generateAndDownloadQR", Detail.options);
    ("ProductDetail.downloadSimpleQRCode", Detail.simpleOptions) ].

(** *** The product name under the code *)

(** What [toUpperCase] and [toLowerCase] do to a character of ASCII: the
    letters [a] to [z] and [A] to [Z] change case, every other character
    stays. *)
Definition toUpper (c : ascii) : ascii :=
  let n := N_of_ascii c in
  if ((97 <=? n) && (n <=? 122))%N then ascii_of_N (n - 32) else c.

Definition toLower (c : ascii) : ascii :=
  let n := N_of_ascii c in
  if ((65 <=? n) && (n <=? 90))%N then ascii_of_N (n + 32) else c.

Fixpoint mapString (f : ascii -> ascii) (s : string) : string :=
  match s with
  | String c r => String (f c) (mapString f r)
  | EmptyString => EmptyString
  end.

(** [s.split(" ")]: never empty, an empty piece between two spaces. *)
Fixpoint split (s : string) : list string :=
  match s with
  | EmptyString => [EmptyString]
  | String c r =>
      if Ascii.eqb c " " then EmptyString :: split r
      else
        match split r with
        | w :: ws => String c w :: ws
        | [] => [String c EmptyString]
        end
  end.

(** [ws.join(" ")] *)
Fixpoint join (ws : list string) : string :=
  match ws with
  | [] => EmptyString
  | [w] => w
  | w :: rest => w ++ " " ++ join rest
  end.

(** [word.charAt(0).toUpperCase() + word.slice(1).toLowerCase()] for a word
    of ASCII. *)
Definition capitalizeASCII (word : string) : string :=
  match word with
  | String c r => String (toUpper c) (mapString toLower r)
  | EmptyString => EmptyString
  end.

Section Engine.

(** The same expression for a word with a character outside ASCII: there
    the case mapping is that of the engine's Unicode tables, which can
    also change the length of the word. *)
Variable capitalizeUnicode : string -> string.

(** [word.charAt(0).toUpperCase() + word.slice(1).toLowerCase()] *)
Definition capitalize (word : string) : string :=
  if JS.isASCII word then capitalizeASCII word else capitalizeUnicode word.

Definition capitalizedName (productName : string) : string :=
  join (map capitalize (split productName)).

End Engine.

Definition maxWidth : Z := 150.
Definition maxLines : Z := 3.
Definition qrCodeCenterX : Z := 380 + 75.
Definition textY : Z := 810.

(** One [ctx.fillText(text, x, y)]. *)
Record Text := { content : string; atX : Z; atY : Z }.

Record Layout := {
  line : string;
  y : Z;
  lineCount : Z;
  texts : list Text
}.

Definition fillText (s : string) (px py : Z) (l : Layout) : Layout :=
  {| line := line l; y := y l; lineCount := lineCount l;
     texts := texts l ++ [{| content := s; atX := px; atY := py |}] |}.

(** The centre line and the three heights at which the card has room for
    the name. *)
Definition onCard (t : Text) : Prop :=
  atX t = 455 /\ (atY t = 810 \/ atY t = 830 \/ atY t = 850).

Section Wrap.

(** The engine's capitalisation of a word with a character outside
    ASCII. *)
Variable capitalizeUnicode : string -> string.

(** [ctx.measureText(s).width] under the font in force. *)
Variable measureText : string -> number.

(** The [for] loop over [words], from index [i] on; [n] is [words.length]
    and [rest] the words from [i]. *)
Fixpoint wrapLoop (n : Z) (rest : list string) (i : Z) (l : Layout) : Layout :=
  match rest with
  | [] => l
  | word :: rest' =>
      if (maxLines - 1 <=? lineCount l) && (i <? n - 1) then
        fillText (line l ++ "...") qrCodeCenterX (y l) l
      else
        let testLine := line l ++ word ++ " " in
        let testWidth := measureText testLine in
        if gtb testWidth (ofZ maxWidth) && (0 <? i) then
          let l := fillText (line l) qrCodeCenterX (y l) l in
          wrapLoop n rest' (i + 1)
            {| line := word ++ " "; y := y l + 20;
               lineCount := lineCount l + 1; texts := texts l |}
        else
          wrapLoop n rest' (i + 1)
            {| line := testLine; y := y l; lineCount := lineCount l;
               texts := texts l |}
  end.

(** The text drawn for a product name, in drawing order. *)
Definition drawName (productName : string) : list Text :=
  let words := split (capitalizedName capitalizeUnicode productName) in
  let l :=
    wrapLoop (Z.of_nat (List.length words)) words 0
      {| line := ""; y := textY; lineCount := 0; texts := [] |} in
  let l :=
    if lineCount l <? maxLines then fillText (line l) qrCodeCenterX (y l) l
    else l in
  texts l.

(** Greedy wrapping with no limit on the number of lines: a word goes on
    the current line unless the line would then measure more than
    [maxWidth]. *)
Fixpoint greedyLines (cur : string) (first : bool) (words : list string)
  : list string :=
  match words with
  | [] => [cur]
  | word :: rest =>
      if gtb (measureText (cur ++ word ++ " ")) (ofZ maxWidth) && negb first
      then cur :: greedyLines (word ++ " ") false rest
      else greedyLines (cur ++ word ++ " ") false rest
  end.

End Wrap.

(** A fixed-pitch font, ten pixels to the byte. *)
Definition tenPerByte (s : string) : number :=
  ofZ (10 * Z.of_nat (String.length s)).

End QR.

(** ** The product form: the image list *)

Module Images.

Record File := { name : string; type : string; size : Z }.

Inductive Mode := create | edit.

(** [mode] and [initialData?.image] of the component's properties. *)
Record Props := { mode : Mode; initialImage : option (list string) }.

Inductive MessageType := error | success.

Record MessageState := { text : string; kind : MessageType }.

Record State := {
  images : list File;
  previews : list string;
  message : option MessageState;
  newImageCount : Z
}.

Definition MAX_FILE_SIZE : Z := 5 * 1024 * 1024.

Definition ACCEPTED_IMAGE_TYPES : list string :=
  ["image/jpeg"; "image/jpg"; "image/png"; "image/webp"].

Definition includes (x : string) (l : list string) : bool :=
  existsb (String.eqb x) l.

Definition setMessage (m : MessageState) (st : State) : State :=
  {| images := images st; previews := previews st; message := Some m;
     newImageCount := newImageCount st |}.

(** [validateImage]: the verdict, and the message it leaves behind. *)
Definition validateImage (file : File) (st : State) : bool * State :=
  if negb (includes (type file) ACCEPTED_IMAGE_TYPES) then
    (false,
     setMessage
       {| text := "Invalid file type. Only JPG, PNG and WebP are allowed";
          kind := error |} st)
  else if MAX_FILE_SIZE <? size file then
    (false,
     setMessage
       {| text := "File size too large. Maximum size is 5MB"; kind := error |}
       st)
  else (true, st).

(** [fileArray.filter(validateImage)] *)
Fixpoint filterValid (files : list File) (st : State) : list File * State :=
  match files with
  | [] => ([], st)
  | f :: rest =>
      let '(ok, st) := validateImage f st in
      let '(valid, st) := filterValid rest st in
      (if ok then f :: valid else valid, st)
  end.

(** [URL.createObjectURL(file)]: a fresh blob URL, named after the file. *)
Definition createObjectURL (file : File) : string := "blob:" ++ name file.

(** [a.splice(index, 1)] on a copy, for an index that is not negative. *)
Fixpoint splice {A : Type} (index : nat) (a : list A) : list A :=
  match a, index with
  | [], _ => []
  | _ :: rest, O => rest
  | x :: rest, S k => x :: splice k rest
  end.

(** The state after mounting: in edit mode the previews are the images
    already on the server. *)
Definition init (p : Props) : State :=
  {| images := [];
     previews :=
       match mode p, initialImage p with
       | edit, Some image => image
       | _, _ => []
       end;
     message := None;
     newImageCount := 0 |}.

(** [e.target.files] is a list of files or null. *)
Definition handleImageChange (files : option (list File)) (st : State)
  : State :=
  match files with
  | None => st
  | Some fileArray =>
      let totalImagesAfterAddition :=
        (List.length (images st) + List.length fileArray)%nat in
      if (10 <? totalImagesAfterAddition)%nat then
        setMessage
          {| text := "You can only upload up to 10 images in total";
             kind := error |} st
      else
        let '(validFiles, st) := filterValid fileArray st in
        if negb (List.length validFiles =? List.length fileArray)%nat then st
        else
          let newPreviews := map createObjectURL validFiles in
          {| images := images st ++ validFiles;
             previews := previews st ++ newPreviews;
             message := message st;
             newImageCount := newImageCount st + Z.of_nat (List.length validFiles) |}
  end.

(** [initialData?.image.length || 0] *)
Definition initialCount (p : Props) : nat :=
  match initialImage p with
  | Some image => List.length image
  | None => O
  end.

Definition isEdit (p : Props) : bool :=
  match mode p with edit => true | create => false end.

Definition removeImage (p : Props) (index : nat) (st : State) : State :=
  if isEdit p && (index <? initialCount p)%nat then
    {| images := images st; previews := splice index (previews st);
       message := message st; newImageCount := newImageCount st |}
  else
    let adjustedIndex :=
      if isEdit p then (index - initialCount p)%nat else index in
    {| images := splice adjustedIndex (images st);
       previews := splice index (previews st);
       message := message st;
       newImageCount := newImageCount st - 1 |}.

(** The states a user can bring the form to.  The remove button exists
    only for a preview on screen. *)
Inductive reachable (p : Props) : State -> Prop :=
  | reach_init : reachable p (init p)
  | reach_add files st :
      reachable p st -> reachable p (handleImageChange files st)
  | reach_remove index st :
      reachable p st -> (index < List.length (previews st))%nat ->
      reachable p (removeImage p index st).

(** An edit session on a product with eight images on the server, and a
    selection of five small PNG files. *)
Definition eightOnServer : Props :=
  {| mode := edit;
     initialImage :=
       Some ["https://cdn/1.png"; "https://cdn/2.png"; "https://cdn/3.png";
             "https://cdn/4.png"; "https://cdn/5.png"; "https://cdn/6.png";
             "https://cdn/7.png"; "https://cdn/8.png"] |}.

Definition png (n : string) : File :=
  {| name := n; type := "image/png"; size := 1024 |}.

Definition fiveFiles : list File :=
  [png "a.png"; png "b.png"; png "c.png"; png "d.png"; png "e.png"].

End Images.

(** ** Text helpers shared by the pages *)

Module Text.

Import JS.

Section Engine.

(** [s.toLowerCase()] for a text with a character outside ASCII: there the
    case mapping is that of the engine's Unicode tables. *)
Variable lowerCaseUnicode : string -> string.

(** [s.toLowerCase()]: in a text of ASCII the capital letters become small
    ones and nothing else changes. *)
Definition toLowerCase (s : string) : string :=
  if isASCII s then QR.mapString QR.toLower s else lowerCaseUnicode s.

End Engine.

(** [s.split(re)] for a pattern that matches one character of a class. *)
Fixpoint splitBy (sep : ascii -> bool) (s : string) : list string :=
  match s with
  | EmptyString => [EmptyString]
  | String c r =>
      if sep c then EmptyString :: splitBy sep r
      else
        match splitBy sep r with
        | w :: ws => String c w :: ws
        | [] => [String c EmptyString]
        end
  end.

(** [s.split(",")] and the like. *)
Definition splitOn (sep : ascii) (s : string) : list string :=
  splitBy (Ascii.eqb sep) s.

(** [ws.join(sep)] *)
Fixpoint joinWith (sep : string) (ws : list string) : string :=
  match ws with
  | [] => EmptyString
  | [w] => w
  | w :: rest => w ++ sep ++ joinWith sep rest
  end.

(** [s.trimEnd()]: the text up to the white space it ends with, which
    starts where nothing but white space follows. *)
Fixpoint trimEnd (s : string) : string :=
  match s with
  | EmptyString => EmptyString
  | String c r =>
      match trimStart s with
      | EmptyString => EmptyString
      | _ => String c (trimEnd r)
      end
  end.

(** [s.trim()] *)
Definition trim (s : string) : string := trimEnd (trimStart s).

(** [hay.includes(needle)] *)
Fixpoint includes (needle hay : string) : bool :=
  String.prefix needle hay ||
  match hay with
  | String _ r => includes needle r
  | EmptyString => false
  end.

(** Every character of [s] passes [p]. *)
Fixpoint all (p : ascii -> bool) (s : string) : bool :=
  match s with
  | EmptyString => true
  | String c r => p c && all p r
  end.

(** [!!s] for a string that may be undefined. *)
Definition truthy (v : option string) : bool :=
  match v with
  | Some (String _ _) => true
  | _ => false
  end.

End Text.

(** ** The product form: size text, finishes and the values an edit
    session starts from *)

Module FormText.

Import JS.

Record Size := { length : number; height : number }.

Section Engine.

(** The engine's [toLowerCase] on text with a character outside ASCII. *)
Variable lowerCaseUnicode : string -> string.

Definition parseSizeString (sizeStr : string) : option Size :=
  let cleanedStr :=
    Text.toLowerCase lowerCaseUnicode (ProductDetail.removeSpaces sizeStr) in
  match ProductDetail.matchSize cleanedStr with
  | Some (g1, g2) =>
      Some {| length := parseFloat g1; height := parseFloat g2 |}
  | None => None
  end.

Definition parseFinishes (finishesStr : option string) : list string :=
  match finishesStr with
  | Some (String c r) =>
      map (fun f => Text.toLowerCase lowerCaseUnicode (Text.trim f))
          (Text.splitOn "," (String c r))
  | _ => []
  end.

End Engine.

(** What the change handlers of the length and height inputs write to the
    hidden [size] field. *)
Definition composeSize (length height : string) : string :=
  match length, height with
  | String _ _, String _ _ => length ++ "x" ++ height
  | _, _ => EmptyString
  end.

(** [/[x*-]/] *)
Definition isSeparator : ascii -> bool := ProductDetail.isSeparator.

(** The part of [initialData] the size and quantity fields start from. *)
Record InitialData := {
  quantityAvailable : string;
  size : option string;
  sizeUnit : option string;
  numberOfPieces : option string;
  finishes : option string;
  applicationAreas : string
}.

(** [v || d] for a string that may be undefined. *)
Definition orElse (v : option string) (d : string) : string :=
  match v with
  | Some (String c r) => String c r
  | _ => d
  end.

(** The [defaultValues] of [useForm], as far as the calculation reads
    them; [None] is no [initialData]. *)
Definition defaultValues (initialData : option InitialData)
  : ProductForm.FormValues :=
  match initialData with
  | None =>
      {| ProductForm.sizeLength := Some "";
         ProductForm.sizeHeight := Some "";
         ProductForm.sizeUnit := "in";
         ProductForm.numberOfPieces := Some "";
         ProductForm.quantityAvailable := "" |}
  | Some d =>
      {| ProductForm.sizeLength :=
           if Text.truthy (size d)
           then nth_error (Text.splitBy isSeparator (ProductForm.text (size d))) 0
           else Some "";
         ProductForm.sizeHeight :=
           if Text.truthy (size d)
           then nth_error (Text.splitBy isSeparator (ProductForm.text (size d))) 1
           else Some "";
         ProductForm.sizeUnit := orElse (sizeUnit d) "in";
         ProductForm.numberOfPieces := Some (orElse (numberOfPieces d) "");
         ProductForm.quantityAvailable := orElse (Some (quantityAvailable d)) "" |}
  end.

(** The state the form mounts with. *)
Definition mount (initialData : option InitialData) : ProductForm.FormState :=
  {| ProductForm.values := defaultValues initialData;
     ProductForm.autoCalculateQuantity := true;
     ProductForm.sizeParseError := None;
     ProductForm.calculationPreview := None |}.

(** [values.finishes ? values.finishes.join(",") : ""] and
    [values.applicationAreas.join(",")] of [handleSubmit]. *)
Definition submittedList (items : list string) : string :=
  Text.joinWith "," items.

(** The finishes the buttons of the form can put in the list. *)
Definition FINISHES (lowerCaseUnicode : string -> string) : list string :=
  map (Text.toLowerCase lowerCaseUnicode)
      ["Polish"; "Leather"; "Flute"; "River"; "Satin"; "Dual"].

(** A length or height that the separators of the size text leave whole. *)
Definition separatorFree (s : string) : bool :=
  negb (String.eqb s "") && Text.all (fun c => negb (isSeparator c)) s.

(** A list entry that survives [join(",")] and the parsing back: not
    empty, no comma, left as it is by [trim] and by [toLowerCase]. *)
Definition isListToken (lowerCaseUnicode : string -> string) (f : string)
  : bool :=
  negb (String.eqb f "") &&
  Text.all (fun c => negb (Ascii.eqb "," c)) f &&
  String.eqb (Text.trim f) f &&
  String.eqb (Text.toLowerCase lowerCaseUnicode f) f.

(** [digits] or [digits.digits] and nothing else: what [\d+(?:\.\d+)?]
    matches in full. *)
Definition isPlainDecimal (s : string) : bool :=
  match ProductDetail.matchDecimal s with
  | Some (_, EmptyString) => true
  | _ => false
  end.

End FormText.

(** ** The product detail page: application areas and the image gallery *)

Module DetailPage.

(** [product.applicationAreas]: a string, an array, or nothing at all. *)
Inductive Areas :=
  | NoAreas
  | AreasText (s : string)
  | AreasList (l : list string).

Definition getApplicationAreas (applicationAreas : Areas) : list string :=
  match applicationAreas with
  | NoAreas => []
  | AreasText EmptyString => []
  | AreasText s =>
      map Text.trim
        (filter (fun area => negb (String.eqb area "")) (Text.splitOn "," s))
  | AreasList l => l
  end.

(** What the application area buttons of the form can put in the list. *)
Definition APPLICATION_AREAS : list string :=
  ["Flooring"; "Countertops"; "Walls"; "Exterior"; "Interior"].

(** A list entry that survives [join(",")] and [getApplicationAreas]: not
    empty, no comma, left as it is by [trim]. *)
Definition isAreaToken (a : string) : bool :=
  negb (String.eqb a "") &&
  Text.all (fun c => negb (Ascii.eqb "," c)) a &&
  String.eqb (Text.trim a) a.

(** An image index of the gallery: an integer, or NaN once the remainder
    by a length of zero has been taken. *)
Inductive Index :=
  | NotANumber
  | At (i : Z).

Record Gallery := { currentImageIndex : Index; selectedThumbnail : Index }.

Definition initialGallery : Gallery :=
  {| currentImageIndex := At 0; selectedThumbnail := At 0 |}.

Definition handleThumbnailClick (index : nat) (g : Gallery) : Gallery :=
  {| currentImageIndex := At (Z.of_nat index);
     selectedThumbnail := At (Z.of_nat index) |}.

(** [(prev + 1) % n] *)
Definition nextIndex (n : nat) (prev : Index) : Index :=
  match prev with
  | NotANumber => NotANumber
  | At i => if (n =? 0)%nat then NotANumber else At (Z.rem (i + 1) (Z.of_nat n))
  end.

(** [prev === 0 ? n - 1 : prev - 1] *)
Definition previousIndex (n : nat) (prev : Index) : Index :=
  match prev with
  | NotANumber => NotANumber
  | At 0 => At (Z.of_nat n - 1)
  | At i => At (i - 1)
  end.

(** [product] is null until the product has loaded; [image] is its list of
    image addresses. *)
Definition nextImage (product : option (list string)) (g : Gallery) : Gallery :=
  match product with
  | None => g
  | Some image =>
      {| currentImageIndex := nextIndex (List.length image) (currentImageIndex g);
         selectedThumbnail := nextIndex (List.length image) (selectedThumbnail g) |}
  end.

Definition previousImage (product : option (list string)) (g : Gallery)
  : Gallery :=
  match product with
  | None => g
  | Some image =>
      {| currentImageIndex :=
           previousIndex (List.length image) (currentImageIndex g);
         selectedThumbnail :=
           previousIndex (List.length image) (selectedThumbnail g) |}
  end.

(** The states the arrows and the thumbnails lead to; there is a thumbnail
    for each image and for nothing else. *)
Inductive shown (image : list string) : Gallery -> Prop :=
  | shown_first : shown image initialGallery
  | shown_thumbnail index g :
      shown image g -> (index < List.length image)%nat ->
      shown image (handleThumbnailClick index g)
  | shown_next g : shown image g -> shown image (nextImage (Some image) g)
  | shown_previous g :
      shown image g -> shown image (previousImage (Some image) g).

End DetailPage.

(** ** The feeder session: browser storage, login, logout, route guard *)

Module FeederAuth.

(** [localStorage]: keys with their values. *)
Definition Storage := list (string * string).

(** [None] stands for [typeof window === "undefined"]. *)
Definition Window := option Storage.

Fixpoint getItem (key : string) (s : Storage) : option string :=
  match s with
  | [] => None
  | (k, v) :: rest => if String.eqb k key then Some v else getItem key rest
  end.

Fixpoint setItem (key value : string) (s : Storage) : Storage :=
  match s with
  | [] => [(key, value)]
  | (k, v) :: rest =>
      if String.eqb k key then (k, value) :: rest
      else (k, v) :: setItem key value rest
  end.

Definition removeItem (key : string) (s : Storage) : Storage :=
  filter (fun kv => negb (String.eqb (fst kv) key)) s.

Definition isFeederAuthenticated (w : Window) : bool :=
  match w with
  | None => false
  | Some localStorage =>
      let isAuthenticated := getItem "isFeederAuthenticated" localStorage in
      let token := getItem "feederToken" localStorage in
      match isAuthenticated with
      | Some v => String.eqb v "true" && Text.truthy token
      | None => false
      end
  end.

Definition logoutFeeder (w : Window) : Window :=
  match w with
  | None => None
  | Some localStorage =>
      Some (removeItem "feederName"
             (removeItem "feederRefreshToken"
               (removeItem "feederToken"
                 (removeItem "isFeederAuthenticated" localStorage))))
  end.

(** [response.data] of a successful login. *)
Record LoginData := {
  feederName : string;
  accessToken : string;
  refreshToken : string
}.

(** What the login page stores when the login succeeded. *)
Definition storeLogin (w : Window) (data : option LoginData) : Window :=
  match w, data with
  | Some localStorage, Some d =>
      Some (setItem "feederName" (feederName d)
             (setItem "feederRefreshToken" (refreshToken d)
               (setItem "feederToken" (accessToken d)
                 (setItem "isFeederAuthenticated" "true" localStorage))))
  | _, _ => w
  end.

(** *** components/ProtectedRoute.tsx *)

Record RouteState := { isLoading : bool; isAuthenticated : bool }.

Definition initialRoute : RouteState :=
  {| isLoading := true; isAuthenticated := false |}.

(** The effect run on mount: the new state and the pages pushed on the
    router. *)
Definition mountEffect (w : Window) (st : RouteState)
  : RouteState * list string :=
  let authenticated := isFeederAuthenticated w in
  let st := {| isLoading := isLoading st; isAuthenticated := authenticated |} in
  if negb authenticated then (st, ["/login"])
  else ({| isLoading := false; isAuthenticated := isAuthenticated st |}, []).

Inductive View := Spinner | Children | Nothing.

Definition render (st : RouteState) : View :=
  if isLoading st then Spinner
  else if isAuthenticated st then Children else Nothing.

End FeederAuth.

(** ** The image proxy route *)

Module ProxyImage.

Definition isHexDigit (c : ascii) : bool :=
  let n := N_of_ascii c in
  (((48 <=? n) && (n <=? 57)) || ((65 <=? n) && (n <=? 70)) ||
   ((97 <=? n) && (n <=? 102)))%N.

Definition hexValue (c : ascii) : N :=
  let n := N_of_ascii c in
  (if n <=? 57 then n - 48 else if n <=? 70 then n - 55 else n - 87)%N.

(** Percent-decoding of the URL standard: [%XX] becomes a byte, a [%] not
    followed by two hexadecimal digits stays. *)
Fixpoint percentDecode (s : string) : string :=
  match s with
  | EmptyString => EmptyString
  | String c t =>
      if Ascii.eqb c "%" then
        match t with
        | String a (String b r) =>
            if isHexDigit a && isHexDigit b then
              String (ascii_of_N (hexValue a * 16 + hexValue b))
                     (percentDecode r)
            else String c (percentDecode t)
        | _ => String c (percentDecode t)
        end
      else String c (percentDecode t)
  end.

Definition plusToSpace (s : string) : string :=
  QR.mapString (fun c => if Ascii.eqb c "+" then " "%char else c) s.

(** The text before the first [sep] and the text after it. *)
Fixpoint splitFirst (sep : ascii) (s : string) : string * string :=
  match s with
  | EmptyString => (EmptyString, EmptyString)
  | String c r =>
      if Ascii.eqb c sep then (EmptyString, r)
      else let '(n, v) := splitFirst sep r in (String c n, v)
  end.

(** The name-value pairs of a query, as [URLSearchParams] reads them. *)
Definition parsePairs (query : string) : list (string * string) :=
  map (fun seq =>
         let '(n, v) := splitFirst "=" seq in
         (percentDecode (plusToSpace n), percentDecode (plusToSpace v)))
      (filter (fun seq => negb (String.eqb seq "")) (Text.splitOn "&" query)).

(** [searchParams.get(name)] *)
Fixpoint get (name : string) (pairs : list (string * string)) : option string :=
  match pairs with
  | [] => None
  | (n, v) :: rest => if String.eqb n name then Some v else get name rest
  end.

(** The bytes the URL parser escapes in the query of an http address. *)
Definition inQueryEncodeSet (c : ascii) : bool :=
  let n := N_of_ascii c in
  ((n <=? 32) || (127 <=? n) ||
   existsb (N.eqb n) [34; 35; 60; 62; 39])%N.

Fixpoint queryEncode (s : string) : string :=
  match s with
  | EmptyString => EmptyString
  | String c r =>
      if inQueryEncodeSet c then
        let n := N_of_ascii c in
        String "%" (String (ProductVisualizer.hexDigit (n / 16))
          (String (ProductVisualizer.hexDigit (n mod 16)) (queryEncode r)))
      else String c (queryEncode r)
  end.

(** The text up to the first [c]. *)
Fixpoint upTo (c : ascii) (s : string) : string :=
  match s with
  | EmptyString => EmptyString
  | String x r => if Ascii.eqb x c then EmptyString else String x (upTo c r)
  end.

(** The text after the first [c], when there is one. *)
Fixpoint afterFirst (c : ascii) (s : string) : option string :=
  match s with
  | EmptyString => None
  | String x r => if Ascii.eqb x c then Some r else afterFirst c r
  end.

(** The query of an address as the server's [new URL(request.url)] holds
    it: what stands between the first [?] and the fragment, escaped. *)
Definition searchOf (url : string) : string :=
  match afterFirst "?" (upTo "#" url) with
  | Some q => queryEncode q
  | None => EmptyString
  end.

Inductive Body :=
  | Placeholder
  | Blob (bytes : string).

Record Response := {
  status : Z;
  body : Body;
  headers : list (string * string)
}.

(** What [fetch(url)] came to: it threw, or it answered with [ok], a
    Content-Type header and a body that could be read or not. *)
Inductive Upstream :=
  | Threw
  | Answered (ok : bool) (contentType : option string) (blob : option string).

Definition placeholder : Response :=
  {| status := 200;
     body := Placeholder;
     headers := [("Content-Type", "image/svg+xml");
                 ("Cache-Control", "public, max-age=86400");
                 ("Access-Control-Allow-Origin", "*")] |}.

Section Route.

Variable fetch : string -> Upstream.

(** The part of [GET] after the [url] parameter has been read. *)
Definition respond (url : string) : Response :=
  match fetch url with
  | Answered true contentType (Some blob) =>
      {| status := 200;
         body := Blob blob;
         headers := [("Content-Type", FormText.orElse contentType "image/jpeg");
                     ("Cache-Control", "public, max-age=86400");
                     ("Access-Control-Allow-Origin", "*")] |}
  | _ => placeholder
  end.

Definition GET (requestUrl : string) : Response :=
  match get "url" (parsePairs (searchOf requestUrl)) with
  | Some (String c r) => respond (String c r)
  | _ => placeholder
  end.

End Route.

(** The address the visualizer requests for a remote image. *)
Definition proxied (imageUrl : string) : string :=
  "/api/proxy-image?url=" ++ ProductVisualizer.encodeURIComponent imageUrl.

End ProxyImage.

(** ** The product list with prices (all-qr page) *)

Module PriceList.

Import JS.

(** *** Number(string) *)

Fixpoint radixValueAcc (radix : N) (acc : N) (s : string) : N :=
  match s with
  | EmptyString => acc
  | String c r =>
      radixValueAcc radix (acc * radix + ProxyImage.hexValue c)%N r
  end.

(** A digit of the radix 2, 8 or 16. *)
Definition isRadixDigit (radix : N) (c : ascii) : bool :=
  ProxyImage.isHexDigit c && (ProxyImage.hexValue c <? radix)%N.

(** The radix a [0x], [0o] or [0b] prefix announces. *)
Definition radixOf (p : ascii) : option N :=
  if (Ascii.eqb p "x" || Ascii.eqb p "X")%bool then Some 16%N
  else if (Ascii.eqb p "o" || Ascii.eqb p "O")%bool then Some 8%N
  else if (Ascii.eqb p "b" || Ascii.eqb p "B")%bool then Some 2%N
  else None.

(** A signed decimal literal that takes up the whole text, or NaN. *)
Definition decimalLiteral (t : string) : number :=
  let '(neg, body) :=
    match t with
    | String "-" r => (true, r)
    | String "+" r => (false, r)
    | _ => (false, t)
    end in
  if String.eqb body "Infinity" then S754_infinity neg
  else
    let '(ip, r1) := spanDigits body in
    let '(fp, r2) :=
      match r1 with
      | String "." r => spanDigits r
      | _ => (EmptyString, r1)
      end in
    match ip, fp with
    | EmptyString, EmptyString => NaN
    | _, _ =>
        match r2 with
        | EmptyString =>
            ofDecimal neg (digitsValue (ip ++ fp))
                      (- Z.of_nat (String.length fp))
        | String e r3 =>
            if (Ascii.eqb e "e" || Ascii.eqb e "E")%bool then
              let '(eneg, r4) :=
                match r3 with
                | String "-" r => (true, r)
                | String "+" r => (false, r)
                | _ => (false, r3)
                end in
              match spanDigits r4 with
              | (String d ds, EmptyString) =>
                  let x := Z.of_N (digitsValue (String d ds)) in
                  ofDecimal neg (digitsValue (ip ++ fp))
                            ((if eneg then - x else x)
                             - Z.of_nat (String.length fp))
              | _ => NaN
              end
            else NaN
        end
    end.

(** [Number(s)]: white space around the literal is ignored, the empty text
    is zero, a text that is not one literal is NaN. *)
Definition toNumber (s : string) : number :=
  match Text.trim s with
  | EmptyString => S754_zero false
  | String "0" (String p r) as t =>
      match radixOf p with
      | Some radix =>
          match r with
          | EmptyString => NaN
          | _ =>
              if Text.all (isRadixDigit radix) r
              then ofZ (Z.of_N (radixValueAcc radix 0 r))
              else NaN
          end
      | None => decimalLiteral t
      end
  | t => decimalLiteral t
  end.

(** *** The page *)

Record Product := {
  _id : string;
  name : string;
  price : number;
  image : list string;
  postId : string
}.

Inductive ToastKind := toastError | toastSuccess.

Record Toast := { kind : ToastKind; text : string }.

Record State := {
  products : list Product;
  searchQuery : string;
  priceValues : string -> option string;
  updatingPrice : string -> option bool;
  toasts : list Toast;
  posted : list (string * number)
}.

(** [{ ...prev, [key]: value }] *)
Definition withKey {A : Type} (key : string) (value : A)
  (prev : string -> option A) : string -> option A :=
  fun k => if String.eqb k key then Some value else prev k.

Definition handlePriceChange (productId value : string) (st : State) : State :=
  {| products := products st; searchQuery := searchQuery st;
     priceValues := withKey productId value (priceValues st);
     updatingPrice := updatingPrice st; toasts := toasts st;
     posted := posted st |}.

(** How the request to the backend ended. *)
Inductive Reply :=
  | Succeeded
  | Declined (msg : option string)
  | Failed.

Definition toast (k : ToastKind) (t : string) (st : State) : State :=
  {| products := products st; searchQuery := searchQuery st;
     priceValues := priceValues st; updatingPrice := updatingPrice st;
     toasts := toasts st ++ [{| kind := k; text := t |}];
     posted := posted st |}.

Definition setUpdatingPrice (productId : string) (b : bool) (st : State)
  : State :=
  {| products := products st; searchQuery := searchQuery st;
     priceValues := priceValues st;
     updatingPrice := withKey productId b (updatingPrice st);
     toasts := toasts st; posted := posted st |}.

Definition withPrice (p : Product) (x : number) : Product :=
  {| _id := _id p; name := name p; price := x; image := image p;
     postId := postId p |}.

(** [updatePrice(productId)], with the reply the request gets when one is
    sent; the [finally] clause runs on every path. *)
Definition updatePrice (productId : string) (reply : Reply) (st : State)
  : State :=
  let newPrice := priceValues st productId in
  let st :=
    if negb (Text.truthy newPrice) || isNaN (toNumber (ProductForm.text newPrice))
       || leb (toNumber (ProductForm.text newPrice)) (ofZ 0)
    then toast toastError "Please enter a valid price" st
    else
      let st := setUpdatingPrice productId true st in
      let x := toNumber (ProductForm.text newPrice) in
      let st :=
        {| products := products st; searchQuery := searchQuery st;
           priceValues := priceValues st; updatingPrice := updatingPrice st;
           toasts := toasts st; posted := posted st ++ [(productId, x)] |} in
      match reply with
      | Succeeded =>
          toast toastSuccess "Price updated successfully"
            {| products :=
                 map (fun product =>
                        if String.eqb (postId product) productId
                        then withPrice product x else product)
                     (products st);
               searchQuery := searchQuery st;
               priceValues := priceValues st;
               updatingPrice := updatingPrice st;
               toasts := toasts st; posted := posted st |}
      | Declined msg =>
          toast toastError (FormText.orElse msg "Failed to update price") st
      | Failed =>
          toast toastError "Failed to update price. Please try again." st
      end in
  setUpdatingPrice productId false st.

Definition setSearchQuery (value : string) (st : State) : State :=
  {| products := products st; searchQuery := value;
     priceValues := priceValues st; updatingPrice := updatingPrice st;
     toasts := toasts st; posted := posted st |}.

(** The rows the page shows for the search text; [lowerCaseUnicode] is
    the engine's [toLowerCase] on text with a character outside ASCII. *)
Definition filteredProducts (lowerCaseUnicode : string -> string)
  (st : State) : list Product :=
  filter (fun product =>
            Text.includes
              (Text.toLowerCase lowerCaseUnicode (searchQuery st))
              (Text.toLowerCase lowerCaseUnicode (name product)))
         (products st).

End PriceList.

(** ** The bookmatched texture as a repeating background *)

Module Tile.

Import Canvas ProductVisualizer.

(** The cells in a row, and in a column, of the composed canvas. *)
Definition cells (w h : Z) : nat := if isKnownSquare w h then 2 else 4.

(** The draw that fills the cell in column [x] of row [y]. *)
Definition cell (w h : Z) (x y : nat) : option Draw :=
  nth_error (drawn (fst (compose w h))) (cells w h * y + x).

(** The effect on [productImage] runs [createBookmatchedTexture] again
    each time the property changes: the calls in order, each with the event
    of the image it loads when it loads one. *)
Fixpoint rerun (toDataURL : Canvas.t -> string) (contextAvailable : bool)
  (calls : list (string * LoadEvent)) (st : State) : completion State :=
  match calls with
  | [] => Normal st
  | (productImage, ev) :: rest =>
      match createBookmatchedTexture toDataURL contextAvailable
              productImage ev st with
      | Normal st => rerun toDataURL contextAvailable rest st
      | Throw e => Throw e
      end
  end.

(** [bookmatchedTextureRef.current || productImage] in the style of the
    room. *)
Definition backgroundImage (productImage : string) (st : State) : string :=
  match bookmatchedTextureRef st with
  | Some (String c r) => String c r
  | _ => productImage
  end.

End Tile.

(** ** The images a submission sends (ProductForm.handleSubmit) *)

Module Upload.

Import Images.

(** The image parts of the form data: the [existingImages] field, written
    in edit mode only, and one [images] part for each file. *)
Record Parts := { existingImages : option (list string); files : list File }.

(** The image part of [handleSubmit], up to the request. *)
Definition imageParts (p : Props) (st : State) : completion Parts :=
  if (List.length (previews st) =? 0)%nat then
    Throw "You must have at least one image"
  else
    match mode p with
    | edit =>
        let existingImages :=
          match initialImage p with Some image => image | None => [] end in
        let existingImagesInPreviews :=
          filter (fun url => includes url existingImages) (previews st) in
        Normal {| existingImages := Some existingImagesInPreviews;
                  files := images st |}
    | create => Normal {| existingImages := None; files := images st |}
    end.

(** A file [validateImage] lets through. *)
Definition accepted (file : File) : bool :=
  includes (type file) ACCEPTED_IMAGE_TYPES && (size file <=? MAX_FILE_SIZE).

End Upload.

(** * Properties *)

(** ** Signs of the arithmetic on doubles *)

Module JSFacts.

Import JS.

Lemma positiveFinite_signBit x :
  isPositiveFinite x = true -> signBit x = Some false.
Proof. destruct x as [| | |[] m e]; simpl; intros H; congruence. Qed.

Lemma shr_1_nonneg mrs : 0 <= shr_m mrs -> 0 <= shr_m (shr_1 mrs).
Proof.
  destruct mrs as [m r s]; simpl.
  destruct m as [|[p|p|]|[p|p|]]; simpl; lia.
Qed.

Lemma iter_shr_1_nonneg p :
  forall mrs, 0 <= shr_m mrs -> 0 <= shr_m (iter_pos shr_1 p mrs).
Proof.
  induction p as [p IH|p IH|]; intros mrs H; simpl.
  - apply IH, IH, shr_1_nonneg, H.
  - apply IH, IH, H.
  - apply shr_1_nonneg, H.
Qed.

Lemma shr_nonneg mrs e n : 0 <= shr_m mrs -> 0 <= shr_m (fst (shr mrs e n)).
Proof.
  intros H. unfold shr. destruct n; simpl; auto using iter_shr_1_nonneg.
Qed.

Lemma shr_fexp_nonneg m e l :
  0 <= m -> 0 <= shr_m (fst (shr_fexp prec emax m e l)).
Proof.
  intros H. unfold shr_fexp. apply shr_nonneg.
  destruct l as [|[]]; simpl; exact H.
Qed.

Lemma round_nearest_even_nonneg m l : 0 <= m -> 0 <= round_nearest_even m l.
Proof.
  intros H. unfold round_nearest_even.
  destruct l as [|[]]; try destruct (Z.even m); lia.
Qed.

(** Rounding keeps the sign it is given and never produces NaN. *)
Lemma binary_round_aux_signBit s m e l :
  0 <= m -> signBit (binary_round_aux prec emax s m e l) = Some s.
Proof.
  intros H. unfold binary_round_aux.
  destruct (shr_fexp prec emax m e l) as [mrs' e'] eqn:E1.
  assert (H1 : 0 <= shr_m mrs').
  { change mrs' with (fst (mrs', e')). rewrite <- E1.
    apply shr_fexp_nonneg, H. }
  destruct (shr_fexp prec emax
              (round_nearest_even (shr_m mrs') (loc_of_shr_record mrs')) e'
              loc_Exact) as [mrs'' e''] eqn:E2.
  assert (H2 : 0 <= shr_m mrs'').
  { change mrs'' with (fst (mrs'', e'')). rewrite <- E2.
    apply shr_fexp_nonneg, round_nearest_even_nonneg, H1. }
  destruct (shr_m mrs'') as [|q|q]; [reflexivity| |lia].
  match goal with |- context [if ?b then _ else _] => destruct b end;
    reflexivity.
Qed.

Lemma binary_round_signBit s m e :
  signBit (binary_round prec emax s m e) = Some s.
Proof.
  unfold binary_round.
  destruct (shl_align m e _) as [mz ez].
  apply binary_round_aux_signBit. lia.
Qed.

Lemma mul_signBit x y :
  signBit x = Some false -> isPositiveFinite y = true ->
  signBit (mul x y) = Some false.
Proof.
  destruct y as [| | |[] my ey]; simpl; try discriminate. intros Hx _.
  destruct x as [sx|sx| |sx mx ex]; simpl in Hx; try discriminate;
    injection Hx as ->; try reflexivity.
  unfold mul, SFmul. apply binary_round_aux_signBit. lia.
Qed.

Lemma div_core_nonneg m1 e1 m2 e2 :
  0 <= m1 -> 0 < m2 ->
  0 <= fst (fst (SFdiv_core_binary prec emax m1 e1 m2 e2)).
Proof.
  intros H1 H2. unfold SFdiv_core_binary.
  set (s := _ - _ - Z.min _ _).
  set (m' := match s with Z0 => m1 | Zpos _ => Z.shiftl m1 s | Zneg _ => 0 end).
  assert (Hm : 0 <= m').
  { subst m'. destruct s; try lia. apply Z.shiftl_nonneg, H1. }
  pose proof (Z.div_pos m' m2 Hm H2) as Hq. unfold Z.div in Hq.
  destruct (Z.div_eucl m' m2) as [q r]. simpl. exact Hq.
Qed.

Lemma div_signBit x y :
  signBit x = Some false -> isPositiveFinite y = true ->
  signBit (div x y) = Some false.
Proof.
  destruct y as [| | |[] my ey]; simpl; try discriminate. intros Hx _.
  destruct x as [sx|sx| |sx mx ex]; simpl in Hx; try discriminate;
    injection Hx as ->; try reflexivity.
  unfold div, SFdiv.
  pose proof (div_core_nonneg (Zpos mx) ex (Zpos my) ey) as Hq.
  destruct (SFdiv_core_binary prec emax (Zpos mx) ex (Zpos my) ey)
    as [[mz ez] lz].
  apply binary_round_aux_signBit. apply Hq; lia.
Qed.

Lemma round_signBit x : signBit x = Some false -> signBit (round x) = Some false.
Proof.
  destruct x as [sx|sx| |sx mx ex]; try (intros H; exact H).
  intros H. injection H as ->. unfold round.
  destruct (0 <=? ex); [reflexivity|].
  set (n := (2 * Zpos mx + 2 ^ (- ex)) / (2 * 2 ^ (- ex))).
  assert (Hn : 0 <= n).
  { subst n. pose proof (Z.pow_nonneg 2 (- ex)).
    destruct (Z.eq_dec (2 ^ (- ex)) 0) as [E|E].
    - rewrite E, Z.mul_0_r, Z.div_0_r. lia.
    - apply Z.div_pos; lia. }
  destruct n as [|n|n]; [reflexivity| |lia].
  unfold binary_normalize. apply binary_round_signBit.
Qed.

(** [0 <= x] holds for every number with a clear sign bit. *)
Lemma zero_leb_signBit x : signBit x = Some false -> leb (ofZ 0) x = true.
Proof.
  destruct x as [sx|sx| |sx mx ex]; simpl; intros H; try discriminate;
    injection H as ->; reflexivity.
Qed.

Lemma isNaN_signBit x : signBit x = Some false -> isNaN x = false.
Proof. destruct x; simpl; congruence. Qed.

Lemma positiveFinite_not_NaN x : isPositiveFinite x = true -> isNaN x = false.
Proof. destruct x as [| | |[] m e]; simpl; congruence. Qed.

(** *** White space *)

Lemma isSpace2_ascii c1 c2 :
  (N_of_ascii c1 <? 128)%N = true -> isSpace2 c1 c2 = false.
Proof.
  intros H. apply N.ltb_lt in H. unfold isSpace2.
  destruct (N.eqb_spec (N_of_ascii c1) 194); [lia | reflexivity].
Qed.

Lemma isSpace3_ascii c1 c2 c3 :
  (N_of_ascii c1 <? 128)%N = true -> isSpace3 c1 c2 c3 = false.
Proof.
  intros H. apply N.ltb_lt in H. unfold isSpace3. cbv zeta.
  destruct (N.eqb_spec (N_of_ascii c1) 225); [lia|].
  destruct (N.eqb_spec (N_of_ascii c1) 226); [lia|].
  destruct (N.eqb_spec (N_of_ascii c1) 227); [lia|].
  destruct (N.eqb_spec (N_of_ascii c1) 239); [lia|]. reflexivity.
Qed.

Lemma isASCII_app (a b : string) :
  isASCII (a ++ b) = isASCII a && isASCII b.
Proof.
  induction a as [|c a IH]; [reflexivity|]. cbn [append isASCII].
  now rewrite IH, andb_assoc.
Qed.

(** Leading white space ends at an ASCII character that is none. *)
Lemma trimStart_ascii c r :
  (N_of_ascii c <? 128)%N = true -> isSpace c = false ->
  trimStart (String c r) = String c r.
Proof.
  intros Ha Hs. cbn [trimStart]. rewrite Hs.
  destruct r as [|c2 r2]; [reflexivity|]. rewrite (isSpace2_ascii _ _ Ha).
  destruct r2 as [|c3 r3]; [reflexivity|]. now rewrite (isSpace3_ascii _ _ _ Ha).
Qed.

(** White space of more than one byte is skipped like a blank: a
    no-break space before the digits, a byte order mark, a line separator
    and an ideographic space around them. *)
Example parseFloat_skips_white_space :
  parseFloat (String "194" (String "160" "60")) = ofZ 60 /\
  parseFloat (String "239" (String "187" (String "191"
               (String "226" (String "128" (String "168" "2.5")))))) =
  parseFloat "2.5" /\
  trimStart (String "227" (String "128" (String "128" "x"))) = "x".
Proof. repeat split; vm_compute; reflexivity. Qed.

End JSFacts.

(** ** The area calculator *)

Module AreaCalculator.

Import JS ProductForm JSFacts.

Lemma falsy_parse_NaN v : falsy v = true -> isNaN (parseFloat (text v)) = true.
Proof. destruct v as [[|c r]|]; simpl; intros H; try discriminate; reflexivity. Qed.

Lemma not_NaN_truthy v : isNaN (parseFloat (text v)) = false -> falsy v = false.
Proof.
  intros H. destruct (falsy v) eqn:E; [|reflexivity].
  apply falsy_parse_NaN in E. congruence.
Qed.

(** With auto-calculation on and three inputs that parse to numbers, the
    effect writes the rounded quantity and the formula. *)
Lemma quantityEffect_computes st :
  autoCalculateQuantity st = true ->
  isNaN (parsedLength st) = false ->
  isNaN (parsedHeight st) = false ->
  isNaN (parsedPieces st) = false ->
  quantityEffect st =
  let r := calculateQuantity (parsedLength st) (parsedHeight st)
             (parsedPieces st) (sizeUnit (values st)) in
  setCalculationPreview (Some (snd r))
    (setQuantityAvailable (toString (fst r)) (setSizeParseError None st)).
Proof.
  unfold parsedLength, parsedHeight, parsedPieces. intros Ha Hl Hh Hp.
  unfold quantityEffect. rewrite Ha. cbn [negb].
  rewrite (not_NaN_truthy _ Hl), (not_NaN_truthy _ Hh), (not_NaN_truthy _ Hp).
  cbn [orb setSizeParseError values]. rewrite Hl, Hh, Hp. cbn [orb].
  destruct (calculateQuantity _ _ _ _) as [q f]. reflexivity.
Qed.

(** With auto-calculation on and an input that is missing or does not
    parse, the effect writes no quantity and clears the preview. *)
Lemma quantityEffect_rejects st :
  autoCalculateQuantity st = true ->
  isNaN (parsedLength st) || isNaN (parsedHeight st) || isNaN (parsedPieces st)
    = true ->
  calculationPreview (quantityEffect st) = None /\
  values (quantityEffect st) = values st.
Proof.
  unfold parsedLength, parsedHeight, parsedPieces. intros Ha H.
  unfold quantityEffect. rewrite Ha. cbn [negb].
  destruct (falsy (sizeLength (values st)) || falsy (sizeHeight (values st))
            || falsy (numberOfPieces (values st))).
  - split; reflexivity.
  - cbn [setSizeParseError values]. rewrite H. split; reflexivity.
Qed.

Lemma calculateQuantity_signBit l h p u :
  isPositiveFinite l = true -> isPositiveFinite h = true ->
  isPositiveFinite p = true ->
  signBit (fst (calculateQuantity l h p u)) = Some false.
Proof.
  intros Hl Hh Hp.
  assert (Hq : forall k, isPositiveFinite (ofZ k) = true ->
            signBit (div (mul (mul l h) p) (ofZ k)) = Some false).
  { intros k Hk. apply div_signBit; [|exact Hk].
    apply mul_signBit; [|exact Hp].
    apply mul_signBit; [|exact Hh].
    apply positiveFinite_signBit, Hl. }
  assert (Hr : forall q, signBit q = Some false ->
            signBit (div (round (mul q (ofZ 100))) (ofZ 100)) = Some false).
  { intros q H. apply div_signBit; [|reflexivity].
    apply round_signBit, mul_signBit; [exact H|reflexivity]. }
  unfold calculateQuantity.
  destruct (String.eqb u "in"); cbn [fst]; apply Hr, Hq; reflexivity.
Qed.

(** C1: the quantity the effect writes is not always the area rounded to
    two decimal places.  For a length of 3.4, a height of 9, 2 pieces and
    inches, all positive finite, the area is 0.42499999999999998..., the
    double next to 0.425 and below it: the contract gives 0.42, whether
    the quotient is taken exactly or in doubles, and so does the formula
    the effect shows, yet the quantity it writes is 0.43, because the
    product of the area and 100 is rounded to 42.5 before [Math.round]
    sees it.  The formula echoes the operands and the divisor, and the
    example of the specification, 60 by 120 and 10 pieces, comes out as
    stated. *)
Theorem C1_quantity_is_not_the_rounded_area :
  let st := typed "3.4" "9" "in" "2" "" in
  let area :=
    div (mul (mul (parsedLength st) (parsedHeight st)) (parsedPieces st))
        (ofZ 144) in
  (isPositiveFinite (parsedLength st) = true /\
   isPositiveFinite (parsedHeight st) = true /\
   isPositiveFinite (parsedPieces st) = true) /\
  AreaSpec.computeArea (AreaSpec.dimensions st) =
    Some {| AreaSpec.totalArea := parseFloat "0.42";
            AreaSpec.formula := "(3.4 × 9 × 2) ÷ 144 = 0.42 sqft" |} /\
  (toFixed area 20 = "0.42499999999999998890" /\
   option_map (fun v => AreaSpec.hundredths (fst v) (snd v))
              (AreaSpec.positiveValue area) = Some 42 /\
   toString (mul area (ofZ 100)) = "42.5") /\
  quantityAvailable (values (quantityEffect st)) = "0.43" /\
  calculationPreview (quantityEffect st) =
    Some "(3.4 × 9 × 2) ÷ 144 = 0.42 sqft" /\
  AreaSpec.computeArea (AreaSpec.dimensions (typed "60" "120" "in" "10" "")) =
    Some {| AreaSpec.totalArea := ofZ 500;
            AreaSpec.formula := "(60 × 120 × 10) ÷ 144 = 500.00 sqft" |} /\
  quantityAvailable (values (quantityEffect (typed "60" "120" "in" "10" "")))
    = "500" /\
  calculationPreview (quantityEffect (typed "60" "120" "in" "10" "")) =
    Some "(60 × 120 × 10) ÷ 144 = 500.00 sqft".
Proof. cbv zeta. repeat split; vm_compute; reflexivity. Qed.

(** C2, as stated, fails: a zero and a negative length are not positive,
    yet the effect writes a quantity and shows a preview for them. *)
Lemma C2_zero_and_negative_are_calculated :
  (isPositiveFinite (parsedLength (typed "0" "120" "in" "10" "")) = false /\
   quantityEffect (typed "0" "120" "in" "10" "") =
     setCalculationPreview (Some "(0 × 120 × 10) ÷ 144 = 0.00 sqft")
       (typed "0" "120" "in" "10" "0")) /\
  (isPositiveFinite (parsedLength (typed "-5" "10" "in" "1" "")) = false /\
   quantityEffect (typed "-5" "10" "in" "1" "") =
     setCalculationPreview (Some "(-5 × 10 × 1) ÷ 144 = -0.35 sqft")
       (typed "-5" "10" "in" "1" "-0.35")).
Proof. repeat split; vm_compute; reflexivity. Qed.

(** C2, amended: with auto-calculation on, the effect produces no quantity
    (the form values stay as they were) and no preview exactly when one of
    the three inputs is missing, empty or does not start with a number
    (parses to NaN); every other input, zero and negative numbers included,
    is calculated. *)
Theorem C2_no_result_without_numbers st :
  autoCalculateQuantity st = true ->
  (isNaN (parsedLength st) || isNaN (parsedHeight st) || isNaN (parsedPieces st)
     = true ->
   calculationPreview (quantityEffect st) = None /\
   values (quantityEffect st) = values st) /\
  (isNaN (parsedLength st) || isNaN (parsedHeight st) || isNaN (parsedPieces st)
     = false ->
   calculationPreview (quantityEffect st) =
     Some (snd (calculateQuantity (parsedLength st) (parsedHeight st)
                  (parsedPieces st) (sizeUnit (values st)))) /\
   quantityAvailable (values (quantityEffect st)) =
     toString (fst (calculateQuantity (parsedLength st) (parsedHeight st)
                      (parsedPieces st) (sizeUnit (values st))))).
Proof.
  intros Ha. split; intros H.
  - apply quantityEffect_rejects; assumption.
  - apply orb_false_iff in H. destruct H as [H Hp].
    apply orb_false_iff in H. destruct H as [Hl Hh].
    rewrite (quantityEffect_computes st Ha Hl Hh Hp). split; reflexivity.
Qed.

Lemma C2_no_result_without_numbers_witness :
  calculationPreview (quantityEffect (typed "abc" "120" "in" "10" "7")) = None /\
  values (quantityEffect (typed "abc" "120" "in" "10" "7")) =
  values (typed "abc" "120" "in" "10" "7").
Proof.
  apply (proj1 (C2_no_result_without_numbers (typed "abc" "120" "in" "10" "7")
                  eq_refl)).
  reflexivity.
Defined.

(** C3: for a product stored by the form with unit [in], the form divides
    by 144 and the detail page, which tests for [inches], divides by 929:
    it treats the two units the form can store alike. *)
Theorem C3_detail_page_divisor_differs :
  calculationPreview (quantityEffect (typed "60" "120" "in" "10" "")) =
    Some "(60 × 120 × 10) ÷ 144 = 500.00 sqft" /\
  ProductDetail.calculateQuantityFormula "60x120" "in" (ofZ 10) =
    Some "(60 × 120 × 10) ÷ 929 = 77.50 sqft" /\
  ProductDetail.calculateQuantityFormula "60x120" "inches" (ofZ 10) =
    Some "(60 × 120 × 10) ÷ 144 = 500.00 sqft" /\
  (forall size n,
     ProductDetail.calculateQuantityFormula size "in" n =
     ProductDetail.calculateQuantityFormula size "cm" n).
Proof.
  split; [vm_compute; reflexivity|]. split; [vm_compute; reflexivity|].
  split; [vm_compute; reflexivity|]. intros size n. reflexivity.
Qed.

(** C4, as stated, fails: a negative length gives a negative total area. *)
Lemma C4_negative_length_negative_area :
  ltb (fst (calculateQuantity (parseFloat "-5") (parseFloat "10")
              (parseFloat "1") "in")) (ofZ 0) = true /\
  toString (fst (calculateQuantity (parseFloat "-5") (parseFloat "10")
                   (parseFloat "1") "in")) = "-0.35".
Proof. split; vm_compute; reflexivity. Qed.

(** The effect as a cascade of its four outcomes. *)
Lemma quantityEffect_cases st :
  quantityEffect st =
  if negb (autoCalculateQuantity st) then setCalculationPreview None st
  else if falsy (sizeLength (values st)) || falsy (sizeHeight (values st))
          || falsy (numberOfPieces (values st))
  then setCalculationPreview None (setSizeParseError None st)
  else if isNaN (parsedLength st) || isNaN (parsedHeight st)
          || isNaN (parsedPieces st)
  then setCalculationPreview None
         (setSizeParseError
            (Some "Please enter valid numbers for size and pieces")
            (setSizeParseError None st))
  else
    setCalculationPreview
      (Some (snd (calculateQuantity (parsedLength st) (parsedHeight st)
                    (parsedPieces st) (sizeUnit (values st)))))
      (setQuantityAvailable
         (toString (fst (calculateQuantity (parsedLength st) (parsedHeight st)
                           (parsedPieces st) (sizeUnit (values st)))))
         (setSizeParseError None st)).
Proof.
  unfold quantityEffect, parsedLength, parsedHeight, parsedPieces.
  cbn [setSizeParseError values].
  destruct (calculateQuantity _ _ _ _) as [q f]. reflexivity.
Qed.

Lemma quantityEffect_idempotent st :
  quantityEffect (quantityEffect st) = quantityEffect st.
Proof.
  destruct st as [[sl sh u np qa] auto err prev].
  rewrite (quantityEffect_cases (quantityEffect _)), quantityEffect_cases.
  unfold parsedLength, parsedHeight, parsedPieces.
  cbn [values autoCalculateQuantity sizeLength sizeHeight sizeUnit
       numberOfPieces].
  destruct auto; cbn [negb]; [|reflexivity].
  destruct (falsy sl || falsy sh || falsy np) eqn:Hf.
  { cbn [values autoCalculateQuantity sizeLength sizeHeight sizeUnit
         numberOfPieces setCalculationPreview setSizeParseError negb].
    rewrite Hf. reflexivity. }
  destruct (isNaN (parseFloat (text sl)) || isNaN (parseFloat (text sh))
            || isNaN (parseFloat (text np))) eqn:Hn;
    cbn [values autoCalculateQuantity sizeLength sizeHeight sizeUnit
         numberOfPieces setCalculationPreview setSizeParseError
         setQuantityAvailable negb];
    rewrite Hf, Hn; reflexivity.
Qed.

(** C4, amended: for finite positive length, height and piece count the
    total area is never negative (it is [+0], positive or, on overflow,
    [+Infinity]), and running the calculation again on its own result
    changes nothing. *)
Theorem C4_area_nonnegative_idempotent :
  (forall l h p u,
     isPositiveFinite l = true -> isPositiveFinite h = true ->
     isPositiveFinite p = true ->
     leb (ofZ 0) (fst (calculateQuantity l h p u)) = true) /\
  (forall st, quantityEffect (quantityEffect st) = quantityEffect st).
Proof.
  split.
  - intros l h p u Hl Hh Hp.
    apply zero_leb_signBit, calculateQuantity_signBit; assumption.
  - exact quantityEffect_idempotent.
Qed.

Lemma C4_area_nonnegative_idempotent_witness :
  leb (ofZ 0)
    (fst (calculateQuantity (parseFloat "60") (parseFloat "120")
            (parseFloat "10") "in")) = true.
Proof.
  apply (proj1 C4_area_nonnegative_idempotent); reflexivity.
Defined.

End AreaCalculator.

(** ** The bookmatch compositor *)

Module Bookmatch.

Import Canvas ProductVisualizer.

Lemma forLoop_4x4 (body : Z -> Z -> Canvas.t -> Canvas.t) c :
  forLoop 4 0 (fun y => forLoop 4 0 (fun x => body y x)) c =
  body 3 3 (body 3 2 (body 3 1 (body 3 0
  (body 2 3 (body 2 2 (body 2 1 (body 2 0
  (body 1 3 (body 1 2 (body 1 1 (body 1 0
  (body 0 3 (body 0 2 (body 0 1 (body 0 0 c))))))))))))))).
Proof. reflexivity. Qed.

Lemma current_pushDraw d c : current (pushDraw d c) = current c.
Proof. reflexivity. Qed.

(** A cell leaves the transform as it found it. *)
Lemma current_mirroredCell w h y x c :
  current (mirroredCell w h y x c) = current c.
Proof. reflexivity. Qed.

Lemma current_branchedCell w h y x c :
  current (branchedCell w h y x c) = current c.
Proof.
  unfold branchedCell.
  destruct (x mod 2 =? 1), (y mod 2 =? 1); reflexivity.
Qed.

(** The one draw of a cell, on a canvas whose transform is the identity. *)
Lemma mirroredCell_draw w h y x c :
  current c = identity ->
  mirroredCell w h y x c =
  pushDraw
    {| under :=
         {| sx := if x mod 2 =? 1 then -1 else 1;
            sy := if y mod 2 =? 1 then -1 else 1;
            tx := x * w + (if x mod 2 =? 1 then w else 0);
            ty := y * h + (if y mod 2 =? 1 then h else 0) |};
       dx := 0; dy := 0; dw := w; dh := h |} c.
Proof.
  intros Hc. unfold mirroredCell, restore, drawImage, scale, translate, save,
    withCurrent, pushDraw.
  cbn [width height current saved drawn]. rewrite Hc.
  cbn [sx sy tx ty identity].
  destruct (x mod 2 =? 1), (y mod 2 =? 1);
    repeat (f_equal; try lia).
Qed.

Lemma branchedCell_draw w h y x c :
  current c = identity ->
  branchedCell w h y x c =
  pushDraw
    (if (x mod 2 =? 1) || (y mod 2 =? 1) then
       {| under :=
            {| sx := if x mod 2 =? 1 then -1 else 1;
               sy := if y mod 2 =? 1 then -1 else 1;
               tx := x * w + (if x mod 2 =? 1 then w else 0);
               ty := y * h + (if y mod 2 =? 1 then h else 0) |};
          dx := 0; dy := 0; dw := w; dh := h |}
     else
       {| under := identity; dx := x * w; dy := y * h; dw := w; dh := h |}) c.
Proof.
  intros Hc. unfold branchedCell, restore, drawImage, scale, translate, save,
    withCurrent, pushDraw.
  destruct (x mod 2 =? 1), (y mod 2 =? 1);
    cbn [width height current saved drawn andb orb]; rewrite Hc;
    cbn [sx sy tx ty identity]; repeat (f_equal; try lia).
Qed.

Lemma isKnownSquare_true w h :
  isKnownSquare w h = true -> (w = 488 /\ h = 488) \/ (w = 646 /\ h = 646).
Proof.
  unfold isKnownSquare.
  rewrite orb_true_iff, !andb_true_iff, !Z.eqb_eq. tauto.
Qed.

Lemma compose_quadrants w h :
  isKnownSquare w h = true -> quadrants w h (fst (compose w h)).
Proof.
  intros H. apply isKnownSquare_true in H.
  destruct H as [[-> ->]|[-> ->]];
    (split; [reflexivity|]; split; [reflexivity|];
     do 4 eexists; split; [vm_compute; reflexivity|];
     split; [repeat constructor|];
     intros u v; unfold pixelTo; cbn [under dx dy sx sy tx ty];
     repeat split; f_equal; lia).
Qed.

Section Grid.

Ltac cell :=
  eexists; split; [reflexivity|]; split; [reflexivity|];
  split; [reflexivity|];
  intros u v; unfold pixelTo; cbn [under dx dy sx sy tx ty identity];
  cbv [Nat.odd Nat.even negb Z.of_nat Pos.of_succ_nat Pos.succ];
  f_equal; lia.

Ltac parities :=
  change (0 mod 2 =? 1) with false; change (1 mod 2 =? 1) with true;
  change (2 mod 2 =? 1) with false; change (3 mod 2 =? 1) with true;
  cbn [orb].

Ltac grid :=
  parities;
  cbv [fst pushDraw setWidth setHeight create width height current saved
       drawn app];
  split; [lia|]; split; [lia|]; split; [reflexivity|];
  let x := fresh "x" in let y := fresh "y" in
  intros x y ? ?;
  destruct x as [|[|[|[|x]]]]; try lia;
  destruct y as [|[|[|[|y]]]]; try lia; cell.

Lemma compose_alternatingGrid w h :
  isKnownSquare w h = false -> alternatingGrid w h (fst (compose w h)).
Proof.
  unfold isKnownSquare, alternatingGrid. intros H.
  unfold compose. cbv zeta. rewrite H.
  change (Z.of_nat 4) with 4.
  destruct (Z.abs (w - h) <? 20); rewrite forLoop_4x4.
  - rewrite !mirroredCell_draw
      by (rewrite ?current_pushDraw, ?current_mirroredCell; reflexivity).
    grid.
  - rewrite !branchedCell_draw
      by (rewrite ?current_pushDraw, ?current_branchedCell; reflexivity).
    grid.
Qed.

End Grid.

(** C5: for an image of [w] by [h] pixels that loaded, a size of 488 x 488
    or 646 x 646 gives a canvas of [2w] by [2h] with the source and its three
    mirror images in the four quadrants; every other size, nearly square or
    not, gives a canvas of [4w] by [4h] with sixteen cells, the cell in
    column [x] and row [y] flipped horizontally exactly when [x] is odd and
    vertically exactly when [y] is odd.  The encoded canvas becomes the
    texture and the texture is marked ready. *)
Theorem C5_bookmatch_tiling (toDataURL : Canvas.t -> string) (w h : Z)
  (st : State) :
  (isKnownSquare w h = true -> quadrants w h (fst (compose w h))) /\
  (isKnownSquare w h = false -> alternatingGrid w h (fst (compose w h))) /\
  exists st',
    onload toDataURL true w h st = Normal st' /\
    bookmatchedTextureRef st' = Some (toDataURL (fst (compose w h))) /\
    textureReady st' = true.
Proof.
  split; [apply compose_quadrants|]. split; [apply compose_alternatingGrid|].
  unfold onload. cbn [negb]. destruct (compose w h) as [canvas size].
  eexists. split; [reflexivity|]. split; reflexivity.
Qed.

Lemma C5_bookmatch_tiling_witness :
  quadrants 488 488 (fst (compose 488 488)) /\
  alternatingGrid 300 200 (fst (compose 300 200)).
Proof.
  split.
  - apply (proj1 (C5_bookmatch_tiling (fun _ => "") 488 488 initial)).
    reflexivity.
  - apply (proj1 (proj2 (C5_bookmatch_tiling (fun _ => "") 300 200 initial))).
    reflexivity.
Defined.

(** C9: when no texture exists yet and the image fails to load, texture
    creation ends normally with the product image URL itself, not the
    proxied address that was requested, as the texture, and with the
    texture marked ready; the error handler never throws. *)
Theorem C9_load_failure_falls_back (toDataURL : Canvas.t -> string)
  (contextAvailable : bool) (imageUrl : string) (st : State) :
  hasTexture st = false ->
  exists st',
    createBookmatchedTexture toDataURL contextAvailable imageUrl Failed st =
      Normal st' /\
    onerror imageUrl st = Normal st' /\
    bookmatchedTextureRef st' = Some imageUrl /\
    textureReady st' = true /\
    backgroundSize st' = backgroundSize st /\
    backgroundPosition st' = backgroundPosition st.
Proof.
  intros H. unfold createBookmatchedTexture. rewrite H.
  eexists. split; [reflexivity|]. repeat split.
Qed.

Lemma C9_load_failure_falls_back_witness :
  exists st',
    createBookmatchedTexture (fun _ => "") true
      "https://cdn.example/slab.jpg" Failed initial = Normal st' /\
    onerror "https://cdn.example/slab.jpg" initial = Normal st' /\
    bookmatchedTextureRef st' = Some "https://cdn.example/slab.jpg" /\
    textureReady st' = true /\
    backgroundSize st' = backgroundSize initial /\
    backgroundPosition st' = backgroundPosition initial.
Proof.
  apply (C9_load_failure_falls_back (fun _ => "") true
           "https://cdn.example/slab.jpg" initial).
  reflexivity.
Defined.

(** The address requested for that image is the proxy's. *)
Example requestedSrc_remote :
  requestedSrc "https://cdn.example/slab.jpg" =
  "/api/proxy-image?url=https%3A%2F%2Fcdn.example%2Fslab.jpg".
Proof. reflexivity. Qed.

End Bookmatch.

(** ** QR payload, options and card text *)

Module QRFacts.

Import JS QR.

Lemma length_append (a b : string) :
  String.length (a ++ b) = (String.length a + String.length b)%nat.
Proof. induction a as [|c a IH]; simpl; [reflexivity | now rewrite IH]. Qed.

(** C7: the address encoded for a product is the origin, then [/product/],
    then the identifier, and nothing after it.  The generator component takes
    the origin from the window as protocol and host, or the production
    address when there is no window; the click handler of the list page
    reads [window.location.origin] and, with no window, fails before
    anything is encoded. *)
Theorem C7_product_url (productId : string) :
  (forall loc,
     Generator.productUrl (Some loc) productId =
     (protocol loc ++ "//" ++ host loc) ++ "/product/" ++ productId) /\
  Generator.productUrl None productId =
    "https://evershine-agent.vercel.app/product/" ++ productId /\
  (forall loc,
     AllQR.productUrl (Some loc) productId =
     Normal (origin loc ++ "/product/" ++ productId)) /\
  (exists e, AllQR.productUrl None productId = Throw e) /\
  (forall w,
     String.length (Generator.productUrl w productId) =
     (String.length (Generator.baseUrl w) + 9 + String.length productId)%nat).
Proof.
  split; [reflexivity|]. split; [reflexivity|]. split; [reflexivity|].
  split; [eexists; reflexivity|].
  intros w. unfold Generator.productUrl. rewrite !length_append.
  simpl. lia.
Qed.

(** C8, as stated, fails: the form encodes with margin 2 where the card
    pages use margin 1, and the plain download encodes 300 pixels wide where
    the others use 200. *)
Lemma C8_call_sites_differ :
  margin Form.options <> margin AllQR.options /\
  width Detail.simpleOptions <> width AllQR.options /\
  Form.options <> AllQR.options /\
  Detail.simpleOptions <> AllQR.options.
Proof. repeat split; discriminate. Qed.

(** C8, amended: every call site passes a width, a margin and the
    black-on-white palette and nothing else, no error-correction level
    among them; the width is 200 except for the plain download, which uses
    300, and the margin is 1 except in the product form, which uses 2. *)
Theorem C8_encoder_options :
  Forall (fun site =>
            color (snd site) = {| dark := "#000000"; light := "#ffffff" |} /\
            errorCorrectionLevel (snd site) = None /\
            width (snd site) =
              (if String.eqb (fst site) "ProductDetail.downloadSimpleQRCode"
               then 300 else 200) /\
            margin (snd site) =
              (if String.eqb (fst site) "ProductForm.generateQRCode"
               then 2 else 1))
         callSites.
Proof. unfold callSites. repeat constructor. Qed.

Lemma wrapLoop_rows (measureText : string -> number) (n : Z) :
  forall rest i l,
    n = i + Z.of_nat (List.length rest) ->
    0 <= lineCount l <= 2 ->
    y l = 810 + 20 * lineCount l ->
    Forall onCard (texts l) ->
    let l' := wrapLoop measureText n rest i l in
    0 <= lineCount l' <= 3 /\ y l' = 810 + 20 * lineCount l' /\
    Forall onCard (texts l').
Proof.
  assert (Hfill : forall s l,
            0 <= lineCount l <= 2 -> y l = 810 + 20 * lineCount l ->
            Forall onCard (texts l) ->
            Forall onCard (texts (fillText s qrCodeCenterX (y l) l))).
  { intros s l Hc Hy Ht. unfold fillText. cbn [texts].
    apply Forall_app. split; [exact Ht|]. constructor; [|constructor].
    unfold onCard, qrCodeCenterX. cbn [atX atY]. lia. }
  induction rest as [|word rest IH]; intros i l Hn Hc Hy Ht; cbn zeta.
  - cbn [wrapLoop]. repeat split; try lia; assumption.
  - cbn [wrapLoop].
    destruct ((maxLines - 1 <=? lineCount l) && (i <? n - 1)) eqn:Hstop.
    + cbn [fillText lineCount y]. repeat split; try lia.
      apply Hfill; assumption.
    + destruct (gtb (measureText (line l ++ word ++ " ")) (ofZ maxWidth)
                && (0 <? i)).
      * destruct rest as [|word' rest].
        { cbn [wrapLoop lineCount y texts fillText]. repeat split; try lia.
          apply (Hfill (line l) l); assumption. }
        { apply IH; cbn [lineCount y texts fillText].
          - cbn [List.length] in Hn |- *. lia.
          - apply andb_false_iff in Hstop. unfold maxLines in Hstop.
            cbn [List.length] in Hn. lia.
          - lia.
          - apply (Hfill (line l) l); assumption. }
      * apply IH; cbn [lineCount y texts]; try assumption.
        cbn [List.length] in Hn. lia.
Qed.

(** Whatever the name and the font, text is drawn at the centre line and
    at one of three heights only. *)
Lemma drawName_rows (capitalizeUnicode : string -> string)
  (measureText : string -> number) (productName : string) :
  Forall onCard (drawName capitalizeUnicode measureText productName).
Proof.
  unfold drawName.
  pose proof (wrapLoop_rows measureText
                (Z.of_nat (List.length
                   (split (capitalizedName capitalizeUnicode productName))))
                (split (capitalizedName capitalizeUnicode productName)) 0
                {| line := ""; y := textY; lineCount := 0; texts := [] |})
    as H.
  cbn zeta in H. cbn [lineCount y texts] in H.
  destruct H as (Hc & Hy & Ht); try (unfold textY; lia); [constructor|].
  set (l := wrapLoop _ _ _ _ _) in *.
  destruct (lineCount l <? maxLines) eqn:E; [|exact Ht].
  unfold maxLines in E. apply Z.ltb_lt in E.
  unfold fillText. cbn [texts]. apply Forall_app. split; [exact Ht|].
  constructor; [|constructor]. unfold onCard, qrCodeCenterX. cbn [atX atY]. lia.
Qed.

(** C6: four words, each too wide to share a line.  Greedy wrapping needs
    four lines; the card shows the first three and drops the fourth word
    with no ellipsis.  With a fifth word the third line is drawn with the
    ellipsis and then once more, without it, at the same height.  The
    names are ASCII, so the engine's case mapping of other characters has
    no part in it. *)
Theorem C6_fourth_line_dropped_without_ellipsis
  (capitalizeUnicode : string -> string) :
  greedyLines tenPerByte "" true
    (split (capitalizedName capitalizeUnicode
              "aaaaaaaaaa bbbbbbbbbb cccccccccc dddddddddd")) =
    ["Aaaaaaaaaa "; "Bbbbbbbbbb "; "Cccccccccc "; "Dddddddddd "] /\
  drawName capitalizeUnicode tenPerByte
    "aaaaaaaaaa bbbbbbbbbb cccccccccc dddddddddd" =
    [ {| content := "Aaaaaaaaaa "; atX := 455; atY := 810 |};
      {| content := "Bbbbbbbbbb "; atX := 455; atY := 830 |};
      {| content := "Cccccccccc "; atX := 455; atY := 850 |} ] /\
  drawName capitalizeUnicode tenPerByte
    "aaaaaaaaaa bbbbbbbbbb cccccccccc dddddddddd eeeeeeeeee" =
    [ {| content := "Aaaaaaaaaa "; atX := 455; atY := 810 |};
      {| content := "Bbbbbbbbbb "; atX := 455; atY := 830 |};
      {| content := "Cccccccccc ..."; atX := 455; atY := 850 |};
      {| content := "Cccccccccc "; atX := 455; atY := 850 |} ].
Proof. repeat split; vm_compute; reflexivity. Qed.

End QRFacts.

(** ** The image list of the product form *)

Module ImageFacts.

Import Images.

Lemma filterValid_state files : forall st,
  images (snd (filterValid files st)) = images st /\
  previews (snd (filterValid files st)) = previews st /\
  newImageCount (snd (filterValid files st)) = newImageCount st.
Proof.
  induction files as [|f rest IH]; intros st; simpl; [auto|].
  assert (Hv : images (snd (validateImage f st)) = images st /\
               previews (snd (validateImage f st)) = previews st /\
               newImageCount (snd (validateImage f st)) = newImageCount st).
  { unfold validateImage.
    destruct (negb (includes (type f) ACCEPTED_IMAGE_TYPES)); [simpl; auto|].
    destruct (MAX_FILE_SIZE <? size f); simpl; auto. }
  destruct (validateImage f st) as [ok st1]. simpl in Hv.
  specialize (IH st1). destruct (filterValid rest st1) as [valid st2].
  simpl in *. intuition congruence.
Qed.

Lemma splice_length {A} (a : list A) : forall index,
  (List.length (splice index a) <= List.length a)%nat.
Proof.
  induction a as [|x a IH]; intros [|k]; simpl; try lia.
  specialize (IH k). lia.
Qed.

Lemma splice_length_lt {A} (a : list A) : forall index,
  (index < List.length a)%nat ->
  List.length (splice index a) = (List.length a - 1)%nat.
Proof.
  induction a as [|x a IH]; intros [|k] H; simpl in *; try lia.
  rewrite IH by lia. lia.
Qed.

(** What an addition does to the two lists: nothing, or the same number of
    entries on both, within the limit of ten files. *)
Lemma handleImageChange_lengths files st :
  (images (handleImageChange files st) = images st /\
   previews (handleImageChange files st) = previews st) \/
  (exists k,
     List.length (images (handleImageChange files st)) =
       (List.length (images st) + k)%nat /\
     List.length (previews (handleImageChange files st)) =
       (List.length (previews st) + k)%nat /\
     (List.length (images st) + k <= 10)%nat).
Proof.
  unfold handleImageChange. destruct files as [fileArray|]; [|auto].
  destruct (10 <? List.length (images st) + List.length fileArray)%nat eqn:E;
    [left; split; reflexivity|].
  apply Nat.ltb_ge in E.
  pose proof (filterValid_state fileArray st) as (Hi & Hp & _).
  destruct (filterValid fileArray st) as [validFiles st1]. simpl in Hi, Hp.
  destruct (List.length validFiles =? List.length fileArray)%nat eqn:El;
    simpl; [|left; split; assumption].
  apply Nat.eqb_eq in El. right. exists (List.length validFiles).
  simpl. rewrite !length_app, length_map, Hi, Hp. lia.
Qed.

(** The limit the handler enforces: never more than ten new files. *)
Lemma reachable_images p st :
  reachable p st -> (List.length (images st) <= 10)%nat.
Proof.
  induction 1 as [|files st _ IH|index st _ IH Hlt].
  - simpl. lia.
  - destruct (handleImageChange_lengths files st) as [[Hi _]|(k & Hi & _ & Hk)].
    + rewrite Hi. exact IH.
    + lia.
  - unfold removeImage.
    destruct (isEdit p && (index <? initialCount p)%nat); simpl; [exact IH|].
    pose proof (splice_length (images st)
                  (if isEdit p then (index - initialCount p)%nat else index)).
    lia.
Qed.

(** When a product is created the previews are the new files, one each. *)
Lemma reachable_create p st :
  mode p = create -> reachable p st ->
  List.length (previews st) = List.length (images st).
Proof.
  intros Hm. induction 1 as [|files st _ IH|index st _ IH Hlt].
  - unfold init. rewrite Hm. reflexivity.
  - destruct (handleImageChange_lengths files st)
      as [[Hi Hp]|(k & Hi & Hp & _)]; [rewrite Hi, Hp|]; lia.
  - unfold removeImage, isEdit. rewrite Hm. simpl.
    rewrite !splice_length_lt by lia. lia.
Qed.

Lemma create_previews_at_most_ten p st :
  mode p = create -> reachable p st -> (List.length (previews st) <= 10)%nat.
Proof.
  intros Hm Hr. rewrite (reachable_create p st Hm Hr).
  apply (reachable_images p), Hr.
Qed.

(** C10: in an edit session on a product with eight images, selecting five
    valid files is accepted without a message, and the form then shows
    thirteen previews. *)
Theorem C10_edit_session_exceeds_ten :
  reachable eightOnServer (handleImageChange (Some fiveFiles) (init eightOnServer)) /\
  List.length (previews (init eightOnServer)) = 8%nat /\
  List.length
    (previews (handleImageChange (Some fiveFiles) (init eightOnServer))) =
    13%nat /\
  List.length
    (images (handleImageChange (Some fiveFiles) (init eightOnServer))) =
    5%nat /\
  message (handleImageChange (Some fiveFiles) (init eightOnServer)) = None.
Proof.
  split; [apply reach_add, reach_init|]. repeat split.
Qed.

End ImageFacts.

(** ** Splitting and joining text *)

Module TextFacts.

Import JS Text.

Lemma append_nil_r (s : string) : s ++ "" = s.
Proof. induction s as [|c s IH]; simpl; [reflexivity | now rewrite IH]. Qed.

Lemma append_assoc (a b c : string) : (a ++ b) ++ c = a ++ (b ++ c).
Proof. induction a as [|x a IH]; simpl; [reflexivity | now rewrite IH]. Qed.

Lemma splitBy_not_nil sep s : splitBy sep s <> [].
Proof.
  destruct s as [|c r]; simpl; [discriminate|].
  destruct (sep c); [discriminate|]. destruct (splitBy sep r); discriminate.
Qed.

(** A piece with no separator in it comes back whole, up to the first
    separator after it. *)
Lemma splitBy_piece sep w c r :
  all (fun x => negb (sep x)) w = true -> sep c = true ->
  splitBy sep (w ++ String c r) = w :: splitBy sep r.
Proof.
  intros Hw Hc. induction w as [|x w IH]; simpl in *.
  - now rewrite Hc.
  - apply andb_true_iff in Hw. destruct Hw as [Hx Hw].
    apply negb_true_iff in Hx. rewrite Hx, (IH Hw). reflexivity.
Qed.

Lemma splitBy_whole sep w :
  all (fun x => negb (sep x)) w = true -> splitBy sep w = [w].
Proof.
  intros Hw. induction w as [|x w IH]; simpl in *; [reflexivity|].
  apply andb_true_iff in Hw. destruct Hw as [Hx Hw].
  apply negb_true_iff in Hx. rewrite Hx, (IH Hw). reflexivity.
Qed.

(** Splitting at a character undoes joining with it, when no piece holds
    the character. *)
Lemma splitOn_joinWith sep ws :
  ws <> [] ->
  Forall (fun w => all (fun x => negb (Ascii.eqb sep x)) w = true) ws ->
  splitOn sep (joinWith (String sep "") ws) = ws.
Proof.
  unfold splitOn. intros Hne H. induction H as [|w ws Hw Hws IH]; [congruence|].
  destruct ws as [|w' ws].
  - simpl. apply splitBy_whole, Hw.
  - change (joinWith (String sep "") (w :: w' :: ws))
      with (w ++ String sep (joinWith (String sep "") (w' :: ws))).
    rewrite splitBy_piece; [|exact Hw|apply Ascii.eqb_refl].
    rewrite IH; [reflexivity|discriminate].
Qed.

Lemma mapString_app f (a b : string) :
  QR.mapString f (a ++ b) = QR.mapString f a ++ QR.mapString f b.
Proof. induction a as [|c a IH]; simpl; [reflexivity | now rewrite IH]. Qed.

(** The lower case of an ASCII text is taken letter by letter. *)
Lemma toLowerCase_ascii (lowerCaseUnicode : string -> string) (s : string) :
  isASCII s = true ->
  toLowerCase lowerCaseUnicode s = QR.mapString QR.toLower s.
Proof. intros H. unfold toLowerCase. now rewrite H. Qed.

End TextFacts.

(** ** The size text between the form and the pages that read it *)

Module FormTextFacts.

Import JS Text FormText TextFacts.

Lemma separatorFree_inv s :
  separatorFree s = true ->
  (exists c r, s = String c r) /\
  all (fun c => negb (isSeparator c)) s = true.
Proof.
  unfold separatorFree. intros H. apply andb_true_iff in H.
  destruct H as [Hne Hall]. split; [|exact Hall].
  destruct s as [|c r]; [discriminate|]. eauto.
Qed.

(** X1: a product saved with a length and a height that hold none of the
    characters [x], [*] and [-] opens for editing with the same length and
    height in the two inputs, so that the form mounts in the state it had
    when those values were typed. *)
Theorem X1_edit_restores_dimensions (l h u p q f a : string) :
  separatorFree l = true -> separatorFree h = true ->
  u <> "" -> p <> "" ->
  mount (Some {| quantityAvailable := q;
                 size := Some (composeSize l h);
                 sizeUnit := Some u;
                 numberOfPieces := Some p;
                 finishes := Some f;
                 applicationAreas := a |}) =
  ProductForm.typed l h u p q.
Proof.
  intros Hl Hh Hu Hp.
  destruct (separatorFree_inv l Hl) as [(cl & rl & ->) Hl'].
  destruct (separatorFree_inv h Hh) as [(ch & rh & ->) Hh'].
  unfold mount, defaultValues, ProductForm.typed.
  cbn [size sizeUnit numberOfPieces quantityAvailable composeSize].
  assert (Hs : splitBy isSeparator (String cl rl ++ "x" ++ String ch rh) =
               [String cl rl; String ch rh]).
  { change (String cl rl ++ "x" ++ String ch rh)
      with (String cl rl ++ String "x" (String ch rh)).
    rewrite splitBy_piece; [|exact Hl'|reflexivity].
    rewrite splitBy_whole; [reflexivity|exact Hh']. }
  assert (Ht : truthy (Some (String cl rl ++ "x" ++ String ch rh)) = true)
    by reflexivity.
  rewrite Ht. cbn [ProductForm.text]. rewrite Hs. cbn [nth_error].
  destruct u as [|cu ru]; [congruence|].
  destruct p as [|cp rp]; [congruence|].
  destruct q; reflexivity.
Qed.

Lemma X1_edit_restores_dimensions_witness :
  mount (Some {| quantityAvailable := "500";
                 size := Some (composeSize "60" "120");
                 sizeUnit := Some "in";
                 numberOfPieces := Some "10";
                 finishes := Some "polish";
                 applicationAreas := "Flooring" |}) =
  ProductForm.typed "60" "120" "in" "10" "500".
Proof.
  apply X1_edit_restores_dimensions; try reflexivity; discriminate.
Defined.

(** *** Digits *)

Lemma isDigit_cases c :
  isDigit c = true ->
  In c ["0"; "1"; "2"; "3"; "4"; "5"; "6"; "7"; "8"; "9"]%char.
Proof.
  destruct c as [[] [] [] [] [] [] [] []]; intros H; cbv in H;
    try discriminate H; simpl; tauto.
Qed.

Lemma isDigit_not_space c : isDigit c = true -> isSpace c = false.
Proof.
  intros H. apply isDigit_cases in H. simpl in H.
  repeat (destruct H as [<-|H]; [reflexivity|]). destruct H.
Qed.

Lemma isDigit_ascii c : isDigit c = true -> (N_of_ascii c <? 128)%N = true.
Proof.
  intros H. apply isDigit_cases in H. simpl in H.
  repeat (destruct H as [<-|H]; [reflexivity|]). destruct H.
Qed.

Lemma digits_ascii d : all isDigit d = true -> isASCII d = true.
Proof.
  induction d as [|c d IH]; simpl; [reflexivity|]. intros H.
  apply andb_true_iff in H. destruct H as [Hc Hd].
  now rewrite (isDigit_ascii c Hc), (IH Hd).
Qed.

Lemma spanDigits_inv s : forall d r,
  spanDigits s = (d, r) ->
  s = d ++ r /\ all isDigit d = true /\
  match r with String c _ => isDigit c = false | EmptyString => True end.
Proof.
  induction s as [|c s IH]; intros d r H; simpl in H.
  - injection H as <- <-. auto.
  - destruct (isDigit c) eqn:Hc.
    + destruct (spanDigits s) as [d' r'] eqn:E. injection H as <- <-.
      destruct (IH d' r' eq_refl) as (-> & Hd & Hr).
      simpl. rewrite Hc. auto.
    + injection H as <- <-. simpl. auto.
Qed.

Lemma spanDigits_app d t :
  all isDigit d = true ->
  match t with String c _ => isDigit c = false | EmptyString => True end ->
  spanDigits (d ++ t) = (d, t).
Proof.
  intros Hd Ht. induction d as [|c d IH]; simpl in *.
  - destruct t as [|c t]; [reflexivity|]. simpl. now rewrite Ht.
  - apply andb_true_iff in Hd. destruct Hd as [Hc Hd].
    rewrite Hc, (IH Hd). reflexivity.
Qed.

(** The text a decimal pattern matches starts with a digit. *)
Lemma matchDecimal_starts_with_digit s g r :
  ProductDetail.matchDecimal s = Some (g, r) ->
  exists c g', g = String c g' /\ isDigit c = true.
Proof.
  unfold ProductDetail.matchDecimal.
  destruct (spanDigits s) as [ip r1] eqn:E.
  destruct (spanDigits_inv s ip r1 E) as (_ & Hip & _).
  destruct ip as [|c ip]; [discriminate|].
  simpl in Hip. apply andb_true_iff in Hip. destruct Hip as [Hc _].
  assert (Hd : forall t, exists c0 g', String c ip ++ t = String c0 g' /\
                                          isDigit c0 = true)
    by (intros t; simpl; eauto).
  intros H. destruct r1 as [|c1 r1'].
  - injection H as <- <-. eauto.
  - assert (Hdef : Some (String c ip, String c1 r1') = Some (g, r) ->
                   exists c0 g', g = String c0 g' /\ isDigit c0 = true).
    { intros [= <- <-]. eauto. }
    destruct c1 as [[] [] [] [] [] [] [] []]; try (apply Hdef; exact H).
    destruct (spanDigits r1') as [fp r2].
    destruct fp; [apply Hdef; exact H|].
    injection H as <- <-. apply Hd.
Qed.

(** The shape of a plain decimal: digits, or digits, a point and digits. *)
Lemma isPlainDecimal_shape s :
  isPlainDecimal s = true ->
  exists ip, all isDigit ip = true /\ ip <> "" /\
    (s = ip \/
     exists fp, all isDigit fp = true /\ fp <> "" /\ s = ip ++ "." ++ fp).
Proof.
  unfold isPlainDecimal, ProductDetail.matchDecimal.
  destruct (spanDigits s) as [ip r1] eqn:E.
  destruct (spanDigits_inv s ip r1 E) as (Hs & Hip & _).
  destruct ip as [|c ip]; [discriminate|].
  intros H. exists (String c ip). split; [exact Hip|]. split; [discriminate|].
  destruct r1 as [|c1 r1'].
  - left. rewrite Hs. apply append_nil_r.
  - destruct c1 as [[] [] [] [] [] [] [] []]; try discriminate H.
    destruct (spanDigits r1') as [fp r2] eqn:E2.
    destruct (spanDigits_inv r1' fp r2 E2) as (Hr & Hfp & _).
    destruct fp as [|cf fp]; [discriminate H|].
    destruct r2; [|discriminate H].
    right. exists (String cf fp). split; [exact Hfp|]. split; [discriminate|].
    rewrite Hs, Hr, append_nil_r. reflexivity.
Qed.

(** A plain decimal followed by the separator [x] or by nothing is matched
    whole. *)
Lemma matchDecimal_plain s t :
  isPlainDecimal s = true -> t = "" \/ (exists r, t = String "x" r) ->
  ProductDetail.matchDecimal (s ++ t) = Some (s, t).
Proof.
  intros Hs Ht.
  assert (Hnd : match t with String c _ => isDigit c = false
                | EmptyString => True end).
  { destruct Ht as [->|[r ->]]; [exact I|reflexivity]. }
  destruct (isPlainDecimal_shape s Hs) as (ip & Hip & Hne & [->|Hfp]).
  - unfold ProductDetail.matchDecimal. rewrite (spanDigits_app ip t Hip Hnd).
    destruct ip as [|c ip]; [congruence|].
    destruct Ht as [->|[r ->]]; reflexivity.
  - destruct Hfp as (fp & Hfp & Hfne & ->).
    unfold ProductDetail.matchDecimal.
    rewrite append_assoc.
    rewrite (spanDigits_app ip (("." ++ fp) ++ t) Hip) by reflexivity.
    destruct ip as [|c ip]; [congruence|].
    change (("." ++ fp) ++ t) with (String "." (fp ++ t)).
    cbv iota. rewrite (spanDigits_app fp t Hfp Hnd).
    destruct fp as [|cf fp]; [congruence|]. simpl. reflexivity.
Qed.

(** An ASCII character that is no white space stays, and what follows it
    is treated on its own. *)
Lemma removeSpaces_cons c r :
  (N_of_ascii c <? 128)%N = true -> isSpace c = false ->
  ProductDetail.removeSpaces (String c r) =
  String c (ProductDetail.removeSpaces r).
Proof.
  intros Ha Hs. cbn [ProductDetail.removeSpaces]. rewrite Hs.
  destruct r as [|c2 r2]; [reflexivity|].
  rewrite (JSFacts.isSpace2_ascii _ _ Ha).
  destruct r2 as [|c3 r3]; [reflexivity|].
  now rewrite (JSFacts.isSpace3_ascii _ _ _ Ha).
Qed.

Lemma removeSpaces_app a b :
  isASCII a = true ->
  ProductDetail.removeSpaces (a ++ b) =
  ProductDetail.removeSpaces a ++ ProductDetail.removeSpaces b.
Proof.
  induction a as [|c a IH]; [reflexivity|]. cbn [isASCII]. intros H.
  apply andb_true_iff in H. destruct H as [Hc Ha].
  change (String c a ++ b) with (String c (a ++ b)).
  destruct (isSpace c) eqn:Hs.
  - cbn [ProductDetail.removeSpaces]. rewrite Hs. exact (IH Ha).
  - rewrite !(removeSpaces_cons c _ Hc Hs), (IH Ha). reflexivity.
Qed.

Lemma removeSpaces_digits d :
  all isDigit d = true -> ProductDetail.removeSpaces d = d.
Proof.
  induction d as [|c d IH]; [reflexivity|]. cbn [all]. intros H.
  apply andb_true_iff in H. destruct H as [Hc Hd].
  rewrite (removeSpaces_cons c d (isDigit_ascii c Hc) (isDigit_not_space c Hc)),
    (IH Hd). reflexivity.
Qed.

Lemma plain_ascii s : isPlainDecimal s = true -> isASCII s = true.
Proof.
  intros Hs.
  destruct (isPlainDecimal_shape s Hs) as (ip & Hip & _ & [->|Hfp]).
  - apply digits_ascii, Hip.
  - destruct Hfp as (fp & Hfp & _ & ->).
    pose proof (digits_ascii ip Hip) as Hi.
    pose proof (digits_ascii fp Hfp) as Hf.
    clear Hs Hip. induction ip as [|c ip IH]; cbn [append isASCII] in *.
    + exact Hf.
    + apply andb_true_iff in Hi. destruct Hi as [-> Hi]. now apply IH.
Qed.

Lemma removeSpaces_plain s :
  isPlainDecimal s = true -> ProductDetail.removeSpaces s = s.
Proof.
  intros Hs.
  destruct (isPlainDecimal_shape s Hs) as (ip & Hip & _ & [->|Hfp]).
  - apply removeSpaces_digits, Hip.
  - destruct Hfp as (fp & Hfp & _ & ->).
    rewrite (removeSpaces_app ip _ (digits_ascii ip Hip)).
    change ("." ++ fp) with (String "." fp).
    rewrite (removeSpaces_cons "." fp eq_refl eq_refl).
    rewrite (removeSpaces_digits ip Hip), (removeSpaces_digits fp Hfp).
    reflexivity.
Qed.

Lemma isPlainDecimal_not_empty s :
  isPlainDecimal s = true -> exists c r, s = String c r /\ isDigit c = true.
Proof.
  intros Hs.
  destruct (isPlainDecimal_shape s Hs) as (ip & Hip & Hne & H).
  destruct ip as [|c ip]; [congruence|].
  simpl in Hip. apply andb_true_iff in Hip. destruct Hip as [Hc _].
  destruct H as [->|(fp & _ & _ & ->)]; simpl; eauto.
Qed.

(** The detail page reads the size the form composed from two plain
    decimals as those two decimals. *)
Lemma matchSize_composeSize l h :
  isPlainDecimal l = true -> isPlainDecimal h = true ->
  ProductDetail.matchSize (ProductDetail.removeSpaces (composeSize l h)) =
  Some (l, h).
Proof.
  intros Hl Hh.
  destruct (isPlainDecimal_not_empty l Hl) as (cl & rl & El & _).
  destruct (isPlainDecimal_not_empty h Hh) as (ch & rh & Eh & _).
  assert (Hc : composeSize l h = l ++ String "x" h)
    by (rewrite El, Eh; reflexivity).
  rewrite Hc.
  change (l ++ String "x" h) with (l ++ "x" ++ h).
  rewrite (removeSpaces_app l _ (plain_ascii l Hl)).
  change ("x" ++ h) with (String "x" h).
  rewrite (removeSpaces_cons "x" h eq_refl eq_refl).
  rewrite (removeSpaces_plain l Hl), (removeSpaces_plain h Hh).
  unfold ProductDetail.matchSize.
  rewrite (matchDecimal_plain l (String "x" h) Hl) by eauto.
  change (ProductDetail.isSeparator "x") with true. cbv iota.
  rewrite <- (append_nil_r h) at 1.
  rewrite (matchDecimal_plain h "" Hh) by auto. reflexivity.
Qed.

(** *** What [parseFloat] makes of text that starts with a digit *)

Lemma ofDecimal_signBit neg m e : signBit (ofDecimal neg m e) = Some neg.
Proof.
  unfold ofDecimal. destruct m as [|p]; [reflexivity|].
  destruct (0 <=? e) eqn:E.
  - apply JSFacts.binary_round_signBit.
  - apply Z.leb_gt in E.
    pose proof (JSFacts.div_core_nonneg (Zpos p) 0 (10 ^ (- e)) 0) as Hq.
    destruct (SFdiv_core_binary prec emax (Zpos p) 0 (10 ^ (- e)) 0)
      as [[q e'] l].
    apply JSFacts.binary_round_aux_signBit. apply Hq; [lia|].
    apply Z.pow_pos_nonneg; lia.
Qed.

Lemma parseFloat_digit_first c r :
  isDigit c = true -> signBit (parseFloat (String c r)) = Some false.
Proof.
  intros Hc.
  assert (H : parseFloat (String c r) =
              let '(ip, r1) := spanDigits (String c r) in
              let '(fp, r2) :=
                match r1 with
                | String "." r => spanDigits r
                | _ => (EmptyString, r1)
                end in
              match ip, fp with
              | EmptyString, EmptyString => NaN
              | _, _ =>
                  ofDecimal false (digitsValue (ip ++ fp))
                    (exponentPart r2 - Z.of_nat (String.length fp))
              end).
  { unfold parseFloat.
    rewrite (JSFacts.trimStart_ascii c r (isDigit_ascii c Hc)
               (isDigit_not_space c Hc)).
    apply isDigit_cases in Hc. simpl in Hc.
    repeat (destruct Hc as [<-|Hc]; [reflexivity|]). destruct Hc. }
  rewrite H. cbn [spanDigits]. rewrite Hc.
  destruct (spanDigits r) as [d r1].
  destruct (match r1 with String "." r0 => spanDigits r0
            | _ => (EmptyString, r1) end) as [fp r2].
  apply ofDecimal_signBit.
Qed.

Lemma parseFloat_plain s :
  isPlainDecimal s = true -> signBit (parseFloat s) = Some false.
Proof.
  intros Hs. destruct (isPlainDecimal_not_empty s Hs) as (c & r & -> & Hc).
  apply parseFloat_digit_first, Hc.
Qed.

(** X2: for a size the form composed from a plain decimal length and
    height, a piece count that is a number other than zero and a unit that
    is neither [in] nor [inches] (such as [cm]), the formula the detail page
    derives from the stored size, unit and piece count is the very string the
    form showed as its preview. *)
Theorem X2_detail_formula_matches_form (l h p u q : string) :
  isPlainDecimal l = true -> isPlainDecimal h = true ->
  ProductDetail.falsyNumber (parseFloat p) = false ->
  u <> "in" -> u <> "inches" ->
  ProductDetail.calculateQuantityFormula (composeSize l h) u (parseFloat p) =
  ProductForm.calculationPreview
    (ProductForm.quantityEffect (ProductForm.typed l h u p q)).
Proof.
  intros Hl Hh Hp Hu1 Hu2.
  assert (Hnl : isNaN (parseFloat l) = false)
    by (apply JSFacts.isNaN_signBit, parseFloat_plain, Hl).
  assert (Hnh : isNaN (parseFloat h) = false)
    by (apply JSFacts.isNaN_signBit, parseFloat_plain, Hh).
  assert (Hnp : isNaN (parseFloat p) = false)
    by (destruct (parseFloat p); simpl in *; congruence).
  rewrite (AreaCalculator.quantityEffect_computes
             (ProductForm.typed l h u p q) eq_refl Hnl Hnh Hnp).
  cbv zeta. cbn [ProductForm.calculationPreview ProductForm.setCalculationPreview].
  unfold ProductForm.parsedLength, ProductForm.parsedHeight,
    ProductForm.parsedPieces, ProductForm.typed.
  cbn [ProductForm.values ProductForm.sizeLength ProductForm.sizeHeight
       ProductForm.numberOfPieces ProductForm.sizeUnit ProductForm.text].
  unfold ProductForm.calculateQuantity, ProductDetail.calculateQuantityFormula.
  apply String.eqb_neq in Hu1. apply String.eqb_neq in Hu2.
  rewrite Hu1, Hu2, Hp, (matchSize_composeSize l h Hl Hh).
  destruct (isPlainDecimal_not_empty l Hl) as (cl & rl & -> & _).
  destruct (isPlainDecimal_not_empty h Hh) as (ch & rh & -> & _).
  reflexivity.
Qed.

Lemma X2_detail_formula_matches_form_witness :
  ProductDetail.calculateQuantityFormula (composeSize "60.5" "120") "cm"
    (parseFloat "10") =
  ProductForm.calculationPreview
    (ProductForm.quantityEffect (ProductForm.typed "60.5" "120" "cm" "10" "")).
Proof.
  apply X2_detail_formula_matches_form; try reflexivity; discriminate.
Defined.

(** X3: whenever [parseSizeString] accepts a text, the length and the
    height it returns are numbers with a clear sign bit: never NaN, never
    negative, not even a negative zero.  This holds whatever the engine's
    [toLowerCase] makes of characters outside ASCII. *)
Theorem X3_parseSizeString_numbers (lowerCaseUnicode : string -> string)
  (sizeStr : string) (sz : Size) :
  parseSizeString lowerCaseUnicode sizeStr = Some sz ->
  signBit (length sz) = Some false /\ signBit (height sz) = Some false.
Proof.
  unfold parseSizeString, ProductDetail.matchSize. cbv zeta.
  set (t := toLowerCase lowerCaseUnicode (ProductDetail.removeSpaces sizeStr)).
  destruct (ProductDetail.matchDecimal t) as [[g1 r1]|] eqn:E1;
    [|discriminate].
  destruct r1 as [|c r1]; [discriminate|].
  destruct (ProductDetail.isSeparator c); [|discriminate].
  destruct (ProductDetail.matchDecimal r1) as [[g2 r2]|] eqn:E2;
    [|discriminate].
  destruct r2; [|discriminate]. intros [= <-]. cbn [length height].
  destruct (matchDecimal_starts_with_digit _ _ _ E1) as (c1 & g1' & -> & H1).
  destruct (matchDecimal_starts_with_digit _ _ _ E2) as (c2 & g2' & -> & H2).
  split; apply parseFloat_digit_first; assumption.
Qed.

Lemma X3_parseSizeString_numbers_witness :
  signBit (length {| length := parseFloat "60"; height := parseFloat "120" |})
    = Some false /\
  signBit (height {| length := parseFloat "60"; height := parseFloat "120" |})
    = Some false.
Proof.
  apply (X3_parseSizeString_numbers (fun s => s) "60 X 120"). reflexivity.
Defined.

End FormTextFacts.

(** ** Lists that travel as comma-separated text *)

Module ListTextFacts.

Import JS Text TextFacts.

Lemma joinWith_comma_not_empty w ws :
  w <> "" -> exists c r, joinWith "," (w :: ws) = String c r.
Proof.
  intros Hw. destruct w as [|c r]; [congruence|].
  destruct ws; simpl; eauto.
Qed.

Lemma map_fixed {A} (f : A -> A) (l : list A) :
  Forall (fun x => f x = x) l -> map f l = l.
Proof. induction 1 as [|x l Hx _ IH]; simpl; congruence. Qed.

Lemma filter_all {A} (p : A -> bool) (l : list A) :
  Forall (fun x => p x = true) l -> filter p l = l.
Proof.
  induction 1 as [|x l Hx _ IH]; simpl; [reflexivity|]. now rewrite Hx, IH.
Qed.

Lemma finishes_round_trip (lowerCaseUnicode : string -> string)
  (fs : list string) :
  Forall (fun f => FormText.isListToken lowerCaseUnicode f = true) fs ->
  FormText.parseFinishes lowerCaseUnicode (Some (FormText.submittedList fs))
  = fs.
Proof.
  intros H. unfold FormText.submittedList.
  destruct fs as [|f fs]; [reflexivity|].
  assert (Hparts : Forall (fun f =>
            f <> "" /\ all (fun c => negb (Ascii.eqb "," c)) f = true /\
            trim f = f /\ toLowerCase lowerCaseUnicode f = f) (f :: fs)).
  { eapply Forall_impl; [|exact H]. intros a Ha. unfold FormText.isListToken in Ha.
    apply andb_true_iff in Ha. destruct Ha as [Ha Hl].
    apply andb_true_iff in Ha. destruct Ha as [Ha Ht].
    apply andb_true_iff in Ha. destruct Ha as [Hne Hc].
    apply String.eqb_eq in Hl. apply String.eqb_eq in Ht.
    repeat split; try assumption.
    intros ->. discriminate Hne. }
  assert (Hf : f <> "") by (inversion Hparts; tauto).
  destruct (joinWith_comma_not_empty f fs Hf) as (c & r & E).
  unfold FormText.parseFinishes. rewrite E, <- E.
  rewrite (splitOn_joinWith "," (f :: fs)); [|discriminate|].
  - apply map_fixed. eapply Forall_impl; [|exact Hparts].
    intros a (_ & _ & Ht & Hl). now rewrite Ht, Hl.
  - eapply Forall_impl; [|exact Hparts]. intros a (_ & Hc & _). exact Hc.
Qed.

(** Every choice of finishes the buttons offer is of that kind. *)
Lemma FINISHES_are_tokens (lowerCaseUnicode : string -> string) :
  Forall (fun f => FormText.isListToken lowerCaseUnicode f = true)
         (FormText.FINISHES lowerCaseUnicode).
Proof. repeat constructor. Qed.

(** X4: finishes that the form submits as one comma-separated text come
    back from [parseFinishes] as the same list, entry for entry, whenever
    each entry is not empty, holds no comma and is left as it is by [trim]
    and by [toLowerCase]; the empty list comes back empty.  Every list
    made of the finishes the buttons of the form offer is of that kind.
    This holds whatever the engine's [toLowerCase] makes of characters
    outside ASCII. *)
Theorem X4_finishes_round_trip (lowerCaseUnicode : string -> string)
  (fs : list string) :
  (Forall (fun f => FormText.isListToken lowerCaseUnicode f = true) fs ->
   FormText.parseFinishes lowerCaseUnicode (Some (FormText.submittedList fs))
   = fs) /\
  (incl fs (FormText.FINISHES lowerCaseUnicode) ->
   FormText.parseFinishes lowerCaseUnicode (Some (FormText.submittedList fs))
   = fs).
Proof.
  split; [apply finishes_round_trip|]. intros H. apply finishes_round_trip.
  apply Forall_forall. intros f Hf.
  exact (proj1 (Forall_forall _ _) (FINISHES_are_tokens lowerCaseUnicode)
               f (H f Hf)).
Qed.

Lemma X4_finishes_round_trip_witness :
  FormText.parseFinishes (fun s => s)
    (Some (FormText.submittedList ["polish"; "river"; "dual"])) =
  ["polish"; "river"; "dual"].
Proof.
  apply (proj2 (X4_finishes_round_trip (fun s => s)
                  ["polish"; "river"; "dual"])).
  intros f Hf. simpl in Hf. vm_compute. tauto.
Defined.

Lemma areas_round_trip (areas : list string) :
  Forall (fun a => DetailPage.isAreaToken a = true) areas ->
  DetailPage.getApplicationAreas
    (DetailPage.AreasText (FormText.submittedList areas)) = areas.
Proof.
  intros H. unfold FormText.submittedList.
  destruct areas as [|a areas]; [reflexivity|].
  assert (Hparts : Forall (fun a =>
            a <> "" /\ all (fun c => negb (Ascii.eqb "," c)) a = true /\
            trim a = a) (a :: areas)).
  { eapply Forall_impl; [|exact H]. intros x Hx.
    unfold DetailPage.isAreaToken in Hx.
    apply andb_true_iff in Hx. destruct Hx as [Hx Ht].
    apply andb_true_iff in Hx. destruct Hx as [Hne Hc].
    apply String.eqb_eq in Ht. repeat split; try assumption.
    intros ->. discriminate Hne. }
  assert (Ha : a <> "") by (inversion Hparts; tauto).
  destruct (joinWith_comma_not_empty a areas Ha) as (c & r & E).
  unfold DetailPage.getApplicationAreas. rewrite E, <- E.
  rewrite (splitOn_joinWith "," (a :: areas)); [|discriminate|].
  - rewrite filter_all.
    + apply map_fixed. eapply Forall_impl; [|exact Hparts].
      intros x (_ & _ & Ht). exact Ht.
    + eapply Forall_impl; [|exact Hparts]. intros x (Hne & _).
      apply negb_true_iff, String.eqb_neq, Hne.
  - eapply Forall_impl; [|exact Hparts]. intros x (_ & Hc & _). exact Hc.
Qed.

Lemma APPLICATION_AREAS_are_tokens :
  Forall (fun a => DetailPage.isAreaToken a = true)
         DetailPage.APPLICATION_AREAS.
Proof. repeat constructor. Qed.

(** White space of more than one byte at an end of an entry is white space
    to [trim] too: an entry that ends in U+00A0 is no token. *)
Example nbsp_is_trimmed :
  trim (String "194" (String "160" ("Walls" ++ String "194" (String "160" ""))))
  = "Walls" /\
  DetailPage.isAreaToken ("Walls" ++ String "194" (String "160" "")) = false.
Proof. split; reflexivity. Qed.

(** X5: application areas that the form submits as one comma-separated
    text are shown by the detail page as the same list, entry for entry,
    whenever each entry is not empty, holds no comma and is left as it is
    by [trim], that is, has no white space, of ASCII or not, at its ends;
    the empty list is shown as no areas.  Every list made of the areas the
    buttons of the form offer is of that kind. *)
Theorem X5_application_areas_round_trip (areas : list string) :
  (Forall (fun a => DetailPage.isAreaToken a = true) areas ->
   DetailPage.getApplicationAreas
     (DetailPage.AreasText (FormText.submittedList areas)) = areas) /\
  (incl areas DetailPage.APPLICATION_AREAS ->
   DetailPage.getApplicationAreas
     (DetailPage.AreasText (FormText.submittedList areas)) = areas).
Proof.
  split; [apply areas_round_trip|]. intros H. apply areas_round_trip.
  apply Forall_forall. intros a Ha.
  exact (proj1 (Forall_forall _ _) APPLICATION_AREAS_are_tokens a (H a Ha)).
Qed.

Lemma X5_application_areas_round_trip_witness :
  DetailPage.getApplicationAreas
    (DetailPage.AreasText (FormText.submittedList ["Flooring"; "Walls"])) =
  ["Flooring"; "Walls"].
Proof.
  apply (proj2 (X5_application_areas_round_trip ["Flooring"; "Walls"])).
  intros a Ha. simpl in Ha. vm_compute. tauto.
Defined.

End ListTextFacts.

(** ** The image gallery of the detail page *)

Module GalleryFacts.

Import DetailPage.

(** An index the gallery can show: both indices agree and point at an
    image. *)
Lemma inRange_next n i :
  0 <= i < Z.of_nat n -> 0 <= Z.rem (i + 1) (Z.of_nat n) < Z.of_nat n.
Proof.
  intros H. rewrite Z.rem_mod_nonneg by lia.
  apply Z.mod_pos_bound. lia.
Qed.

Lemma nextIndex_in_range n i :
  0 <= i < Z.of_nat n ->
  exists j, nextIndex n (At i) = At j /\ 0 <= j < Z.of_nat n.
Proof.
  intros H. unfold nextIndex.
  destruct (n =? 0)%nat eqn:E; [apply Nat.eqb_eq in E; lia|].
  eexists. split; [reflexivity|]. apply inRange_next, H.
Qed.

Lemma previousIndex_in_range n i :
  0 <= i < Z.of_nat n ->
  exists j, previousIndex n (At i) = At j /\ 0 <= j < Z.of_nat n.
Proof.
  intros H. unfold previousIndex.
  destruct i as [|p|p]; [| |lia]; eexists; (split; [reflexivity|]); lia.
Qed.

Lemma shown_in_range (image : list string) (g : Gallery) :
  image <> [] -> shown image g ->
  exists i,
    currentImageIndex g = At i /\ selectedThumbnail g = At i /\
    0 <= i < Z.of_nat (List.length image).
Proof.
  intros Hne H.
  assert (Hn : 0 < Z.of_nat (List.length image))
    by (destruct image; [congruence | simpl; lia]).
  induction H as [|index g _ _ Hi|g _ IH|g _ IH].
  - exists 0. repeat split; lia.
  - exists (Z.of_nat index). repeat split; lia.
  - destruct IH as (i & Hc & Hs & Hr).
    destruct (nextIndex_in_range _ i Hr) as (j & Hj & Hjr).
    exists j. unfold nextImage. cbn [currentImageIndex selectedThumbnail].
    rewrite Hc, Hs, Hj. auto.
  - destruct IH as (i & Hc & Hs & Hr).
    destruct (previousIndex_in_range _ i Hr) as (j & Hj & Hjr).
    exists j. unfold previousImage. cbn [currentImageIndex selectedThumbnail].
    rewrite Hc, Hs, Hj. auto.
Qed.

(** X6: on a product with at least one image, wherever the arrows and the
    thumbnails lead, the image shown and the thumbnail marked are the same
    index, and that index points at an image of the product. *)
Theorem X6_gallery_index_in_range (image : list string) (g : Gallery) :
  image <> [] -> shown image g ->
  exists i,
    currentImageIndex g = At i /\ selectedThumbnail g = At i /\
    0 <= i < Z.of_nat (List.length image).
Proof. apply shown_in_range. Qed.

Lemma X6_gallery_index_in_range_witness :
  exists i,
    currentImageIndex
      (nextImage (Some ["a.png"; "b.png"]) (nextImage (Some ["a.png"; "b.png"])
         initialGallery)) = At i /\
    selectedThumbnail
      (nextImage (Some ["a.png"; "b.png"]) (nextImage (Some ["a.png"; "b.png"])
         initialGallery)) = At i /\
    0 <= i < Z.of_nat (List.length ["a.png"; "b.png"]).
Proof.
  apply (X6_gallery_index_in_range ["a.png"; "b.png"]).
  - discriminate.
  - apply shown_next, shown_next, shown_first.
Defined.

Lemma previous_next_index n i :
  0 <= i < Z.of_nat n -> previousIndex n (nextIndex n (At i)) = At i.
Proof.
  intros H. unfold nextIndex.
  destruct (n =? 0)%nat eqn:E; [apply Nat.eqb_eq in E; lia|].
  rewrite Z.rem_mod_nonneg by lia.
  destruct (Z.eq_dec (i + 1) (Z.of_nat n)) as [Hlast|Hmid].
  - rewrite Hlast, Z.mod_same by lia. cbn [previousIndex]. f_equal. lia.
  - rewrite Z.mod_small by lia. unfold previousIndex.
    destruct (i + 1) as [|p|p] eqn:Ei; [lia| |lia]. f_equal. lia.
Qed.

Lemma next_previous_index n i :
  0 <= i < Z.of_nat n -> nextIndex n (previousIndex n (At i)) = At i.
Proof.
  intros H. unfold previousIndex.
  assert (E : (n =? 0)%nat = false) by (apply Nat.eqb_neq; lia).
  destruct i as [|p|p]; [| |lia]; unfold nextIndex; rewrite E;
    rewrite Z.rem_mod_nonneg by lia; f_equal.
  - replace (Z.of_nat n - 1 + 1) with (Z.of_nat n) by lia.
    apply Z.mod_same. lia.
  - replace (Z.pos p - 1 + 1) with (Z.pos p) by lia.
    apply Z.mod_small. lia.
Qed.

(** X7: on a product with at least one image, the two arrows undo each
    other from every state the gallery can be in: next then previous, and
    previous then next, both lead back to the same image and thumbnail, the
    step from the last image to the first included. *)
Theorem X7_gallery_arrows_inverse (image : list string) (g : Gallery) :
  image <> [] -> shown image g ->
  previousImage (Some image) (nextImage (Some image) g) = g /\
  nextImage (Some image) (previousImage (Some image) g) = g.
Proof.
  intros Hne H.
  destruct (shown_in_range image g Hne H) as (i & Hc & Hs & Hr).
  destruct g as [c s]. cbn [currentImageIndex selectedThumbnail] in *.
  subst c s. unfold previousImage, nextImage.
  cbn [currentImageIndex selectedThumbnail].
  rewrite previous_next_index, next_previous_index by exact Hr.
  split; reflexivity.
Qed.

Lemma X7_gallery_arrows_inverse_witness :
  previousImage (Some ["a.png"; "b.png"; "c.png"])
    (nextImage (Some ["a.png"; "b.png"; "c.png"]) (handleThumbnailClick 2 initialGallery)) =
  handleThumbnailClick 2 initialGallery /\
  nextImage (Some ["a.png"; "b.png"; "c.png"])
    (previousImage (Some ["a.png"; "b.png"; "c.png"]) (handleThumbnailClick 2 initialGallery)) =
  handleThumbnailClick 2 initialGallery.
Proof.
  apply (X7_gallery_arrows_inverse ["a.png"; "b.png"; "c.png"]).
  - discriminate.
  - apply shown_thumbnail; [apply shown_first | simpl; lia].
Defined.

End GalleryFacts.

(** ** The feeder session *)

Module FeederAuthFacts.

Import FeederAuth.

Lemma getItem_removeItem_same key s : getItem key (removeItem key s) = None.
Proof.
  induction s as [|[k v] s IH]; simpl; [reflexivity|].
  destruct (String.eqb k key) eqn:E; simpl; [exact IH|]. now rewrite E.
Qed.

Lemma getItem_removeItem_other key key' s :
  key' <> key -> getItem key' (removeItem key s) = getItem key' s.
Proof.
  intros Hne. induction s as [|[k v] s IH]; simpl; [reflexivity|].
  destruct (String.eqb k key) eqn:E; simpl.
  - apply String.eqb_eq in E. subst k.
    destruct (String.eqb key key') eqn:E'; [|exact IH].
    apply String.eqb_eq in E'. congruence.
  - now rewrite IH.
Qed.

Lemma getItem_setItem_same key value s :
  getItem key (setItem key value s) = Some value.
Proof.
  induction s as [|[k v] s IH]; simpl.
  - now rewrite String.eqb_refl.
  - destruct (String.eqb k key) eqn:E; simpl; now rewrite E.
Qed.

Lemma getItem_setItem_other key key' value s :
  key' <> key -> getItem key' (setItem key value s) = getItem key' s.
Proof.
  intros Hne. induction s as [|[k v] s IH]; simpl.
  - destruct (String.eqb key key') eqn:E; [|reflexivity].
    apply String.eqb_eq in E. congruence.
  - destruct (String.eqb k key) eqn:E; simpl; [|now rewrite IH].
    apply String.eqb_eq in E. subst k.
    destruct (String.eqb key key') eqn:E'; [|reflexivity].
    apply String.eqb_eq in E'. congruence.
Qed.

(** X8: after [logoutFeeder] the session is not authenticated, whatever the
    storage held, and the route guard then shows the spinner and sends the
    browser to [/login]; a key other than the four session keys keeps its
    value. *)
Theorem X8_logout_ends_session (w : Window) :
  isFeederAuthenticated (logoutFeeder w) = false /\
  mountEffect (logoutFeeder w) initialRoute =
    ({| isLoading := true; isAuthenticated := false |}, ["/login"]) /\
  render (fst (mountEffect (logoutFeeder w) initialRoute)) = Spinner /\
  (forall localStorage after key,
     w = Some localStorage -> logoutFeeder w = Some after ->
     ~ In key ["isFeederAuthenticated"; "feederToken"; "feederRefreshToken";
               "feederName"] ->
     getItem key after = getItem key localStorage).
Proof.
  assert (H : isFeederAuthenticated (logoutFeeder w) = false).
  { destruct w as [s|]; [|reflexivity]. unfold logoutFeeder, isFeederAuthenticated.
    rewrite !(getItem_removeItem_other _ "isFeederAuthenticated") by discriminate.
    now rewrite getItem_removeItem_same. }
  split; [exact H|]. unfold mountEffect. rewrite H. cbn [negb fst render isLoading].
  split; [reflexivity|]. split; [reflexivity|].
  intros s after key -> [= <-] Hk. simpl in Hk.
  rewrite !getItem_removeItem_other; [reflexivity| | | |];
    intros ->; tauto.
Qed.

Lemma X8_logout_ends_session_witness :
  isFeederAuthenticated
    (Some [("feederToken", "t"); ("theme", "dark");
           ("isFeederAuthenticated", "true")]) = true /\
  isFeederAuthenticated
    (logoutFeeder
       (Some [("feederToken", "t"); ("theme", "dark");
              ("isFeederAuthenticated", "true")])) = false /\
  getItem "theme" [("theme", "dark")]
  = getItem "theme" [("feederToken", "t"); ("theme", "dark");
                     ("isFeederAuthenticated", "true")].
Proof.
  split; [reflexivity|].
  pose proof (X8_logout_ends_session
                (Some [("feederToken", "t"); ("theme", "dark");
                       ("isFeederAuthenticated", "true")]))
    as (H1 & _ & _ & H4).
  split; [exact H1|].
  apply (H4 _ [("theme", "dark")] "theme" eq_refl eq_refl).
  simpl. intros [H|[H|[H|[H|[]]]]]; discriminate.
Defined.

(** X9: after the login page has stored a successful login, the session
    counts as authenticated exactly when the access token it received is
    not empty, whatever the storage held before. *)
Theorem X9_login_authenticates (localStorage : Storage) (d : LoginData) :
  isFeederAuthenticated (storeLogin (Some localStorage) (Some d)) =
  negb (String.eqb (accessToken d) "").
Proof.
  unfold storeLogin, isFeederAuthenticated.
  rewrite !(getItem_setItem_other _ "isFeederAuthenticated") by discriminate.
  rewrite getItem_setItem_same.
  rewrite !(getItem_setItem_other _ "feederToken") by discriminate.
  rewrite getItem_setItem_same.
  destruct (accessToken d); reflexivity.
Qed.

(** X10: once it has mounted, the route guard renders the page it protects
    exactly when the session is authenticated; otherwise it goes on showing
    the spinner and has sent the browser to [/login].  It never renders the
    page or nothing at all for a session that is not authenticated. *)
Theorem X10_guard_shows_page_iff_authenticated (w : Window) :
  (render (fst (mountEffect w initialRoute)) = Children <->
   isFeederAuthenticated w = true) /\
  (isFeederAuthenticated w = true ->
   snd (mountEffect w initialRoute) = []) /\
  (isFeederAuthenticated w = false ->
   render (fst (mountEffect w initialRoute)) = Spinner /\
   snd (mountEffect w initialRoute) = ["/login"]).
Proof.
  unfold mountEffect. destruct (isFeederAuthenticated w); cbn.
  - repeat split; auto; discriminate.
  - repeat split; auto; discriminate.
Qed.

Lemma X10_guard_shows_page_iff_authenticated_witness :
  snd (mountEffect
         (Some [("isFeederAuthenticated", "true"); ("feederToken", "t0k3n")])
         initialRoute) = [].
Proof.
  apply (proj1 (proj2 (X10_guard_shows_page_iff_authenticated _))).
  reflexivity.
Defined.

End FeederAuthFacts.

(** * The image proxy *)

Module ProxyImageFacts.

Import ProxyImage.

Lemma decode_encode (u : string) :
  percentDecode (plusToSpace
    (queryEncode (ProductVisualizer.encodeURIComponent u))) = u.
Proof.
  unfold plusToSpace.
  induction u as [|c u IH]; [reflexivity|].
  destruct c as [[] [] [] [] [] [] [] []]; cbn; rewrite IH; reflexivity.
Qed.

(** The encoded address holds no [#], and its escaped form no [&]. *)
Lemma encoded_no_hash (u : string) :
  Text.all (fun c => negb (Ascii.eqb c "#"))
           (ProductVisualizer.encodeURIComponent u) = true.
Proof.
  induction u as [|c u IH]; [reflexivity|].
  destruct c as [[] [] [] [] [] [] [] []]; cbn; exact IH.
Qed.

Lemma escaped_no_ampersand (u : string) :
  Text.all (fun c => negb (Ascii.eqb "&" c))
           (queryEncode (ProductVisualizer.encodeURIComponent u)) = true.
Proof.
  induction u as [|c u IH]; [reflexivity|].
  destruct c as [[] [] [] [] [] [] [] []]; cbn; exact IH.
Qed.

Lemma upTo_all (c : ascii) (s : string) :
  Text.all (fun x => negb (Ascii.eqb x c)) s = true -> upTo c s = s.
Proof.
  induction s as [|x s IH]; simpl; [reflexivity|].
  intros H. apply andb_true_iff in H. destruct H as [Hx Hs].
  destruct (Ascii.eqb x c); [discriminate|]. now rewrite IH.
Qed.

Lemma upTo_app (c : ascii) (a b : string) :
  Text.all (fun x => negb (Ascii.eqb x c)) a = true ->
  upTo c (a ++ b) = a ++ upTo c b.
Proof.
  induction a as [|x a IH]; simpl; [reflexivity|].
  intros H. apply andb_true_iff in H. destruct H as [Hx Hs].
  destruct (Ascii.eqb x c); [discriminate|]. now rewrite IH.
Qed.

Lemma afterFirst_app (c : ascii) (a b : string) :
  Text.all (fun x => negb (Ascii.eqb x c)) a = true ->
  afterFirst c (a ++ b) = afterFirst c b.
Proof.
  induction a as [|x a IH]; simpl; [reflexivity|].
  intros H. apply andb_true_iff in H. destruct H as [Hx Hs].
  destruct (Ascii.eqb x c); [discriminate|]. now apply IH.
Qed.

Lemma all_and (p q : ascii -> bool) (s : string) :
  Text.all (fun c => p c && q c) s = true ->
  Text.all p s = true /\ Text.all q s = true.
Proof.
  induction s as [|x s IH]; simpl; [now split|].
  rewrite !andb_true_iff. intros [[Hp Hq] Hs].
  destruct (IH Hs) as [IHp IHq]. now rewrite Hp, Hq, IHp, IHq.
Qed.

Lemma parsePairs_url (q : string) :
  Text.all (fun c => negb (Ascii.eqb "&" c)) q = true ->
  parsePairs ("url=" ++ q) = [("url", percentDecode (plusToSpace q))].
Proof.
  intros Hq. unfold parsePairs, Text.splitOn.
  rewrite TextFacts.splitBy_whole by exact Hq. reflexivity.
Qed.

Lemma searchOf_proxied (origin imageUrl : string) :
  Text.all (fun c => negb (Ascii.eqb c "?") && negb (Ascii.eqb c "#"))
           origin = true ->
  searchOf (origin ++ proxied imageUrl)
  = "url=" ++ queryEncode (ProductVisualizer.encodeURIComponent imageUrl).
Proof.
  intros Horigin. apply all_and in Horigin. destruct Horigin as [Hq Hh].
  unfold searchOf, proxied.
  rewrite (upTo_app _ _ _ Hh).
  change (upTo "#" ("/api/proxy-image?url="
                    ++ ProductVisualizer.encodeURIComponent imageUrl))
    with ("/api/proxy-image?url="
          ++ upTo "#" (ProductVisualizer.encodeURIComponent imageUrl)).
  rewrite (upTo_all _ _ (encoded_no_hash imageUrl)).
  rewrite (afterFirst_app _ _ _ Hq). reflexivity.
Qed.

(** The server reads back the address the page encoded. *)
Lemma url_parameter (origin imageUrl : string) :
  Text.all (fun c => negb (Ascii.eqb c "?") && negb (Ascii.eqb c "#"))
           origin = true ->
  get "url" (parsePairs (searchOf (origin ++ proxied imageUrl)))
  = Some imageUrl.
Proof.
  intros Horigin. rewrite (searchOf_proxied _ _ Horigin).
  rewrite (parsePairs_url _ (escaped_no_ampersand imageUrl)).
  simpl get. now rewrite decode_encode.
Qed.

(** X11. A remote image shown by the visualizer goes through the proxy
    route, and the route fetches exactly the address the visualizer was
    given: whatever characters that address holds, the encoding done by the
    page, the escaping done by the URL parser and the decoding done by
    [searchParams.get] cancel out.  The origin the request is sent to is
    any text without [?] and [#]. *)
Theorem X11_proxy_fetches_requested_image
  (fetch : string -> Upstream) (origin imageUrl : string) :
  Text.all (fun c => negb (Ascii.eqb c "?") && negb (Ascii.eqb c "#"))
           origin = true ->
  JS.startsWith "http" imageUrl = true ->
  GET fetch (origin ++ ProductVisualizer.requestedSrc imageUrl)
  = respond fetch imageUrl.
Proof.
  intros Horigin Hhttp. unfold ProductVisualizer.requestedSrc.
  rewrite Hhttp. fold (proxied imageUrl).
  unfold GET. rewrite (url_parameter _ _ Horigin).
  destruct imageUrl; [discriminate | reflexivity].
Qed.

Lemma X11_proxy_fetches_requested_image_witness :
  GET (fun url => if String.eqb url "https://cdn.example/a b&c=d#e.jpg"
                  then Answered true (Some "image/png") (Some "PNG")
                  else Threw)
      ("http://localhost:3000"
       ++ ProductVisualizer.requestedSrc "https://cdn.example/a b&c=d#e.jpg")
  = {| status := 200; body := Blob "PNG";
       headers := [("Content-Type", "image/png");
                   ("Cache-Control", "public, max-age=86400");
                   ("Access-Control-Allow-Origin", "*")] |}.
Proof.
  rewrite (X11_proxy_fetches_requested_image _ "http://localhost:3000"
             "https://cdn.example/a b&c=d#e.jpg");
    reflexivity.
Defined.

(** X12. Whatever the request and whatever the upstream server does, the
    proxy answers with status 200, a day of caching and the open CORS
    header the canvas needs; the body is the upstream image only when a
    [url] parameter was given, the fetch answered with [ok] and the body
    could be read, and it is the SVG placeholder, typed as such, in every
    other case; the content type is never empty. *)
Theorem X12_proxy_always_answers_an_image
  (fetch : string -> Upstream) (requestUrl : string) :
  let r := GET fetch requestUrl in
  status r = 200%Z /\
  (exists contentType,
     headers r = [("Content-Type", contentType);
                  ("Cache-Control", "public, max-age=86400");
                  ("Access-Control-Allow-Origin", "*")] /\
     contentType <> "" /\
     (body r = Placeholder -> contentType = "image/svg+xml")) /\
  (forall bytes,
     body r = Blob bytes <->
     exists url contentType,
       get "url" (parsePairs (searchOf requestUrl)) = Some url /\
       url <> "" /\
       fetch url = Answered true contentType (Some bytes)).
Proof.
  assert (P : forall r,
            r = placeholder ->
            status r = 200%Z /\
            (exists contentType,
               headers r = [("Content-Type", contentType);
                            ("Cache-Control", "public, max-age=86400");
                            ("Access-Control-Allow-Origin", "*")] /\
               contentType <> "" /\
               (body r = Placeholder -> contentType = "image/svg+xml")) /\
            (forall bytes, body r <> Blob bytes)).
  { intros r ->. split; [reflexivity|]. split; [|discriminate].
    exists "image/svg+xml". repeat split; discriminate. }
  unfold GET.
  destruct (get "url" (parsePairs (searchOf requestUrl))) as [[|c u]|] eqn:E.
  - destruct (P _ eq_refl) as (H1 & H2 & H3).
    split; [exact H1|]. split; [exact H2|].
    intros bytes. split; [intros H; now apply H3 in H|].
    intros (url & ct & Hu & Hne & _). congruence.
  - unfold respond.
    destruct (fetch (String c u)) as [|[] ct [blob|]] eqn:F;
      try (destruct (P _ eq_refl) as (H1 & H2 & H3);
           split; [exact H1|]; split; [exact H2|];
           intros bytes; split; [intros H; now apply H3 in H|];
           intros (url & ct' & Hu & Hne & Hf); congruence).
    split; [reflexivity|]. split.
    + exists (FormText.orElse ct "image/jpeg").
      split; [reflexivity|]. split; [|discriminate].
      destruct ct as [[|x y]|]; discriminate.
    + intros bytes. simpl. split.
      * intros H. injection H as <-. exists (String c u), ct.
        repeat split; [discriminate | exact F].
      * intros (url & ct' & Hu & Hne & Hf).
        injection Hu as <-. rewrite F in Hf. now injection Hf as _ <-.
  - destruct (P _ eq_refl) as (H1 & H2 & H3).
    split; [exact H1|]. split; [exact H2|].
    intros bytes. split; [intros H; now apply H3 in H|].
    intros (url & ct & Hu & _). discriminate.
Qed.

End ProxyImageFacts.

(** * The product list with prices *)

Module PriceListFacts.

Import JS Text PriceList.

Lemma positive_number (x : number) :
  isNaN x = false -> leb x (ofZ 0) = false -> gtb x (ofZ 0) = true.
Proof. destruct x as [[]| []| |[] m e]; intros; try discriminate; reflexivity. Qed.

Lemma combine_same {A : Type} (l : list A) (a b : A) :
  In (a, b) (combine l l) -> b = a.
Proof.
  induction l as [|x l IH]; simpl; [tauto|].
  intros [H|H]; [congruence | now apply IH].
Qed.

Lemma combine_map {A : Type} (f : A -> A) (l : list A) (a b : A) :
  In (a, b) (combine l (map f l)) -> b = f a.
Proof.
  induction l as [|x l IH]; simpl; [tauto|].
  intros [H|H]; [congruence | now apply IH].
Qed.

Lemma map_postId_withPrice productId x (l : list Product) :
  map postId
      (map (fun product =>
              if String.eqb (postId product) productId
              then withPrice product x else product) l)
  = map postId l.
Proof.
  induction l as [|p l IH]; simpl; [reflexivity|]. rewrite IH. f_equal.
  now destruct (String.eqb (postId p) productId).
Qed.

(** X13. Pressing the update button of a row, whatever was typed and
    however the request ends: the row is no longer marked as updating; the
    list keeps its products in their order; a product either stays as it
    was or, when the backend reported success, is the row's product with
    the number typed as its new price, a number above zero; and every price
    sent to the backend is one typed in that row and above zero. *)
Theorem X13_price_update_accepts_positive_numbers_only
  (productId : string) (reply : Reply) (st : State) :
  let st' := updatePrice productId reply st in
  updatingPrice st' productId = Some false /\
  map postId (products st') = map postId (products st) /\
  (forall before after,
     In (before, after) (combine (products st) (products st')) ->
     after = before \/
     reply = Succeeded /\ postId before = productId /\
     exists typed,
       priceValues st productId = Some typed /\
       after = withPrice before (toNumber typed) /\
       gtb (toNumber typed) (ofZ 0) = true) /\
  (forall id x,
     In (id, x) (posted st') ->
     In (id, x) (posted st) \/
     id = productId /\
     exists typed,
       priceValues st productId = Some typed /\ x = toNumber typed /\
       gtb x (ofZ 0) = true).
Proof.
  unfold updatePrice.
  destruct (negb (truthy (priceValues st productId))
            || isNaN (toNumber (ProductForm.text (priceValues st productId)))
            || leb (toNumber (ProductForm.text (priceValues st productId)))
                   (ofZ 0)) eqn:G.
  - cbn [setUpdatingPrice toast updatingPrice products posted]; unfold withKey.
    rewrite String.eqb_refl. split; [reflexivity|]. split; [reflexivity|].
    split; [|tauto]. intros before after H. left. exact (combine_same _ _ _ H).
  - apply orb_false_iff in G. destruct G as [G Hle].
    apply orb_false_iff in G. destruct G as [Ht Hn].
    destruct (priceValues st productId) as [typed|] eqn:P; [|discriminate].
    cbn [ProductForm.text] in *.
    pose proof (positive_number _ Hn Hle) as Hpos.
    assert (Hposted :
              forall id x,
                In (id, x) (posted st ++ [(productId, toNumber typed)]) ->
                In (id, x) (posted st) \/
                id = productId /\
                exists t, Some typed = Some t /\ x = toNumber t /\
                          gtb x (ofZ 0) = true).
    { intros id x H. apply in_app_or in H. destruct H as [H|[H|[]]];
        [now left|]. injection H as <- <-. right. split; [reflexivity|].
      exists typed. now repeat split. }
    destruct reply;
      cbn [setUpdatingPrice toast updatingPrice products posted]; unfold withKey;
      rewrite String.eqb_refl; (split; [reflexivity|]).
    + split; [apply map_postId_withPrice|]. split; [|exact Hposted].
      intros before after H. apply combine_map in H. subst after.
      destruct (String.eqb (postId before) productId) eqn:E; [|now left].
      right. apply String.eqb_eq in E. repeat split; try assumption.
      exists typed. now repeat split.
    + split; [reflexivity|]. split; [|exact Hposted].
      intros before after H. left. exact (combine_same _ _ _ H).
    + split; [reflexivity|]. split; [|exact Hposted].
      intros before after H. left. exact (combine_same _ _ _ H).
Qed.

(** *** The search box *)

Lemma prefix_app (a b : string) : String.prefix a (a ++ b) = true.
Proof.
  induction a as [|c a IH]; simpl; [now destruct b|].
  destruct (ascii_dec c c); [exact IH | congruence].
Qed.

Lemma prefix_inv (a h : string) :
  String.prefix a h = true -> exists b, h = a ++ b.
Proof.
  revert h. induction a as [|c a IH]; intros h H; [now exists h|].
  destruct h as [|x h]; [discriminate|]. simpl in H.
  destruct (ascii_dec c x) as [->|]; [|discriminate].
  destruct (IH _ H) as [b ->]. now exists b.
Qed.

Lemma includes_app (a n b : string) : includes n (a ++ n ++ b) = true.
Proof.
  induction a as [|c a IH].
  - simpl append. pose proof (prefix_app n b) as H.
    destruct (n ++ b); cbn [includes]; now rewrite H.
  - simpl append. cbn [includes]. rewrite IH. apply orb_true_r.
Qed.

Lemma includes_inv (n h : string) :
  includes n h = true -> exists a b, h = a ++ n ++ b.
Proof.
  induction h as [|c h IH]; cbn [includes]; intros H.
  - rewrite orb_false_r in H. apply prefix_inv in H. destruct H as [b ->].
    now exists "", b.
  - apply orb_true_iff in H. destruct H as [H|H].
    + apply prefix_inv in H. destruct H as [b ->]. now exists "", b.
    + destruct (IH H) as (a & b & ->). now exists (String c a), b.
Qed.

Lemma includes_part (pre q post h : string) :
  includes (pre ++ q ++ post) h = true -> includes q h = true.
Proof.
  intros H. apply includes_inv in H. destruct H as (a & b & ->).
  rewrite !TextFacts.append_assoc.
  rewrite <- (TextFacts.append_assoc a pre). apply includes_app.
Qed.

(** X14. The search box of the product lists: with an empty search every
    product is shown; a product is shown exactly when it is in the list
    and the lower case of its name contains the lower case of the search
    text; and for a search text of ASCII characters a longer text never
    shows a product that a part of it would hide, so typing more only
    narrows the list.  This holds whatever the engine's [toLowerCase]
    makes of characters outside ASCII, in product names included. *)
Theorem X14_search_narrows (lowerCaseUnicode : string -> string)
  (st : State) (product : Product) :
  filteredProducts lowerCaseUnicode (setSearchQuery "" st) = products st /\
  (forall q,
     In product (filteredProducts lowerCaseUnicode (setSearchQuery q st)) <->
     In product (products st) /\
     exists before after,
       toLowerCase lowerCaseUnicode (name product) =
       before ++ toLowerCase lowerCaseUnicode q ++ after) /\
  (forall pre q post,
     isASCII (pre ++ q ++ post) = true ->
     In product
        (filteredProducts lowerCaseUnicode
           (setSearchQuery (pre ++ q ++ post) st)) ->
     In product (filteredProducts lowerCaseUnicode (setSearchQuery q st))).
Proof.
  unfold filteredProducts.
  cbn [setSearchQuery searchQuery products]. split; [|split].
  - induction (products st) as [|p l IH]; [reflexivity|].
    cbn [filter].
    replace (includes (toLowerCase lowerCaseUnicode "")
                      (toLowerCase lowerCaseUnicode (name p)))
      with true by (now destruct (toLowerCase lowerCaseUnicode (name p))).
    now rewrite IH.
  - intros q. rewrite filter_In. split; intros [Hin H]; (split; [exact Hin|]).
    + now apply includes_inv.
    + destruct H as (a & b & ->). apply includes_app.
  - intros pre q post Hascii. rewrite !filter_In. intros [Hin H].
    split; [exact Hin|].
    pose proof Hascii as Hq. rewrite !JSFacts.isASCII_app in Hq.
    apply andb_true_iff in Hq. destruct Hq as [_ Hq].
    apply andb_true_iff in Hq. destruct Hq as [Hq _].
    rewrite (TextFacts.toLowerCase_ascii _ _ Hascii) in H.
    rewrite (TextFacts.toLowerCase_ascii _ _ Hq).
    rewrite !TextFacts.mapString_app in H.
    now apply includes_part in H.
Qed.

Lemma X14_search_narrows_witness :
  In {| _id := "1"; name := "Black Galaxy"; price := ofZ 10; image := [];
        postId := "p1" |}
     (filteredProducts (fun s => s)
        (setSearchQuery "GAL"
           {| products := [{| _id := "1"; name := "Black Galaxy";
                               price := ofZ 10; image := []; postId := "p1" |};
                            {| _id := "2"; name := "Onyx"; price := ofZ 20;
                               image := []; postId := "p2" |}];
              searchQuery := ""; priceValues := fun _ => None;
              updatingPrice := fun _ => None; toasts := []; posted := [] |})).
Proof.
  apply (proj2 (proj2 (X14_search_narrows (fun s => s) _ _)) "" "GAL" "axy").
  - reflexivity.
  - vm_compute. now left.
Defined.

End PriceListFacts.

(** * The product name on the QR card *)

Module CardFacts.

Import JS QR.

Lemma split_splitOn (s : string) : split s = Text.splitOn " " s.
Proof.
  unfold Text.splitOn. induction s as [|c s IH]; [reflexivity|].
  cbn [split Text.splitBy]. rewrite IH, (Ascii.eqb_sym c " "). reflexivity.
Qed.

Lemma join_joinWith (ws : list string) : join ws = Text.joinWith " " ws.
Proof.
  induction ws as [|w ws IH]; [reflexivity|].
  cbn [join Text.joinWith]. now rewrite IH.
Qed.

Lemma join_split (s : string) : join (split s) = s.
Proof.
  induction s as [|c s IH]; [reflexivity|]. cbn [split].
  destruct (Ascii.eqb c " ") eqn:E.
  - apply Ascii.eqb_eq in E. subst c.
    destruct (split s) as [|w ws] eqn:S; [now destruct s|].
    cbn [join] in *. now rewrite IH.
  - destruct (split s) as [|w ws] eqn:S.
    + rewrite split_splitOn in S. now apply TextFacts.splitBy_not_nil in S.
    + destruct ws; cbn [join append] in *; now rewrite IH.
Qed.

(** The pieces of a split hold no space. *)
Lemma split_no_space (s : string) :
  Forall (fun w => Text.all (fun x => negb (Ascii.eqb " " x)) w = true)
         (split s).
Proof.
  induction s as [|c s IH]; [repeat constructor|]. cbn [split].
  destruct (Ascii.eqb c " ") eqn:E; [constructor; [reflexivity | exact IH]|].
  destruct (split s) as [|w ws].
  { constructor; [|constructor]. cbn [Text.all].
    now rewrite Ascii.eqb_sym, E. }
  inversion IH; subst.
  constructor; [|assumption]. cbn [Text.all].
  rewrite Ascii.eqb_sym, E. assumption.
Qed.

Lemma toUpper_space (c : ascii) :
  Ascii.eqb " " (toUpper c) = Ascii.eqb " " c.
Proof. destruct c as [[] [] [] [] [] [] [] []]; reflexivity. Qed.

Lemma toLower_space (c : ascii) :
  Ascii.eqb " " (toLower c) = Ascii.eqb " " c.
Proof. destruct c as [[] [] [] [] [] [] [] []]; reflexivity. Qed.

Lemma toLower_toUpper (c : ascii) : toLower (toUpper c) = toLower c.
Proof. destruct c as [[] [] [] [] [] [] [] []]; reflexivity. Qed.

Lemma toLower_toLower (c : ascii) : toLower (toLower c) = toLower c.
Proof. destruct c as [[] [] [] [] [] [] [] []]; reflexivity. Qed.

Lemma toUpper_toUpper (c : ascii) : toUpper (toUpper c) = toUpper c.
Proof. destruct c as [[] [] [] [] [] [] [] []]; reflexivity. Qed.

Lemma mapString_toLower_twice (s : string) :
  mapString toLower (mapString toLower s) = mapString toLower s.
Proof.
  induction s as [|c s IH]; [reflexivity|]. cbn [mapString].
  now rewrite toLower_toLower, IH.
Qed.

Lemma capitalizeASCII_no_space (w : string) :
  Text.all (fun x => negb (Ascii.eqb " " x)) w = true ->
  Text.all (fun x => negb (Ascii.eqb " " x)) (capitalizeASCII w) = true.
Proof.
  destruct w as [|c w]; [reflexivity|]. cbn [capitalizeASCII Text.all].
  rewrite toUpper_space. intros H. apply andb_true_iff in H.
  destruct H as [-> H]. cbn [andb]. clear c.
  induction w as [|c w IH]; [reflexivity|]. cbn [mapString Text.all] in *.
  rewrite toLower_space. apply andb_true_iff in H. destruct H as [-> H].
  now apply IH.
Qed.

Lemma capitalizeASCII_twice (w : string) :
  capitalizeASCII (capitalizeASCII w) = capitalizeASCII w.
Proof.
  destruct w as [|c w]; [reflexivity|]. cbn [capitalizeASCII].
  now rewrite toUpper_toUpper, mapString_toLower_twice.
Qed.

Lemma toLowerCase_capitalizeASCII (w : string) :
  mapString toLower (capitalizeASCII w) = mapString toLower w.
Proof.
  destruct w as [|c w]; [reflexivity|]. cbn [capitalizeASCII mapString].
  now rewrite toLower_toUpper, mapString_toLower_twice.
Qed.

Lemma toLowerCase_join (ws : list string) :
  mapString toLower (join ws) = join (map (mapString toLower) ws).
Proof.
  induction ws as [|w ws IH]; [reflexivity|].
  destruct ws as [|w' ws]; [reflexivity|].
  change (join (w :: w' :: ws)) with (w ++ " " ++ join (w' :: ws)).
  rewrite !TextFacts.mapString_app, IH. reflexivity.
Qed.

Lemma mapString_length f (s : string) :
  String.length (mapString f s) = String.length s.
Proof. induction s as [|c s IH]; simpl; [reflexivity | now rewrite IH]. Qed.

(** *** Names of ASCII *)

Lemma toUpper_ascii (c : ascii) :
  (N_of_ascii (toUpper c) <? 128)%N = (N_of_ascii c <? 128)%N.
Proof. destruct c as [[] [] [] [] [] [] [] []]; reflexivity. Qed.

Lemma toLower_ascii (c : ascii) :
  (N_of_ascii (toLower c) <? 128)%N = (N_of_ascii c <? 128)%N.
Proof. destruct c as [[] [] [] [] [] [] [] []]; reflexivity. Qed.

Lemma capitalizeASCII_ascii (w : string) :
  isASCII (capitalizeASCII w) = isASCII w.
Proof.
  destruct w as [|c w]; [reflexivity|]. cbn [capitalizeASCII isASCII].
  rewrite toUpper_ascii. f_equal.
  induction w as [|x w IH]; [reflexivity|]. cbn [mapString isASCII].
  now rewrite toLower_ascii, IH.
Qed.

Lemma split_ascii (s : string) :
  isASCII s = true -> Forall (fun w => isASCII w = true) (split s).
Proof.
  induction s as [|c s IH]; [repeat constructor|]. cbn [isASCII split].
  intros H. apply andb_true_iff in H. destruct H as [Hc Hs].
  specialize (IH Hs). destruct (Ascii.eqb c " ").
  - constructor; [reflexivity | exact IH].
  - destruct (split s) as [|w ws].
    + constructor; [|constructor]. cbn [isASCII]. now rewrite Hc.
    + inversion IH; subst. constructor; [|assumption].
      cbn [isASCII]. now rewrite Hc.
Qed.

Lemma join_ascii (ws : list string) :
  Forall (fun w => isASCII w = true) ws -> isASCII (join ws) = true.
Proof.
  induction 1 as [|w ws Hw Hws IH]; [reflexivity|].
  destruct ws as [|w' ws]; [exact Hw|].
  change (join (w :: w' :: ws)) with (w ++ " " ++ join (w' :: ws)).
  rewrite !JSFacts.isASCII_app, Hw, IH. reflexivity.
Qed.

(** On the words of an ASCII name the engine's tables are not used. *)
Lemma map_capitalize_ascii (capitalizeUnicode : string -> string)
  (ws : list string) :
  Forall (fun w => isASCII w = true) ws ->
  map (capitalize capitalizeUnicode) ws = map capitalizeASCII ws.
Proof.
  induction 1 as [|w ws Hw _ IH]; [reflexivity|]. cbn [map].
  unfold capitalize at 1. now rewrite Hw, IH.
Qed.

Lemma capitalizedName_ascii (capitalizeUnicode : string -> string)
  (s : string) :
  isASCII s = true ->
  capitalizedName capitalizeUnicode s = join (map capitalizeASCII (split s)) /\
  isASCII (capitalizedName capitalizeUnicode s) = true.
Proof.
  intros H. unfold capitalizedName.
  rewrite (map_capitalize_ascii _ _ (split_ascii s H)).
  split; [reflexivity|]. apply join_ascii. apply Forall_map.
  eapply Forall_impl; [|exact (split_ascii s H)].
  intros w Hw. now rewrite capitalizeASCII_ascii.
Qed.

Lemma split_join_capitalizeASCII (s : string) :
  split (join (map capitalizeASCII (split s))) = map capitalizeASCII (split s).
Proof.
  rewrite split_splitOn, join_joinWith.
  apply TextFacts.splitOn_joinWith.
  - rewrite split_splitOn. pose proof (TextFacts.splitBy_not_nil
                                         (Ascii.eqb " ") s) as H.
    unfold Text.splitOn. destruct (Text.splitBy (Ascii.eqb " ") s);
      [congruence | discriminate].
  - apply Forall_map. eapply Forall_impl; [|apply split_no_space].
    intros w. apply capitalizeASCII_no_space.
Qed.

Lemma toLower_capitalizedASCII (s : string) :
  mapString toLower (join (map capitalizeASCII (split s)))
  = mapString toLower s.
Proof.
  rewrite toLowerCase_join, map_map.
  rewrite (map_ext _ (mapString toLower) toLowerCase_capitalizeASCII).
  rewrite <- toLowerCase_join. now rewrite join_split.
Qed.

(** X16. For a product name of ASCII characters, the name printed on the
    card differs from it in the case of letters only: it is ASCII too, it
    reads the same in lower case, it is as long, its words are the words
    of the product name, each capitalised, empty words between doubled
    spaces included; capitalising it again changes nothing.  (Outside
    ASCII the engine's case mapping can change the length of a word and
    need not be idempotent.) *)
Theorem X16_capitalized_name_changes_case_only
  (capitalizeUnicode lowerCaseUnicode : string -> string)
  (productName : string) :
  isASCII productName = true ->
  isASCII (capitalizedName capitalizeUnicode productName) = true /\
  Text.toLowerCase lowerCaseUnicode
    (capitalizedName capitalizeUnicode productName)
  = Text.toLowerCase lowerCaseUnicode productName /\
  String.length (capitalizedName capitalizeUnicode productName)
  = String.length productName /\
  split (capitalizedName capitalizeUnicode productName)
  = map (capitalize capitalizeUnicode) (split productName) /\
  capitalizedName capitalizeUnicode
    (capitalizedName capitalizeUnicode productName)
  = capitalizedName capitalizeUnicode productName.
Proof.
  intros H.
  destruct (capitalizedName_ascii capitalizeUnicode productName H)
    as [E Hascii].
  split; [exact Hascii|].
  assert (Hlower : Text.toLowerCase lowerCaseUnicode
                     (capitalizedName capitalizeUnicode productName)
                   = Text.toLowerCase lowerCaseUnicode productName).
  { rewrite (TextFacts.toLowerCase_ascii _ _ Hascii),
      (TextFacts.toLowerCase_ascii _ _ H), E.
    apply toLower_capitalizedASCII. }
  split; [exact Hlower|]. split; [|split].
  - rewrite <- (mapString_length toLower
                  (capitalizedName capitalizeUnicode productName)).
    rewrite E, toLower_capitalizedASCII. apply mapString_length.
  - rewrite (map_capitalize_ascii _ _ (split_ascii productName H)), E.
    apply split_join_capitalizeASCII.
  - destruct (capitalizedName_ascii capitalizeUnicode _ Hascii) as [E2 _].
    rewrite E2, E, split_join_capitalizeASCII, map_map.
    rewrite (map_ext _ capitalizeASCII capitalizeASCII_twice). reflexivity.
Qed.

Lemma X16_capitalized_name_changes_case_only_witness :
  capitalizedName (fun w => w) (capitalizedName (fun w => w) "bLACK  galaxy")
  = capitalizedName (fun w => w) "bLACK  galaxy".
Proof.
  apply (X16_capitalized_name_changes_case_only (fun w => w) (fun w => w)
           "bLACK  galaxy" eq_refl).
Defined.

(** *** Wrapping *)

Lemma greedyLines_not_nil measureText cur first words :
  greedyLines measureText cur first words <> [].
Proof.
  revert cur first. induction words as [|w ws IH]; intros cur first;
    cbn [greedyLines]; [discriminate|].
  destruct (gtb _ _ && negb first); [discriminate | apply IH].
Qed.

(** As long as the greedy lines fit under the limit, the loop draws every
    line but the last and leaves the last for the statement after it. *)
Lemma wrapLoop_greedy (measureText : string -> number) (n : Z) :
  forall rest i l (c : nat) first,
    0 <= i -> first = (i =? 0) ->
    lineCount l = Z.of_nat c -> y l = 810 + 20 * Z.of_nat c ->
    (c + List.length (greedyLines measureText (line l) first rest) <= 2)%nat ->
    let l' := wrapLoop measureText n rest i l in
    lineCount l' < maxLines /\
    texts (fillText (line l') qrCodeCenterX (y l') l') =
    (texts l ++
     map (fun '(k, s) =>
            {| content := s; atX := 455; atY := 810 + 20 * Z.of_nat k |})
         (combine (seq c (List.length
                            (greedyLines measureText (line l) first rest)))
                  (greedyLines measureText (line l) first rest)))%list.
Proof.
  induction rest as [|word rest IH]; intros i l c first Hi Hf Hc Hy Hlen;
    cbn zeta.
  - cbn [wrapLoop greedyLines List.length seq combine map fillText texts].
    unfold maxLines, qrCodeCenterX. rewrite Hy. cbn [List.length] in Hlen.
    split; [lia | reflexivity].
  - pose proof (greedyLines_not_nil measureText (line l) first (word :: rest))
      as Hne.
    assert (Hc1 : (c <= 1)%nat).
    { destruct (greedyLines measureText (line l) first (word :: rest));
        [congruence | cbn [List.length] in Hlen; lia]. }
    cbn [wrapLoop].
    replace (maxLines - 1 <=? lineCount l) with false
      by (symmetry; apply Z.leb_gt; unfold maxLines; lia).
    cbn [andb]. cbn [greedyLines] in Hlen |- *.
    replace (negb first) with (0 <? i)
      in Hlen |- * by (subst first; destruct (Z.eqb_spec i 0), (Z.ltb_spec 0 i);
                       cbn; reflexivity || lia).
    assert (Hf' : false = (i + 1 =? 0)) by (symmetry; apply Z.eqb_neq; lia).
    destruct (gtb (measureText (line l ++ word ++ " ")) (ofZ maxWidth)
              && (0 <? i)).
    + cbn [List.length] in Hlen.
      specialize (IH (i + 1)
                     {| line := word ++ " "; y := y l + 20;
                        lineCount := lineCount l + 1;
                        texts := texts (fillText (line l) qrCodeCenterX (y l) l)
                     |} (S c) false ltac:(lia) Hf').
      cbn [line y lineCount texts fillText] in IH |- *.
      destruct IH as [IH1 IH2]; try lia.
      split; [exact IH1|]. cbn [fillText texts] in IH2. rewrite IH2.
      rewrite <- app_assoc. cbn [List.length seq combine map app].
      unfold qrCodeCenterX. rewrite Hy. reflexivity.
    + specialize (IH (i + 1)
                     {| line := line l ++ word ++ " "; y := y l;
                        lineCount := lineCount l; texts := texts l |}
                     c false ltac:(lia) Hf').
      cbn [line y lineCount texts fillText] in IH |- *.
      destruct IH as [IH1 IH2]; try lia.
      split; [exact IH1|]. cbn [fillText texts] in IH2. exact IH2.
Qed.

Lemma flat_greedyLines measureText words : forall cur first,
  fold_right append "" (greedyLines measureText cur first words)
  = cur ++ fold_right append "" (map (fun w => w ++ " ") words).
Proof.
  induction words as [|w ws IH]; intros cur first; cbn [greedyLines].
  - cbn. reflexivity.
  - destruct (gtb _ _ && negb first); cbn [fold_right map]; rewrite IH.
    + reflexivity.
    + now rewrite !TextFacts.append_assoc.
Qed.

Lemma flat_words (ws : list string) :
  ws <> [] ->
  fold_right append "" (map (fun w => w ++ " ") ws) = join ws ++ " ".
Proof.
  induction ws as [|w ws IH]; [congruence|]. intros _.
  destruct ws as [|w' ws].
  - cbn. now rewrite TextFacts.append_nil_r.
  - change (join (w :: w' :: ws)) with (w ++ " " ++ join (w' :: ws)).
    cbn [map fold_right] in *. rewrite IH by discriminate.
    now rewrite !TextFacts.append_assoc.
Qed.

Lemma flat_placed (lines : list string) : forall c,
  fold_right append ""
    (map content
       (map (fun '(k, s) =>
               {| content := s; atX := 455; atY := 810 + 20 * Z.of_nat k |})
            (combine (seq c (List.length lines)) lines)))
  = fold_right append "" lines.
Proof.
  induction lines as [|s lines IH]; intros c; [reflexivity|].
  cbn [List.length seq combine map fold_right content]. now rewrite IH.
Qed.

(** X15. A product name that greedy wrapping at 150 pixels puts on one or
    two lines is printed on the card whole, whatever the font measures:
    the lines drawn are the greedy lines, one under the other from height
    810 in steps of 20 on the centre line, with no ellipsis, and together
    they spell the capitalised name (each word followed by a space).  This
    holds whatever the engine's case mapping makes of characters outside
    ASCII. *)
Theorem X15_short_names_are_drawn_in_full
  (capitalizeUnicode : string -> string)
  (measureText : string -> number) (productName : string) :
  let lines :=
    greedyLines measureText "" true (split (capitalizedName capitalizeUnicode productName)) in
  (List.length lines <= 2)%nat ->
  drawName capitalizeUnicode measureText productName =
    map (fun '(k, s) =>
           {| content := s; atX := 455; atY := 810 + 20 * Z.of_nat k |})
        (combine (seq 0 (List.length lines)) lines) /\
  fold_right append "" (map content (drawName capitalizeUnicode measureText productName))
  = capitalizedName capitalizeUnicode productName ++ " ".
Proof.
  intros lines Hlen.
  assert (Hdraw : drawName capitalizeUnicode measureText productName =
                  map (fun '(k, s) =>
                         {| content := s; atX := 455;
                            atY := 810 + 20 * Z.of_nat k |})
                      (combine (seq 0 (List.length lines)) lines)).
  { unfold drawName.
    pose proof (wrapLoop_greedy measureText
                  (Z.of_nat (List.length (split (capitalizedName capitalizeUnicode productName))))
                  (split (capitalizedName capitalizeUnicode productName)) 0
                  {| line := ""; y := textY; lineCount := 0; texts := [] |}
                  0%nat true) as H.
    cbn zeta in H. cbn [line y lineCount texts] in H.
    destruct H as [H1 H2]; try reflexivity; try lia; [exact Hlen|].
    cbn zeta. apply Z.ltb_lt in H1. rewrite H1. exact H2. }
  split; [exact Hdraw|]. rewrite Hdraw, flat_placed.
  unfold lines. rewrite flat_greedyLines. cbn [append].
  rewrite flat_words.
  - now rewrite join_split.
  - rewrite split_splitOn. apply TextFacts.splitBy_not_nil.
Qed.

Lemma X15_short_names_are_drawn_in_full_witness :
  drawName (fun w => w) tenPerByte "absolute black granite" =
  [ {| content := "Absolute Black "; atX := 455; atY := 810 |};
    {| content := "Granite "; atX := 455; atY := 830 |} ].
Proof.
  apply (proj1 (X15_short_names_are_drawn_in_full (fun w => w) tenPerByte
                  "absolute black granite"
                  ltac:(vm_compute; lia))).
Defined.

(** *** The rows of the card *)

(** The [k]-th text is on the centre line, on row [k] of the three rows,
    the last row taking what comes after it. *)
Lemma rows_snoc (ts : list Text) (t : Text) :
  (forall k u, nth_error ts k = Some u ->
               atX u = 455 /\ atY u = 810 + 20 * Z.min (Z.of_nat k) 2) ->
  atX t = 455 ->
  atY t = 810 + 20 * Z.min (Z.of_nat (List.length ts)) 2 ->
  forall k u, nth_error (ts ++ [t]) k = Some u ->
              atX u = 455 /\ atY u = 810 + 20 * Z.min (Z.of_nat k) 2.
Proof.
  intros Hts Hx Hy k u H.
  destruct (Nat.lt_ge_cases k (List.length ts)) as [Hk|Hk].
  - rewrite nth_error_app1 in H by exact Hk. now apply Hts.
  - rewrite nth_error_app2 in H by exact Hk.
    destruct (k - List.length ts)%nat as [|j] eqn:E.
    + injection H as <-. replace k with (List.length ts) by lia. now split.
    + now destruct j.
Qed.

Lemma wrapLoop_count (measureText : string -> number) (n : Z) :
  forall rest i l,
    n = i + Z.of_nat (List.length rest) ->
    lineCount l = Z.of_nat (List.length (texts l)) ->
    lineCount l <= 2 ->
    y l = 810 + 20 * lineCount l ->
    (forall k u, nth_error (texts l) k = Some u ->
                 atX u = 455 /\ atY u = 810 + 20 * Z.min (Z.of_nat k) 2) ->
    let l' := wrapLoop measureText n rest i l in
    let drawn :=
      texts (if lineCount l' <? maxLines
             then fillText (line l') qrCodeCenterX (y l') l' else l') in
    (1 <= List.length drawn <= 4)%nat /\
    forall k u, nth_error drawn k = Some u ->
                atX u = 455 /\ atY u = 810 + 20 * Z.min (Z.of_nat k) 2.
Proof.
  unfold maxLines, qrCodeCenterX.
  assert (Hlast : forall l,
            lineCount l = Z.of_nat (List.length (texts l)) ->
            lineCount l <= 2 ->
            y l = 810 + 20 * lineCount l ->
            (forall k u, nth_error (texts l) k = Some u ->
                 atX u = 455 /\ atY u = 810 + 20 * Z.min (Z.of_nat k) 2) ->
            let drawn := texts (fillText (line l) (380 + 75) (y l) l) in
            (1 <= List.length drawn <= 4)%nat /\
            forall k u, nth_error drawn k = Some u ->
                atX u = 455 /\ atY u = 810 + 20 * Z.min (Z.of_nat k) 2).
  { intros l Hc H2 Hy Ht. cbn zeta. cbn [fillText texts].
    split; [rewrite length_app; cbn [List.length]; lia|].
    apply rows_snoc; [exact Ht | reflexivity|]. cbn [atY]. lia. }
  induction rest as [|word rest IH]; intros i l Hn Hc H2 Hy Ht; cbn zeta.
  - cbn [wrapLoop].
    replace (lineCount l <? 3) with true by (symmetry; apply Z.ltb_lt; lia).
    now apply Hlast.
  - cbn [wrapLoop]. unfold maxLines, qrCodeCenterX. cbn [List.length] in Hn.
    destruct ((3 - 1 <=? lineCount l) && (i <? n - 1)) eqn:Hstop.
    + apply andb_true_iff in Hstop. destruct Hstop as [Hge _].
      apply Z.leb_le in Hge.
      cbn [fillText lineCount line y texts].
      replace (lineCount l <? 3) with true by (symmetry; apply Z.ltb_lt; lia).
      cbn [fillText texts line y]. split.
      * rewrite !length_app. cbn [List.length]. lia.
      * apply rows_snoc; [apply rows_snoc; [exact Ht|reflexivity|]
                         |reflexivity|]; cbn [atY].
        { lia. }
        { rewrite length_app. cbn [List.length]. lia. }
    + destruct (gtb (measureText (line l ++ word ++ " ")) (ofZ maxWidth)
                && (0 <? i)).
      * destruct rest as [|word' rest].
        { cbn [wrapLoop lineCount line y texts fillText].
          unfold maxLines, qrCodeCenterX.
          assert (Hrows : forall k u,
                    nth_error (texts l ++
                               [{| content := line l; atX := 380 + 75;
                                   atY := y l |}]) k = Some u ->
                    atX u = 455 /\
                    atY u = 810 + 20 * Z.min (Z.of_nat k) 2).
          { apply rows_snoc; [exact Ht | reflexivity|]. cbn [atY]. lia. }
          destruct (lineCount l + 1 <? 3) eqn:E; cbn [texts fillText].
          - apply Z.ltb_lt in E. split.
            + rewrite !length_app. cbn [List.length]. lia.
            + apply rows_snoc; [exact Hrows | reflexivity|]. cbn [atY].
              rewrite length_app. cbn [List.length]. lia.
          - split; [rewrite length_app; cbn [List.length]; lia | exact Hrows]. }
        { apply andb_false_iff in Hstop. cbn [List.length] in Hn.
          apply IH; cbn [lineCount y texts fillText line].
          - cbn [List.length]. lia.
          - rewrite length_app. cbn [List.length]. lia.
          - destruct Hstop as [H|H]; [apply Z.leb_gt in H|apply Z.ltb_ge in H];
              lia.
          - lia.
          - apply rows_snoc; [exact Ht | reflexivity|]. cbn [atY]. lia. }
      * apply IH; cbn [lineCount y texts line]; try assumption. lia.
Qed.

(** X22. Whatever the product name and whatever the font measures, the name
    takes between one and four texts on the card, all on the centre line
    of the code; the first is at height 810, the second at 830, and the
    third and, when there is one, the fourth are both at 850: nothing is
    written below the third row.  This holds whatever the engine's case
    mapping makes of characters outside ASCII. *)
Theorem X22_name_stays_on_three_rows
  (capitalizeUnicode : string -> string)
  (measureText : string -> number) (productName : string) :
  (1 <= List.length (drawName capitalizeUnicode measureText productName) <= 4)%nat /\
  forall k t,
    nth_error (drawName capitalizeUnicode measureText productName) k = Some t ->
    atX t = 455 /\ atY t = 810 + 20 * Z.min (Z.of_nat k) 2.
Proof.
  unfold drawName.
  apply (wrapLoop_count measureText
           (Z.of_nat (List.length (split (capitalizedName capitalizeUnicode productName))))
           (split (capitalizedName capitalizeUnicode productName)) 0
           {| line := ""; y := textY; lineCount := 0; texts := [] |});
    cbn [lineCount y texts List.length]; try (unfold textY; lia).
  intros [|k] u H; discriminate.
Qed.

End CardFacts.

(** * The texture as a repeating background *)

Module TileFacts.

Import Canvas ProductVisualizer Tile.

Section Seams.

Ltac numerals :=
  cbv [Nat.odd Nat.even negb Z.of_nat Pos.of_succ_nat Pos.succ Nat.eqb
       Nat.add fst snd].

Ltac seams :=
  intros u v; unfold pixelTo; cbn [under dx dy sx sy tx ty identity];
  numerals; split; f_equal; lia.

(** X17. The texture repeats without a visible seam.  In the composed
    canvas every cell and its neighbour to the right show the source as
    mirror images about the edge they share, and so do every cell and the
    cell below it; this includes the last column and the last row, whose
    neighbour is the first column or row of the next repetition of the
    background. *)
Theorem X17_texture_tiles_seamlessly (w h : Z) (x y : nat) :
  let n := cells w h in
  (x < n)%nat -> (y < n)%nat ->
  exists d right below,
    cell w h x y = Some d /\
    cell w h ((x + 1) mod n) y = Some right /\
    cell w h x ((y + 1) mod n) = Some below /\
    forall u v,
      pixelTo right u v =
        (2 * (Z.of_nat x + 1) * w - fst (pixelTo d u v)
         - (if (x + 1 =? n)%nat then Z.of_nat n * w else 0),
         snd (pixelTo d u v)) /\
      pixelTo below u v =
        (fst (pixelTo d u v),
         2 * (Z.of_nat y + 1) * h - snd (pixelTo d u v)
         - (if (y + 1 =? n)%nat then Z.of_nat n * h else 0)).
Proof.
  unfold cell, cells. cbn zeta. destruct (isKnownSquare w h) eqn:K.
  - intros Hx Hy. apply Bookmatch.isKnownSquare_true in K.
    destruct K as [[-> ->]|[-> ->]];
      (destruct x as [|[|x]]; [| |lia]);
      (destruct y as [|[|y]]; [| |lia]);
      (do 3 eexists;
       split; [vm_compute; reflexivity|];
       split; [vm_compute; reflexivity|];
       split; [vm_compute; reflexivity|]; seams).
  - intros Hx Hy.
    destruct (Bookmatch.compose_alternatingGrid w h K) as (_ & _ & _ & G).
    destruct x as [|[|[|[|x]]]]; try lia;
      destruct y as [|[|[|[|y]]]]; try lia;
      match goal with
      | |- exists d right below,
            nth_error _ (4 * ?y + ?x) = _ /\
            nth_error _ (4 * _ + ?x') = _ /\
            nth_error _ (4 * ?y' + _) = _ /\ _ =>
          let x1 := eval vm_compute in x' in
          let y1 := eval vm_compute in y' in
          destruct (G x y ltac:(lia) ltac:(lia)) as (d & Hd & _ & _ & Pd);
          destruct (G x1 y ltac:(lia) ltac:(lia)) as (r & Hr & _ & _ & Pr);
          destruct (G x y1 ltac:(lia) ltac:(lia)) as (b & Hb & _ & _ & Pb);
          exists d, r, b;
          split; [exact Hd|]; split; [exact Hr|]; split; [exact Hb|];
          intros u v; rewrite Pd, Pr, Pb; numerals; split; f_equal; lia
      end.
Qed.

End Seams.

Lemma X17_texture_tiles_seamlessly_witness :
  exists d right below,
    cell 300 200 3 0 = Some d /\
    cell 300 200 ((3 + 1) mod cells 300 200) 0 = Some right /\
    cell 300 200 3 ((0 + 1) mod cells 300 200) = Some below /\
    forall u v,
      pixelTo right u v =
        (2 * (Z.of_nat 3 + 1) * 300 - fst (pixelTo d u v)
         - (if (3 + 1 =? cells 300 200)%nat
            then Z.of_nat (cells 300 200) * 300 else 0),
         snd (pixelTo d u v)) /\
      pixelTo below u v =
        (fst (pixelTo d u v),
         2 * (Z.of_nat 0 + 1) * 200 - snd (pixelTo d u v)
         - (if (0 + 1 =? cells 300 200)%nat
            then Z.of_nat (cells 300 200) * 200 else 0)).
Proof.
  apply (X17_texture_tiles_seamlessly 300 200 3 0); vm_compute; lia.
Defined.

(** X18. The texture is created once.  When the reference holds a texture,
    running the creation again, for the same or for another product image
    and whatever that image would do, loads nothing and changes neither the
    texture nor the tile size and position: the rooms keep showing the
    texture made first. *)
Theorem X18_texture_is_created_once
  (toDataURL : Canvas.t -> string) (contextAvailable : bool)
  (calls : list (string * LoadEvent)) (st : State) :
  hasTexture st = true ->
  exists st',
    rerun toDataURL contextAvailable calls st = Normal st' /\
    bookmatchedTextureRef st' = bookmatchedTextureRef st /\
    backgroundSize st' = backgroundSize st /\
    backgroundPosition st' = backgroundPosition st /\
    (calls <> [] -> textureReady st' = true) /\
    forall productImage productImage',
      backgroundImage productImage' st' = backgroundImage productImage st.
Proof.
  revert st. induction calls as [|[productImage ev] rest IH]; intros st H.
  - exists st. repeat split; try congruence.
    intros p p'. unfold backgroundImage. unfold hasTexture in H.
    destruct (bookmatchedTextureRef st) as [[|c r]|]; congruence.
  - cbn [rerun]. unfold createBookmatchedTexture. rewrite H.
    destruct (IH (setTextureReady true st) H)
      as (st' & Hrun & Href & Hsize & Hpos & Hready & Himg).
    exists st'. split; [exact Hrun|]. split; [exact Href|].
    split; [exact Hsize|]. split; [exact Hpos|]. split; [|exact Himg].
    intros _. destruct rest as [|call rest]; [|apply Hready; discriminate].
    cbn [rerun] in Hrun. now injection Hrun as <-.
Qed.

Lemma X18_texture_is_created_once_witness :
  exists st',
    rerun (fun _ => "data:image/png;base64,") true
      [("/slabs/onyx.jpg", Loaded 300 200)]
      {| bookmatchedTextureRef := Some "/slabs/marble.jpg";
         textureReady := true; backgroundSize := "400px 400px";
         backgroundPosition := "center" |} = Normal st' /\
    bookmatchedTextureRef st' = Some "/slabs/marble.jpg".
Proof.
  destruct (X18_texture_is_created_once (fun _ => "data:image/png;base64,")
              true [("/slabs/onyx.jpg", Loaded 300 200)]
              {| bookmatchedTextureRef := Some "/slabs/marble.jpg";
                 textureReady := true; backgroundSize := "400px 400px";
                 backgroundPosition := "center" |} eq_refl)
    as (st' & Hrun & Href & _).
  exists st'. split; [exact Hrun | exact Href].
Defined.

End TileFacts.

(** * The images of a submission *)

Module UploadFacts.

Import Images Upload.

Lemma validateImage_accepted f st :
  accepted f = true -> validateImage f st = (true, st).
Proof.
  unfold accepted, validateImage. intros H. apply andb_true_iff in H.
  destruct H as [Ht Hs]. rewrite Ht. cbn [negb].
  apply Z.leb_le in Hs. destruct (Z.ltb_spec MAX_FILE_SIZE (size f)); [lia|].
  reflexivity.
Qed.

Lemma validateImage_rejected f st :
  accepted f = false ->
  exists m, validateImage f st = (false, setMessage m st) /\ kind m = error.
Proof.
  unfold accepted, validateImage. intros H.
  destruct (includes (type f) ACCEPTED_IMAGE_TYPES); cbn [negb andb] in *.
  - apply Z.leb_gt in H. apply Z.ltb_lt in H. rewrite H.
    eexists. split; reflexivity.
  - eexists. split; reflexivity.
Qed.

Lemma filterValid_accepted files : forall st,
  forallb accepted files = true -> filterValid files st = (files, st).
Proof.
  induction files as [|f rest IH]; intros st H; [reflexivity|].
  cbn [forallb] in H. apply andb_true_iff in H. destruct H as [Hf Hr].
  cbn [filterValid]. rewrite (validateImage_accepted _ _ Hf), (IH _ Hr).
  reflexivity.
Qed.

Lemma filterValid_length files : forall st,
  (List.length (fst (filterValid files st)) <= List.length files)%nat.
Proof.
  induction files as [|f rest IH]; intros st; cbn [filterValid];
    [cbn; lia|].
  destruct (validateImage f st) as [ok st1]. specialize (IH st1).
  destruct (filterValid rest st1) as [valid st2].
  destruct ok; cbn [fst List.length] in *; lia.
Qed.

(** Validation replaces an error message by an error message only. *)
Lemma filterValid_keeps_error files : forall st,
  (exists m, message st = Some m /\ kind m = error) ->
  exists m, message (snd (filterValid files st)) = Some m /\ kind m = error.
Proof.
  induction files as [|f rest IH]; intros st H; [exact H|].
  cbn [filterValid].
  assert (H1 : exists m, message (snd (validateImage f st)) = Some m /\
                         kind m = error).
  { destruct (accepted f) eqn:A.
    - now rewrite (validateImage_accepted _ _ A).
    - destruct (validateImage_rejected f st A) as (m & -> & Hm).
      exists m. now split. }
  destruct (validateImage f st) as [ok st1]. cbn [snd] in H1.
  specialize (IH st1 H1). destruct (filterValid rest st1) as [valid st2].
  exact IH.
Qed.

Lemma filterValid_rejected files : forall st,
  forallb accepted files = false ->
  (List.length (fst (filterValid files st)) < List.length files)%nat /\
  exists m, message (snd (filterValid files st)) = Some m /\ kind m = error.
Proof.
  induction files as [|f rest IH]; intros st H; [discriminate|].
  cbn [forallb] in H. cbn [filterValid].
  destruct (accepted f) eqn:A.
  - cbn [andb] in H. rewrite (validateImage_accepted _ _ A).
    specialize (IH st H). destruct (filterValid rest st) as [valid st2].
    cbn [fst snd List.length] in *. split; [lia | apply IH].
  - destruct (validateImage_rejected f st A) as (m & -> & Hm).
    pose proof (filterValid_length rest (setMessage m st)) as Hlen.
    pose proof (filterValid_keeps_error rest (setMessage m st)
                  (ex_intro _ m (conj eq_refl Hm))) as Herr.
    destruct (filterValid rest (setMessage m st)) as [valid st2].
    cbn [fst snd List.length] in *. split; [lia | exact Herr].
Qed.

(** X20. A selection of files is taken whole or not at all.  It is taken
    when the files already chosen and the selection together are ten at
    most and every file of the selection has an accepted type and five
    megabytes at most: then the files and their previews are appended in
    order and the message stays as it was.  Otherwise nothing is added, not
    even the valid files of the selection, and an error message is shown. *)
Theorem X20_selection_is_all_or_nothing (fileArray : list File) (st : State) :
  let st' := handleImageChange (Some fileArray) st in
  if (List.length (images st) + List.length fileArray <=? 10)%nat
     && forallb accepted fileArray
  then
    images st' = (images st ++ fileArray)%list /\
    previews st' = (previews st ++ map createObjectURL fileArray)%list /\
    newImageCount st' = newImageCount st + Z.of_nat (List.length fileArray) /\
    message st' = message st
  else
    images st' = images st /\
    previews st' = previews st /\
    newImageCount st' = newImageCount st /\
    exists m, message st' = Some m /\ kind m = error.
Proof.
  cbn zeta. unfold handleImageChange.
  destruct (Nat.leb_spec (List.length (images st) + List.length fileArray) 10)
    as [Hle|Hgt]; cbn [andb].
  - replace (10 <? List.length (images st) + List.length fileArray)%nat
      with false by (symmetry; apply Nat.ltb_ge; exact Hle).
    destruct (forallb accepted fileArray) eqn:A.
    + rewrite (filterValid_accepted _ _ A), Nat.eqb_refl. cbn [negb].
      repeat split.
    + destruct (filterValid_rejected fileArray st A) as [Hlen Herr].
      destruct (ImageFacts.filterValid_state fileArray st)
        as (Hi & Hp & Hn).
      destruct (filterValid fileArray st) as [valid st1].
      cbn [fst snd] in *.
      replace (List.length valid =? List.length fileArray)%nat with false
        by (symmetry; apply Nat.eqb_neq; lia).
      cbn [negb]. repeat split; assumption.
  - replace (10 <? List.length (images st) + List.length fileArray)%nat
      with true by (symmetry; apply Nat.ltb_lt; exact Hgt).
    cbn [setMessage images previews newImageCount message].
    repeat split. eexists. split; reflexivity.
Qed.

Lemma splice_map {A B : Type} (f : A -> B) (a : list A) : forall index,
  splice index (map f a) = map f (splice index a).
Proof.
  induction a as [|x a IH]; intros [|k]; cbn [splice map]; try reflexivity.
  now rewrite IH.
Qed.

Lemma create_aligned p st :
  mode p = create -> reachable p st ->
  previews st = map createObjectURL (images st) /\
  newImageCount st = Z.of_nat (List.length (images st)).
Proof.
  intros Hm. induction 1 as [|files st _ IH|index st _ IH Hlt].
  - unfold init. rewrite Hm. split; reflexivity.
  - destruct IH as [IHp IHn]. destruct files as [fileArray|]; [|now split].
    pose proof (X := ImageFacts.filterValid_state fileArray st).
    unfold handleImageChange.
    destruct (10 <? List.length (images st) + List.length fileArray)%nat;
      [now split|].
    destruct (filterValid fileArray st) as [valid st1].
    cbn [fst snd] in X. destruct X as (Xi & Xp & Xn).
    destruct (negb (List.length valid =? List.length fileArray)%nat).
    + rewrite Xi, Xp, Xn. now split.
    + cbn [images previews newImageCount]. rewrite Xi, Xp, Xn, IHp.
      rewrite map_app, length_app. split; [reflexivity | lia].
  - destruct IH as [IHp IHn]. unfold removeImage, isEdit. rewrite Hm.
    cbn [andb images previews newImageCount].
    rewrite IHp, splice_map. split; [reflexivity|].
    rewrite IHp, length_map in Hlt.
    rewrite (ImageFacts.splice_length_lt _ _ Hlt). lia.
Qed.

(** X19. While a product is being created, whatever files are chosen and
    whichever previews are removed, the previews on screen are those of the
    files held, in the same order, so that the remove button of a preview
    removes its own file; there are ten files at most and the counter of
    new images is their number.  A submission is refused exactly when no
    file is held, and otherwise sends exactly the files whose previews are
    shown. *)
Theorem X19_create_mode_previews_are_the_files (p : Props) (st : State) :
  mode p = create -> reachable p st ->
  previews st = map createObjectURL (images st) /\
  (List.length (images st) <= 10)%nat /\
  newImageCount st = Z.of_nat (List.length (images st)) /\
  imageParts p st =
    match images st with
    | [] => Throw "You must have at least one image"
    | _ :: _ => Normal {| existingImages := None; files := images st |}
    end.
Proof.
  intros Hm Hr. destruct (create_aligned p st Hm Hr) as [Hp Hn].
  split; [exact Hp|]. split; [exact (ImageFacts.reachable_images p st Hr)|].
  split; [exact Hn|]. unfold imageParts. rewrite Hp, Hm.
  now destruct (images st).
Qed.

Lemma X19_create_mode_previews_are_the_files_witness :
  previews
    (removeImage {| mode := create; initialImage := None |} 1
       (handleImageChange (Some fiveFiles)
          (init {| mode := create; initialImage := None |})))
  = ["blob:a.png"; "blob:c.png"; "blob:d.png"; "blob:e.png"].
Proof.
  assert (R : reachable {| mode := create; initialImage := None |}
                (removeImage {| mode := create; initialImage := None |} 1
                   (handleImageChange (Some fiveFiles)
                      (init {| mode := create; initialImage := None |})))).
  { apply reach_remove; [apply reach_add, reach_init | vm_compute; lia]. }
  rewrite (proj1 (X19_create_mode_previews_are_the_files
                    {| mode := create; initialImage := None |} _ eq_refl R)).
  reflexivity.
Defined.

Lemma splice_last {A : Type} (a : list A) (x : A) :
  splice (List.length a) (a ++ [x]) = a.
Proof. induction a as [|y a IH]; cbn; [reflexivity | now rewrite IH]. Qed.

(** X21. In an edit session the remove button tells a server image from a
    new file by comparing the position of the preview with the number of
    images the product had when the form opened.  Once a server image has
    been removed the positions have shifted: after removing the first
    server image and choosing a valid file, the remove button of that
    file's preview takes the preview away but keeps the file, which a
    submission then sends although no preview shows it. *)
Theorem X21_edit_mode_removed_file_is_still_sent
  (first : string) (others : list string) (file : File) :
  accepted file = true ->
  let p := {| mode := edit; initialImage := Some (first :: others) |} in
  let chosen := handleImageChange (Some [file]) (removeImage p 0 (init p)) in
  let st := removeImage p (List.length others) chosen in
  previews chosen = (others ++ [createObjectURL file])%list /\
  reachable p st /\
  previews st = others /\
  images st = [file] /\
  (others <> [] ->
   exists existing,
     imageParts p st =
       Normal {| existingImages := Some existing; files := [file] |}).
Proof.
  intros Hf p chosen st.
  assert (Hchosen : chosen =
                    {| images := [file];
                       previews := (others ++ [createObjectURL file])%list;
                       message := None; newImageCount := 1 |}).
  { unfold chosen, handleImageChange, removeImage, init, p.
    cbn [isEdit mode initialImage initialCount List.length Nat.ltb Nat.leb
         andb images previews message newImageCount splice Nat.add negb].
    cbn [filterValid]. rewrite (validateImage_accepted _ _ Hf).
    cbn [List.length Nat.eqb negb images previews message newImageCount
         map app Z.of_nat Pos.of_succ_nat Z.add]. reflexivity. }
  assert (Hst : st = {| images := [file]; previews := others;
                        message := None; newImageCount := 1 |}).
  { unfold st. rewrite Hchosen. unfold removeImage, p.
    cbn [isEdit mode initialImage initialCount List.length andb].
    replace (List.length others <? S (List.length others))%nat with true
      by (symmetry; apply Nat.ltb_lt; lia).
    cbn [images previews message newImageCount]. now rewrite splice_last. }
  split; [now rewrite Hchosen|]. split.
  - unfold st. apply reach_remove.
    + unfold chosen. apply reach_add, reach_remove; [apply reach_init|].
      cbn. lia.
    + rewrite Hchosen. cbn [previews]. rewrite length_app. cbn. lia.
  - rewrite Hst. cbn [previews images]. split; [reflexivity|].
    split; [reflexivity|]. intros Hne. unfold imageParts.
    cbn [previews images mode p]. destruct others as [|o os]; [congruence|].
    cbn [List.length Nat.eqb]. eexists. reflexivity.
Qed.

Lemma X21_edit_mode_removed_file_is_still_sent_witness :
  images
    (removeImage {| mode := edit; initialImage := Some ["/1.png"; "/2.png"] |}
       1
       (handleImageChange (Some [png "new.png"])
          (removeImage
             {| mode := edit; initialImage := Some ["/1.png"; "/2.png"] |} 0
             (init {| mode := edit;
                      initialImage := Some ["/1.png"; "/2.png"] |}))))
  = [png "new.png"].
Proof.
  apply (X21_edit_mode_removed_file_is_still_sent "/1.png" ["/2.png"]
           (png "new.png") eq_refl).
Defined.

End UploadFacts.
